(** * Linksy backend: the identity federation core

    A shallow embedding of [backend/src/auth/service.py],
    [backend/src/auth/controller.py] and
    [backend/src/auth/keycloak_client.py], together with the [users] table
    of [backend/src/entities/user.py].

    Conventions of the embedding:
    - Python [str] values are [string]s holding the text in UTF-8.
      [str.lower] and [str.capitalize] are computed on ASCII text; on
      other text they are the Unicode case mappings of the interpreter,
      oracles of [Env].  A space, a dot and a slash are single bytes
      that occur in no other character, so [str.replace] and [str.split]
      on them act byte by byte.
    - A Python exception is a value of [exn]; a computation that may raise
      returns an [outcome].
    - Request handlers run in the monad [M]: they read and write the
      committed rows of the [users] table and consume readings of the
      wall clock.
    - Everything that lives outside the process (the Keycloak server, the
      JWT and bcrypt primitives, the clock) is an oracle gathered in [Env].
    - [datetime] values are integers counting microseconds. *)

From Stdlib Require Import String Ascii List ZArith Lia Bool.
From Stdlib Require Import DecimalString DecimalNat FinFun.
Import ListNotations.

Local Open Scope Z_scope.
Local Open Scope list_scope.
Local Open Scope string_scope.

(* ------------------------------------------------------------------ *)
(** ** Python string helpers *)

Module Py.

Definition is_upper (c : ascii) : bool :=
  (65 <=? nat_of_ascii c)%nat && (nat_of_ascii c <=? 90)%nat.

Definition is_lower (c : ascii) : bool :=
  (97 <=? nat_of_ascii c)%nat && (nat_of_ascii c <=? 122)%nat.

Definition lower_char (c : ascii) : ascii :=
  if is_upper c then ascii_of_nat (nat_of_ascii c + 32) else c.

Definition upper_char (c : ascii) : ascii :=
  if is_lower c then ascii_of_nat (nat_of_ascii c - 32) else c.

Fixpoint str_map (f : ascii -> ascii) (s : string) : string :=
  match s with
  | EmptyString => EmptyString
  | String c r => String (f c) (str_map f r)
  end.

(** [s.isascii()] *)
Fixpoint isascii (s : string) : bool :=
  match s with
  | EmptyString => true
  | String c r => (nat_of_ascii c <? 128)%nat && isascii r
  end.

(** [s.lower()]: on ASCII text the letters A-Z are lowered; on other
    text the result is the Unicode case mapping of the interpreter,
    [unicode_lower]. *)
Definition lower (unicode_lower : string -> string) (s : string) : string :=
  if isascii s then str_map lower_char s else unicode_lower s.

(** [s.replace(a, b)] for one-character [a] and [b] *)
Definition replace (a b : ascii) (s : string) : string :=
  str_map (fun c => if Ascii.eqb c a then b else c) s.

(** [s.capitalize()], likewise *)
Definition capitalize (unicode_capitalize : string -> string) (s : string) : string :=
  if isascii s then
    match s with
    | EmptyString => EmptyString
    | String c r => String (upper_char c) (str_map lower_char r)
    end
  else unicode_capitalize s.

(** [str(n)] for a non-negative integer *)
Definition str_of_nat (n : nat) : string :=
  NilEmpty.string_of_uint (Nat.to_uint n).

(** [s.split(sep)] for a one-character separator: never the empty list *)
Fixpoint split (sep : ascii) (s : string) : list string :=
  match s with
  | EmptyString => [EmptyString]
  | String c r =>
      if Ascii.eqb c sep then EmptyString :: split sep r
      else match split sep r with
           | h :: t => String c h :: t
           | [] => [String c EmptyString]
           end
  end.

(** Truth value of an optional string: [None] and [""] are falsy. *)
Definition truthy (s : option string) : bool :=
  match s with
  | Some (String _ _) => true
  | _ => false
  end.

(** [a or b] on strings, [a] possibly [None] *)
Definition str_or (a : option string) (b : string) : string :=
  match a with
  | Some (String c r) => String c r
  | _ => b
  end.

(** [x in [200, 204]] *)
Definition in_200_204 (status : Z) : bool :=
  (status =? 200)%Z || (status =? 204)%Z.

End Py.

(* ------------------------------------------------------------------ *)
(** ** Exceptions and outcomes *)

(** Every constructor stands for a subclass of Python's [Exception]. *)
Inductive exn : Type :=
| HTTPException (status_code : Z) (detail : string)
| JWTError
| KeycloakError (msg : string)
| RequestException (msg : string)
| IntegrityError
| MultipleResultsFound
| ValueError (msg : string)
| PyException (msg : string).

Inductive outcome (A : Type) : Type :=
| Return (a : A)
| Raise (e : exn).

Arguments Return {A} a.
Arguments Raise {A} e.

Definition HTTP_400_BAD_REQUEST : Z := 400.
Definition HTTP_401_UNAUTHORIZED : Z := 401.
Definition HTTP_500_INTERNAL_SERVER_ERROR : Z := 500.

(** [str(e)], used where the code formats an exception into a message *)
Definition str_of_exn (e : exn) : string :=
  match e with
  | HTTPException _ d => d
  | JWTError => "JWTError"
  | KeycloakError m => m
  | RequestException m => m
  | IntegrityError => "IntegrityError"
  | MultipleResultsFound => "Multiple rows were found when one or none was required"
  | ValueError m => m
  | PyException m => m
  end.

Definition obind {A B : Type} (o : outcome A) (k : A -> outcome B) : outcome B :=
  match o with
  | Return a => k a
  | Raise e => Raise e
  end.

(* ------------------------------------------------------------------ *)
(** ** The users table (entities/user.py) *)

Module User.

Record t : Type := mk {
  id : Z;
  username : string;
  email : string;
  password : string;
  keycloak_user_id : option string;
  last_synced_at : option Z;
  profile_picture_url : option string
}.

Definition with_id (i : Z) (u : t) : t :=
  mk i (username u) (email u) (password u) (keycloak_user_id u)
     (last_synced_at u) (profile_picture_url u).

Definition with_username (s : string) (u : t) : t :=
  mk (id u) s (email u) (password u) (keycloak_user_id u)
     (last_synced_at u) (profile_picture_url u).

Definition with_email (s : string) (u : t) : t :=
  mk (id u) (username u) s (password u) (keycloak_user_id u)
     (last_synced_at u) (profile_picture_url u).

Definition with_keycloak_user_id (k : option string) (u : t) : t :=
  mk (id u) (username u) (email u) (password u) k
     (last_synced_at u) (profile_picture_url u).

Definition with_last_synced_at (ts : option Z) (u : t) : t :=
  mk (id u) (username u) (email u) (password u) (keycloak_user_id u)
     ts (profile_picture_url u).

End User.

(** The state a request handler works on: the committed rows of [users]
    in insertion order, and how many times the clock has been read. *)
Record World : Type := mkWorld {
  rows : list User.t;
  ticks : nat
}.

Definition M (A : Type) : Type := World -> outcome A * World.

Definition ret {A : Type} (a : A) : M A := fun w => (Return a, w).

Definition raise {A : Type} (e : exn) : M A := fun w => (Raise e, w).

Definition bind {A B : Type} (m : M A) (k : A -> M B) : M B :=
  fun w =>
    match m w with
    | (Return a, w') => k a w'
    | (Raise e, w') => (Raise e, w')
    end.

(** [try: m  except Exception as e: h e] *)
Definition try_except {A : Type} (m : M A) (h : exn -> M A) : M A :=
  fun w =>
    match m w with
    | (Return a, w') => (Return a, w')
    | (Raise e, w') => h e w'
    end.

(** A call that does not touch the table or the clock. *)
Definition lift {A : Type} (o : outcome A) : M A := fun w => (o, w).

Notation "x <- m ;; k" := (bind m (fun x => k))
  (at level 61, m at next level, right associativity).

Module Db.

(** Unique indexes of the table: [username], [email], and
    [keycloak_user_id] (NULLs never collide). *)
Definition same_keycloak_id (a b : option string) : bool :=
  match a, b with
  | Some x, Some y => String.eqb x y
  | _, _ => false
  end.

Definition conflicts (u r : User.t) : bool :=
  String.eqb (User.username u) (User.username r)
  || String.eqb (User.email u) (User.email r)
  || same_keycloak_id (User.keycloak_user_id u) (User.keycloak_user_id r).

(** The auto-assigned primary key: larger than every key in the table. *)
Definition fresh_id (l : list User.t) : Z :=
  1 + fold_right (fun r acc => Z.max (User.id r) acc) 0 l.

(** [db.execute(select(User).where(p))] *)
Definition select_where (p : User.t -> bool) : M (list User.t) :=
  fun w => (Return (filter p (rows w)), w).

(** [result.scalar_one_or_none()] *)
Definition scalar_one_or_none (l : list User.t) : M (option User.t) :=
  match l with
  | [] => ret None
  | [u] => ret (Some u)
  | _ :: _ :: _ => raise MultipleResultsFound
  end.

(** [db.add(u); await db.commit(); await db.refresh(u)]: the INSERT is
    refused by a unique index or the row is appended under a fresh key;
    the refreshed object is the stored row. *)
Definition add_commit_refresh (u : User.t) : M User.t :=
  fun w =>
    if existsb (conflicts u) (rows w) then (Raise IntegrityError, w)
    else
      let u' := User.with_id (fresh_id (rows w)) u in
      (Return u', mkWorld (rows w ++ [u'])%list (ticks w)).

(** [await db.commit(); await db.refresh(u)] with the loaded object [u]
    modified: the UPDATE of the row with [u]'s key is refused when another
    row holds one of its unique values (the transaction is rolled back and
    the table is unchanged), otherwise the row is replaced. *)
Definition commit_refresh (u : User.t) : M User.t :=
  fun w =>
    if existsb (fun r => negb (User.id r =? User.id u)%Z && conflicts u r) (rows w)
    then (Raise IntegrityError, w)
    else
      (Return u,
       mkWorld (map (fun r => if (User.id r =? User.id u)%Z then u else r) (rows w))
               (ticks w)).

End Db.

(* ------------------------------------------------------------------ *)
(** ** The outside world *)

Module Kc.

(** The userinfo document of the OIDC endpoint. *)
Record UserInfo : Type := mkUserInfo {
  sub : option string;
  preferred_username : option string;
  email : option string
}.

(** The answer of the password grant. *)
Record TokenResponse : Type := mkTokenResponse {
  access_token : string;
  refresh_token : option string;
  expires_in : option Z
}.

(** A user of the admin REST API, with the fields the client touches;
    [attributes = None] stands for an absent or null member. *)
Record UserRepresentation : Type := mkUserRepresentation {
  id : string;
  username : string;
  email_address : string;
  firstName : option string;
  lastName : option string;
  enabled : bool;
  emailVerified : bool;
  attributes : option (list (string * list string));
  requiredActions : list string;
  other_members : list (string * string)
}.

(** JSON bodies sent to and received from the admin REST API. *)
Inductive Json : Type :=
| JNewUser (username email_address firstName lastName : string)
           (enabled emailVerified : bool)
           (attributes : list (string * list string))
| JCredential (type value : string) (temporary : bool)
| JUser (u : UserRepresentation)
| JUsers (l : list UserRepresentation).

(** What the code, and [raise_for_status], read of a
    [requests.Response]. *)
Record Response : Type := mkResponse {
  status_code : Z;
  header_location : option string;
  text : string;
  json : outcome Json;
  reason : string;
  url : string
}.

(** [response.raise_for_status()]: the [HTTPError] of requests, with the
    message the library builds from status, reason and URL. *)
Definition raise_for_status (r : Response) : outcome unit :=
  if (400 <=? status_code r)%Z && (status_code r <? 500)%Z then
    Raise (RequestException
             (Py.str_of_nat (Z.to_nat (status_code r)) ++ " Client Error: "
              ++ reason r ++ " for url: " ++ url r))
  else if (500 <=? status_code r)%Z && (status_code r <? 600)%Z then
    Raise (RequestException
             (Py.str_of_nat (Z.to_nat (status_code r)) ++ " Server Error: "
              ++ reason r ++ " for url: " ++ url r))
  else Return tt.

(** The dictionary built by [verify_keycloak_token]. *)
Record TokenInfo : Type := mkTokenInfo {
  ti_keycloak_user_id : option string;
  ti_preferred_username : option string;
  ti_email : option string;
  ti_active : bool
}.

(** The dictionary built by [authenticate_with_keycloak]. *)
Record TokenData : Type := mkTokenData {
  td_access_token : string;
  td_token_type : string;
  td_refresh_token : option string;
  td_expires_in : option Z
}.

End Kc.

(** The payload of a legacy token. *)
Record JwtPayload : Type := mkJwtPayload {
  jwt_sub : option string;
  jwt_id : option Z
}.

(** Configuration and oracles.  [utcnow n] is the [n]-th reading of the
    clock during the request; the [openid_*] fields are the calls of the
    realm's [KeycloakOpenID] client, [master_token] the admin login in the
    master realm (already projected on ["access_token"]), the [requests_*]
    fields the HTTP verbs, receiving the URL, the bearer token of the
    [Authorization] header and the body or query. *)
Record Env : Type := mkEnv {
  USE_KEYCLOAK : bool;
  KEYCLOAK_URL : string;
  KEYCLOAK_REALM : string;
  KEYCLOAK_ADMIN : string;
  KEYCLOAK_ADMIN_PASSWORD : string;
  utcnow : nat -> Z;
  openid_token : string -> string -> outcome Kc.TokenResponse;
  openid_userinfo : string -> outcome Kc.UserInfo;
  openid_introspect : string -> outcome bool;
  master_token : string -> string -> outcome (option string);
  requests_post : string -> option string -> Kc.Json -> outcome Kc.Response;
  requests_get : string -> option string -> option string -> outcome Kc.Response;
  requests_put : string -> option string -> Kc.Json -> outcome Kc.Response;
  jwt_encode : string -> Z -> Z -> string;
  jwt_decode : string -> outcome JwtPayload;
  bcrypt_kdf : string -> string -> string -> string -> outcome string;
  bcrypt_gensalt : string;
  unicode_lower : string -> string;
  unicode_capitalize : string -> string
}.

(** [datetime.utcnow()] *)
Definition datetime_utcnow (env : Env) : M Z :=
  fun w => (Return (utcnow env (ticks w)), mkWorld (rows w) (S (ticks w))).

(* ------------------------------------------------------------------ *)
(** ** auth/keycloak_client.py *)

Module KeycloakClient.

Import Kc.

Definition authenticate_with_keycloak (env : Env) (username password : string)
  : outcome TokenData :=
  obind (openid_token env username password) (fun token =>
  Return (mkTokenData (access_token token) "bearer"
                      (refresh_token token) (expires_in token))).

Definition verify_keycloak_token (env : Env) (token : string) : outcome TokenInfo :=
  obind (openid_userinfo env token) (fun userinfo =>
  obind (openid_introspect env token) (fun active =>
  Return (mkTokenInfo (sub userinfo) (preferred_username userinfo)
                      (email userinfo) active))).

Definition users_url (env : Env) : string :=
  KEYCLOAK_URL env ++ "/admin/realms/" ++ KEYCLOAK_REALM env ++ "/users".

(** Phase 1: create the user without a password and find its id. *)
Definition create_and_locate (env : Env) (admin_token : option string)
    (username email_address : string) (first_name last_name : option string)
    (date_of_birth phone_number : option string) : outcome string :=
  let default_first_name :=
    Py.str_or first_name (Py.capitalize (unicode_capitalize env) username) in
  let default_last_name := Py.str_or last_name "User" in
  let attributes :=
    ((if Py.truthy date_of_birth
      then [("dateOfBirth", [Py.str_or date_of_birth ""])] else [])
     ++ (if Py.truthy phone_number
         then [("phoneNumber", [Py.str_or phone_number ""])] else []))%list in
  let user_data_no_password :=
    JNewUser username email_address default_first_name default_last_name
             true false attributes in
  obind (requests_post env (users_url env) admin_token user_data_no_password)
    (fun response =>
  obind (raise_for_status response) (fun _ =>
  let location := header_location response in
  if Py.truthy location then
    Return (last (Py.split "/" (Py.str_or location "")) "")
  else
    obind (requests_get env (users_url env) admin_token (Some username))
      (fun search_response =>
    obind (raise_for_status search_response) (fun _ =>
    obind (json search_response) (fun users =>
    match users with
    | JUsers (u :: _) => Return (id u)
    | JUsers [] => Raise (PyException "User created but ID not found")
    | _ => Raise (PyException "KeyError: 0")
    end))))).

(** Phase 2: set the password through the reset-password endpoint. *)
Definition set_password (env : Env) (admin_token : option string)
    (username user_id password : string) : outcome unit :=
  let password_url := users_url env ++ "/" ++ user_id ++ "/reset-password" in
  let password_data := JCredential "password" password false in
  obind (requests_put env password_url admin_token password_data)
    (fun password_response =>
  if negb (Py.in_200_204 (status_code password_response)) then
    Raise (PyException
             ("Failed to set password for user " ++ username ++ ": "
              ++ Py.str_of_nat (Z.to_nat (status_code password_response))
              ++ " - " ++ text password_response))
  else Return tt).

(** The record that phase 3 sends back. *)
Definition merged_update (env : Env) (username : string)
    (user_data_current : UserRepresentation) : UserRepresentation :=
  mkUserRepresentation
    (id user_data_current)
    (Kc.username user_data_current)
    (email_address user_data_current)
    (if Py.truthy (firstName user_data_current)
     then firstName user_data_current
     else Some (Py.capitalize (unicode_capitalize env) username))
    (if Py.truthy (lastName user_data_current)
     then lastName user_data_current else Some "User")
    true
    (emailVerified user_data_current)
    (match attributes user_data_current with
     | Some a => Some a
     | None => Some []
     end)
    []
    (other_members user_data_current).

(** Phase 3: read the record back and PUT it with [enabled] set and
    [requiredActions] emptied.  A status other than 200 on the GET, or
    other than 200/204 on the PUT, is logged and nothing else. *)
Definition finalize (env : Env) (admin_token : option string)
    (username user_id : string) : outcome unit :=
  let get_user_url := users_url env ++ "/" ++ user_id in
  obind (requests_get env get_user_url admin_token None) (fun get_user_response =>
  if (status_code get_user_response =? 200)%Z then
    obind (json get_user_response) (fun user_data_current =>
    match user_data_current with
    | JUser current =>
        let update_data := merged_update env username current in
        obind (requests_put env get_user_url admin_token (JUser update_data))
          (fun update_response =>
        if negb (Py.in_200_204 (status_code update_response))
        then Return tt   (* logging.warning *)
        else Return tt)  (* logging.info *)
    | _ => Raise (PyException "AttributeError")
    end)
  else Return tt).       (* logging.warning *)

(** [create_user_in_keycloak]; the outer [try ... except Exception: raise]
    logs and re-raises, and [time.sleep(1)] has no effect on the result. *)
Definition create_user_in_keycloak (env : Env)
    (username email_address password : string)
    (first_name last_name date_of_birth phone_number : option string)
  : outcome string :=
  obind (master_token env (KEYCLOAK_ADMIN env) (KEYCLOAK_ADMIN_PASSWORD env))
    (fun admin_token =>
  obind (create_and_locate env admin_token username email_address
           first_name last_name date_of_birth phone_number) (fun user_id =>
  obind (set_password env admin_token username user_id password) (fun _ =>
  obind (finalize env admin_token username user_id) (fun _ =>
  Return user_id)))).

End KeycloakClient.

(* ------------------------------------------------------------------ *)
(** ** The bcrypt binding

    [bcrypt] is a third-party package.  Its [hashpw] takes the encoded
    hash apart at the ['$'] signs, drops the empty pieces and refuses with
    [ValueError("Invalid salt")] unless exactly three pieces (version,
    cost, salt and digest) remain; [checkpw] hashes the password with the
    stored hash as salt and compares.  The key derivation, with whatever
    further validation it does, is the oracle [bcrypt_kdf]. *)

Module Bcrypt.

Definition fields (encoded : string) : list string :=
  filter (fun s => negb (String.eqb s "")) (Py.split "$" encoded).

Definition hashpw (env : Env) (password salt : string) : outcome string :=
  match fields salt with
  | [version; cost; body] => bcrypt_kdf env version cost body password
  | _ => Raise (ValueError "Invalid salt")
  end.

Definition checkpw (env : Env) (password hashed_password : string) : outcome bool :=
  obind (hashpw env password hashed_password) (fun ret_hash =>
  Return (String.eqb ret_hash hashed_password)).

End Bcrypt.

(* ------------------------------------------------------------------ *)
(** ** auth/service.py *)

Module Service.

Definition ACCESS_TOKEN_EXPIRE_MINUTES : Z := 30.

(** One day, the staleness threshold written in [get_current_user]. *)
Definition SYNC_SECONDS : Z := 86400.

(** [timedelta(minutes=m)] and [delta.total_seconds() > s] on microseconds *)
Definition minutes (m : Z) : Z := m * 60 * 1000000.

Definition total_seconds_gt (delta s : Z) : bool := (s * 1000000 <? delta)%Z.

Definition create_access_token (env : Env) (username : string) (user_id : Z)
    (expires_delta : Z) : M string :=
  now <- datetime_utcnow env ;;
  ret (jwt_encode env username user_id (now + expires_delta)).

Definition verify_password (env : Env) (plain_password hashed_password : string)
  : outcome bool :=
  Bcrypt.checkpw env plain_password hashed_password.

Definition get_password_hash (env : Env) (password : string) : outcome string :=
  Bcrypt.hashpw env password (bcrypt_gensalt env).

Definition by_username (username : string) (r : User.t) : bool :=
  String.eqb (User.username r) username.

Definition by_email (email : string) (r : User.t) : bool :=
  String.eqb (User.email r) email.

Definition by_keycloak_user_id (keycloak_user_id : string) (r : User.t) : bool :=
  Db.same_keycloak_id (User.keycloak_user_id r) (Some keycloak_user_id).

Definition by_id (user_id : Z) (r : User.t) : bool :=
  (User.id r =? user_id)%Z.

Definition authenticate_user (env : Env) (username password : string)
  : M (option User.t) :=
  result <- Db.select_where (by_username username) ;;
  user <- Db.scalar_one_or_none result ;;
  match user with
  | None => ret None
  | Some u =>
      ok <- lift (verify_password env password (User.password u)) ;;
      if negb ok then ret None else ret (Some u)
  end.

Definition could_not_validate : exn :=
  HTTPException HTTP_401_UNAUTHORIZED "Could not validate user.".

(** [user.email != email], the claim possibly [None] *)
Definition email_differs (u : User.t) (email : option string) : bool :=
  match email with
  | Some e => negb (String.eqb (User.email u) e)
  | None => true
  end.

(** The [should_sync] expression; the clock is read only past the first
    disjunct. *)
Definition should_sync (env : Env) (user : User.t) (username : string)
    (email : option string) : M bool :=
  match User.last_synced_at user with
  | None => ret true
  | Some last =>
      now <- datetime_utcnow env ;;
      ret (total_seconds_gt (now - last) SYNC_SECONDS
           || negb (String.eqb (User.username user) username)
           || email_differs user email)
  end.

(** [if not user.keycloak_user_id: user.keycloak_user_id = keycloak_user_id] *)
Definition upgrade_missing_id (keycloak_user_id : string) (user : User.t) : User.t :=
  if negb (Py.truthy (User.keycloak_user_id user))
  then User.with_keycloak_user_id (Some keycloak_user_id) user
  else user.

(** The three assignments of the sync: [username], [email or user.email],
    [last_synced_at]. *)
Definition synced_row (username : string) (email : option string) (now : Z)
    (user : User.t) : User.t :=
  let user := User.with_username username user in
  let user := User.with_email (Py.str_or email (User.email user)) user in
  User.with_last_synced_at (Some now) user.

(** The row exists: upgrade a missing Keycloak id, then sync when stale.
    Only the sync commits: when the row is not stale an upgraded id lives
    on the returned object and the table keeps the old value. *)
Definition sync_existing (env : Env) (user : User.t)
    (keycloak_user_id username : string) (email : option string) : M User.t :=
  let user := upgrade_missing_id keycloak_user_id user in
  stale <- should_sync env user username email ;;
  if stale then
    now <- datetime_utcnow env ;;
    Db.commit_refresh (synced_row username email now user)
  else ret user.

(** No row: first login from Keycloak. *)
Definition create_from_keycloak (env : Env) (keycloak_user_id username : string)
    (email : option string) : M User.t :=
  now <- datetime_utcnow env ;;
  Db.add_commit_refresh
    (User.mk 0 username (Py.str_or email (username ++ "@keycloak.local")) ""
             (Some keycloak_user_id) (Some now) None).

(** The two lookups: by [keycloak_user_id] first, then by [username]. *)
Definition find_candidate (keycloak_user_id username : string) : M (option User.t) :=
  result <- Db.select_where (by_keycloak_user_id keycloak_user_id) ;;
  user <- Db.scalar_one_or_none result ;;
  match user with
  | Some u => ret (Some u)
  | None =>
      result <- Db.select_where (by_username username) ;;
      Db.scalar_one_or_none result
  end.

(** The [USE_KEYCLOAK] branch of [get_current_user], inside the [try]. *)
Definition resolve_keycloak (env : Env) (token : string) : M User.t :=
  token_info <- lift (KeycloakClient.verify_keycloak_token env token) ;;
  if negb (Kc.ti_active token_info) then
    raise (HTTPException HTTP_401_UNAUTHORIZED "Token is not active.")
  else
    let email := Kc.ti_email token_info in
    if negb (Py.truthy (Kc.ti_preferred_username token_info))
       || negb (Py.truthy (Kc.ti_keycloak_user_id token_info))
    then raise could_not_validate
    else
      let username := Py.str_or (Kc.ti_preferred_username token_info) "" in
      let keycloak_user_id := Py.str_or (Kc.ti_keycloak_user_id token_info) "" in
      user <- find_candidate keycloak_user_id username ;;
      match user with
      | None => create_from_keycloak env keycloak_user_id username email
      | Some u => sync_existing env u keycloak_user_id username email
      end.

(** The legacy branch of [get_current_user], inside the [try]. *)
Definition resolve_legacy (env : Env) (token : string) : M User.t :=
  payload <- lift (jwt_decode env token) ;;
  match jwt_sub payload, jwt_id payload with
  | Some _, Some user_id =>
      result <- Db.select_where (by_id user_id) ;;
      user <- Db.scalar_one_or_none result ;;
      match user with
      | None => raise (HTTPException HTTP_401_UNAUTHORIZED "User not found.")
      | Some u => ret u
      end
  | _, _ => raise could_not_validate
  end.

(** [get_current_user]: [except (JWTError, Exception)] catches whatever
    the body raises, the HTTP errors raised inside it included. *)
Definition get_current_user (env : Env) (token : string) : M User.t :=
  try_except
    (if USE_KEYCLOAK env then resolve_keycloak env token
     else resolve_legacy env token)
    (fun _ => raise could_not_validate).

Definition get_current_user_optional (env : Env) (token : option string)
  : M (option User.t) :=
  if negb (Py.truthy token) then ret None
  else
    try_except
      (u <- get_current_user env (Py.str_or token "") ;; ret (Some u))
      (fun e => match e with
                | HTTPException _ _ => ret None
                | _ => raise e
                end).

End Service.

(* ------------------------------------------------------------------ *)
(** ** auth/controller.py *)

Module Controller.

(** [models.RegisterUserRequest]; the optional date of birth is carried
    in the ISO form that [isoformat()] produces. *)
Record RegisterUserRequest : Type := mkRegisterUserRequest {
  email : string;
  password : string;
  first_name : string;
  last_name : string;
  date_of_birth : option string;
  phone_number : option string
}.

(** The body of the 201 answer. *)
Record RegisterResponse : Type := mkRegisterResponse {
  message : string;
  user_id : Z;
  keycloak_user_id : option string
}.

(** [models.Token] *)
Record Token : Type := mkToken {
  access_token : string;
  token_type : string
}.

Definition base_username (env : Env) (first_name last_name : string) : string :=
  Py.replace " " "." (Py.lower (unicode_lower env) first_name) ++ "."
  ++ Py.replace " " "." (Py.lower (unicode_lower env) last_name).

(** The [k]-th name tried by the probe: [base], [base1], [base2], ... *)
Definition candidate (base : string) (k : nat) : string :=
  match k with
  | O => base
  | S _ => base ++ Py.str_of_nat k
  end.

(** The [while True] loop of [register], entered with the current
    [username] and [counter]; [None] when [fuel] iterations did not reach
    the [break]. *)
Fixpoint probe (fuel : nat) (base username : string) (counter : nat)
  : M (option string) :=
  match fuel with
  | O => ret None
  | S fuel' =>
      result <- Db.select_where (Service.by_username username) ;;
      existing_user <- Db.scalar_one_or_none result ;;
      match existing_user with
      | None => ret (Some username)
      | Some _ => probe fuel' base (base ++ Py.str_of_nat counter) (S counter)
      end
  end.

(** The loop run to completion: one more iteration than there are rows
    always reaches the [break] (lemma [probe_enough_fuel] below), so the
    third case never applies. *)
Definition generate_username (base : string) : M string :=
  fun w =>
    match probe (S (length (rows w))) base base 1 w with
    | (Return (Some username), w') => (Return username, w')
    | (Raise e, w') => (Raise e, w')
    | (Return None, w') => (Return base, w')
    end.

(** [register] past the loop, with the [username] the loop chose. *)
Definition register_with (env : Env) (req : RegisterUserRequest) (username : string)
    : M RegisterResponse :=
  result <- Db.select_where (Service.by_email (email req)) ;;
  existing_email <- Db.scalar_one_or_none result ;;
  match existing_email with
  | Some _ => raise (HTTPException HTTP_400_BAD_REQUEST "Email already exists")
  | None =>
      if USE_KEYCLOAK env then
        try_except
          (kc_id <- lift (KeycloakClient.create_user_in_keycloak env username
                            (email req) (password req)
                            (Some (first_name req)) (Some (last_name req))
                            (date_of_birth req) (phone_number req)) ;;
           now <- datetime_utcnow env ;;
           created <- Db.add_commit_refresh
                        (User.mk 0 username (email req) "" (Some kc_id)
                                 (Some now) None) ;;
           ret (mkRegisterResponse "User created successfully in Keycloak"
                                   (User.id created) (Some kc_id)))
          (fun e => raise (HTTPException HTTP_500_INTERNAL_SERVER_ERROR
                             ("Failed to create user: " ++ str_of_exn e)))
      else
        hashed_password <- lift (Service.get_password_hash env (password req)) ;;
        created <- Db.add_commit_refresh
                     (User.mk 0 username (email req) hashed_password None None None) ;;
        ret (mkRegisterResponse "User created successfully" (User.id created) None)
  end.

Definition register (env : Env) (req : RegisterUserRequest) : M RegisterResponse :=
  username <- generate_username
                (base_username env (first_name req) (last_name req)) ;;
  register_with env req username.

Definition login_for_access_token (env : Env) (username password : string) : M Token :=
  if USE_KEYCLOAK env then
    try_except
      (token_data <- lift (KeycloakClient.authenticate_with_keycloak env username password) ;;
       ret (mkToken (Kc.td_access_token token_data) (Kc.td_token_type token_data)))
      (fun _ => raise (HTTPException HTTP_401_UNAUTHORIZED
                         "Incorrect username or password"))
  else
    user <- Service.authenticate_user env username password ;;
    match user with
    | None => raise (HTTPException HTTP_401_UNAUTHORIZED
                       "Incorrect username or password")
    | Some u =>
        token <- Service.create_access_token env (User.username u) (User.id u)
                   (Service.minutes 30) ;;
        ret (mkToken token "bearer")
    end.

End Controller.

(* ------------------------------------------------------------------ *)
(** ** Requests and their effect on the table *)

(** The core operations a client can trigger. *)
Inductive request : Type :=
| Register (req : Controller.RegisterUserRequest)
| Login (username password : string)
| ResolveBearer (token : string).

(** One request: the handler starts with a fresh clock count and leaves
    the committed rows behind, whether it returned or raised. *)
Definition handle (env : Env) (r : request) (table : list User.t) : list User.t :=
  let w := mkWorld table 0 in
  match r with
  | Register req => rows (snd (Controller.register env req w))
  | Login username password =>
      rows (snd (Controller.login_for_access_token env username password w))
  | ResolveBearer token => rows (snd (Service.get_current_user env token w))
  end.

(** A sequence of requests, each under the environment it meets. *)
Fixpoint handle_all (rs : list (Env * request)) (table : list User.t) : list User.t :=
  match rs with
  | [] => table
  | (env, r) :: rest => handle_all rest (handle env r table)
  end.

(** A value is set when Python counts it as true: not [None], not [""]. *)
Definition is_set (k : option string) : Prop := Py.truthy k = true.


(* ------------------------------------------------------------------ *)
(** ** Concrete environments and tables for the scenarios *)

Module Scenario.

(** A clock that starts at [t0] and advances one microsecond per reading. *)
Definition clock (t0 : Z) : nat -> Z := fun n => t0 + Z.of_nat n.

Definition day_us : Z := 86400 * 1000000.

(** A Keycloak admin API that accepts everything: the POST answers 201
    with a [Location], the password PUT 204, the GET 200 with the stored
    record, and the final PUT answers [put_status]. *)
Definition stored_user (username : string) : Kc.UserRepresentation :=
  Kc.mkUserRepresentation "8d2f" username "ada@x.io" None None true false None
                          ["UPDATE_PASSWORD"] [].

Definition admin_put (password_status put_status : Z) (url : string)
    (tok : option string) (body : Kc.Json) : outcome Kc.Response :=
  match body with
  | Kc.JCredential _ _ _ =>
      Return (Kc.mkResponse password_status None "password refused"
                            (Raise (PyException "no body")) "" url)
  | _ => Return (Kc.mkResponse put_status None "update refused"
                               (Raise (PyException "no body")) "" url)
  end.

(** An environment in Keycloak mode: [userinfo] and [active] answer the
    OIDC calls, [password_status] and [put_status] are the statuses of the
    password PUT and of the finalizing PUT. *)
Definition keycloak_env_with (userinfo : string -> outcome Kc.UserInfo)
    (active : bool) (password_status put_status : Z) (t0 : Z) : Env :=
  mkEnv true "http://localhost:8080" "linksy" "admin" "admin"
        (clock t0)
        (fun _ _ => Return (Kc.mkTokenResponse "tok" None None))
        userinfo
        (fun _ => Return active)
        (fun _ _ => Return (Some "admin-token"))
        (fun url _ _ => Return (Kc.mkResponse 201
                                  (Some (url ++ "/8d2f")) ""
                                  (Raise (PyException "no body"))
                                  "Created" url))
        (fun url _ q => Return (Kc.mkResponse 200 None ""
                                  (Return (Kc.JUser (stored_user "ada.lovelace")))
                                  "OK" url))
        (admin_put password_status put_status)
        (fun _ _ _ => "jwt")
        (fun _ => Raise JWTError)
        (fun _ _ _ _ => Return "digest")
        "$2b$12$saltsaltsaltsaltsaltsa"
        (fun s => s) (fun s => s).

(** The password PUT answers 204. *)
Definition keycloak_env (userinfo : string -> outcome Kc.UserInfo) (active : bool)
    (put_status : Z) (t0 : Z) : Env :=
  keycloak_env_with userinfo active 204 put_status t0.

(** The same services in legacy mode. *)
Definition legacy_env (t0 : Z) : Env :=
  mkEnv false "http://localhost:8080" "linksy" "admin" "admin"
        (clock t0)
        (fun _ _ => Raise (KeycloakError "unreachable"))
        (fun _ => Raise (KeycloakError "unreachable"))
        (fun _ => Raise (KeycloakError "unreachable"))
        (fun _ _ => Raise (KeycloakError "unreachable"))
        (fun _ _ _ => Raise (RequestException "unreachable"))
        (fun _ _ _ => Raise (RequestException "unreachable"))
        (fun _ _ _ => Raise (RequestException "unreachable"))
        (fun _ _ _ => "jwt")
        (fun _ => Raise JWTError)
        (fun _ _ _ _ => Return "digest")
        "$2b$12$saltsaltsaltsaltsaltsa"
        (fun s => s) (fun s => s).

(** Every token carries the same claims. *)
Definition claims (sub username : string) (email : option string)
  : string -> outcome Kc.UserInfo :=
  fun _ => Return (Kc.mkUserInfo (Some sub) (Some username) email).

Definition grace : User.t :=
  User.mk 1 "grace" "grace@x.io" "" (Some "abc") (Some 1000) None.

Definition hopper : User.t :=
  User.mk 2 "grace.h" "hopper@x.io" "" (Some "def") (Some 1000) None.

(** A row whose Keycloak id column holds the empty string. *)
Definition blank : User.t :=
  User.mk 1 "grace" "grace@x.io" "" (Some "") (Some 1000) None.

(** A row without a local credential. *)
Definition federated_only : User.t :=
  User.mk 1 "ada.lovelace" "ada@x.io" "" None None None.

Definition john (email password : string) : Controller.RegisterUserRequest :=
  Controller.mkRegisterUserRequest email password "John" "Doe" None None.

End Scenario.

(* ------------------------------------------------------------------ *)
(** ** The specification's wording, for comparison with the code *)

Module Spec.

(** The staleness policy as the specification words it: the email
    disjunct counts only when the claim is non-empty. *)
Definition should_sync (now : Z) (user : User.t) (username : string)
    (email : option string) : bool :=
  match User.last_synced_at user with
  | None => true
  | Some last =>
      Service.total_seconds_gt (now - last) Service.SYNC_SECONDS
      || negb (String.eqb (User.username user) username)
      || (Py.truthy email && Service.email_differs user email)
  end.

(** The placeholder address as the specification words it. *)
Definition placeholder_email (username : string) : string :=
  username ++ "@federated.local".


(** "[first_name + "." + last_name], lowercased, spaces replaced by
    dots", character by character on ASCII text: a space becomes a dot,
    a letter A-Z its small letter, every other character stays. *)
Definition username_char (c : ascii) : ascii :=
  if Ascii.eqb c " " then "."%char
  else if (65 <=? nat_of_ascii c)%nat && (nat_of_ascii c <=? 90)%nat
       then ascii_of_nat (nat_of_ascii c + 32)
       else c.

Fixpoint slug (s : string) : string :=
  match s with
  | EmptyString => EmptyString
  | String c r => String (username_char c) (slug r)
  end.

Definition base_username (first_name last_name : string) : string :=
  slug (first_name ++ "." ++ last_name).

End Spec.

(* ------------------------------------------------------------------ *)
(** ** Table invariants and relations between tables *)

Definition usernames (table : list User.t) : list string :=
  map User.username table.

(** The primary key is unique. *)
Definition keyed (table : list User.t) : Prop := NoDup (map User.id table).

(** [r'] is the row [r] later on: same key, and a Keycloak id that was
    set is still the same. *)
Definition row_kept (r r' : User.t) : Prop :=
  User.id r' = User.id r
  /\ (is_set (User.keycloak_user_id r) ->
      User.keycloak_user_id r' = User.keycloak_user_id r).

(** Every row of [table] is still there in [table'], at its place and kept. *)
Definition table_kept (table table' : list User.t) : Prop :=
  forall k r, nth_error table k = Some r ->
    exists r', nth_error table' k = Some r' /\ row_kept r r'.

(** The UPDATE of [Db.commit_refresh], as a function on tables. *)
Definition replace_row (u : User.t) (table : list User.t) : list User.t :=
  map (fun r => if (User.id r =? User.id u)%Z then u else r) table.

(** The unique index on [username] holds. *)
Definition unique_usernames (table : list User.t) : Prop :=
  NoDup (usernames table).

(** What one commit can do to the table: nothing, an INSERT that passed
    the unique indexes, or an UPDATE that passed them. *)
Definition db_step (table table' : list User.t) : Prop :=
  table' = table
  \/ (exists u,
        existsb (Db.conflicts u) table = false
        /\ table' = (table ++ [User.with_id (Db.fresh_id table) u])%list)
  \/ (exists u,
        existsb (fun r => negb (User.id r =? User.id u)%Z && Db.conflicts u r)
                table = false
        /\ table' = replace_row u table).

(** A computation that leaves the table alone, and one that commits at
    most once. *)
Definition quiet {A : Type} (m : M A) : Prop :=
  forall w o w', m w = (o, w') -> rows w' = rows w.

Definition stepping {A : Type} (m : M A) : Prop :=
  forall w o w', m w = (o, w') -> db_step (rows w) (rows w').

(* ------------------------------------------------------------------ *)
(** ** exceptions.py *)

Module Exceptions.

(** [str(n)] for an integer *)
Definition str_of_int (z : Z) : string :=
  if (z <? 0)%Z then "-" ++ Py.str_of_nat (Z.to_nat (- z))
  else Py.str_of_nat (Z.to_nat z).

Definition UserNotFoundError (user_id : option Z) : exn :=
  HTTPException 404
    (match user_id with
     | None => "User not found"
     | Some i => "User with id " ++ str_of_int i ++ " not found"
     end).

Definition InvalidPasswordError : exn :=
  HTTPException HTTP_401_UNAUTHORIZED "Current password is incorrect".

Definition PasswordMismatchError : exn :=
  HTTPException HTTP_400_BAD_REQUEST "New passwords do not match".

Definition PostNotFoundError (post_id : option Z) : exn :=
  HTTPException 404
    (match post_id with
     | None => "Post not found"
     | Some i => "Post with id " ++ str_of_int i ++ " not found"
     end).

Definition CommentNotFoundError (comment_id : option Z) : exn :=
  HTTPException 404
    (match comment_id with
     | None => "Comment not found"
     | Some i => "Comment with id " ++ str_of_int i ++ " not found"
     end).

Definition ForbiddenException (detail : string) : exn :=
  HTTPException 403 detail.

End Exceptions.

(* ------------------------------------------------------------------ *)
(** ** users/service.py and the profile-picture deletion of
       users/controller.py

    The object store is an oracle: [storage_delete name] is the call
    [delete_profile_picture(name)] of storage/minio_client.py. *)

Module UsersService.

Definition with_password (p : string) (u : User.t) : User.t :=
  User.mk (User.id u) (User.username u) (User.email u) p
          (User.keycloak_user_id u) (User.last_synced_at u)
          (User.profile_picture_url u).

Definition with_profile_picture_url (p : option string) (u : User.t) : User.t :=
  User.mk (User.id u) (User.username u) (User.email u) (User.password u)
          (User.keycloak_user_id u) (User.last_synced_at u) p.

Definition get_user_by_id (user_id : Z) : M User.t :=
  result <- Db.select_where (Service.by_id user_id) ;;
  user <- Db.scalar_one_or_none result ;;
  match user with
  | None => raise (Exceptions.UserNotFoundError (Some user_id))
  | Some u => ret u
  end.

Definition get_current_user_profile (user_id : Z) : M User.t :=
  get_user_by_id user_id.

(** [change_password]; both [except] clauses re-raise what they catch. *)
Definition change_password (env : Env) (user_id : Z)
    (current_password new_password new_password_confirm : string) : M unit :=
  user <- get_user_by_id user_id ;;
  ok <- lift (Service.verify_password env current_password (User.password user)) ;;
  if negb ok then raise Exceptions.InvalidPasswordError
  else if negb (String.eqb new_password new_password_confirm)
  then raise Exceptions.PasswordMismatchError
  else
    hashed <- lift (Service.get_password_hash env new_password) ;;
    _ <- Db.commit_refresh (with_password hashed user) ;;
    ret tt.

(** The two guarded assignments of [update_user]. *)
Definition rename_checked (username : option string) (user : User.t) : M User.t :=
  if Py.truthy username
     && negb (String.eqb (Py.str_or username "") (User.username user))
  then
    result <- Db.select_where (Service.by_username (Py.str_or username "")) ;;
    existing_user <- Db.scalar_one_or_none result ;;
    match existing_user with
    | Some _ => raise (HTTPException HTTP_400_BAD_REQUEST "Username already exists")
    | None => ret (User.with_username (Py.str_or username "") user)
    end
  else ret user.

Definition readdress_checked (email : option string) (user : User.t) : M User.t :=
  if Py.truthy email
     && negb (String.eqb (Py.str_or email "") (User.email user))
  then
    result <- Db.select_where (Service.by_email (Py.str_or email "")) ;;
    existing_user <- Db.scalar_one_or_none result ;;
    match existing_user with
    | Some _ => raise (HTTPException HTTP_400_BAD_REQUEST "Email already exists")
    | None => ret (User.with_email (Py.str_or email "") user)
    end
  else ret user.

Definition update_user (user_id : Z) (username email : option string) : M User.t :=
  user <- get_user_by_id user_id ;;
  user <- rename_checked username user ;;
  user <- readdress_checked email user ;;
  Db.commit_refresh user.

(** [update_profile_picture]: a failing deletion of the old object is
    logged and nothing else. *)
Definition update_profile_picture (storage_delete : string -> outcome bool)
    (user_id : Z) (profile_picture_url : string) : M User.t :=
  user <- get_user_by_id user_id ;;
  _ <- (if Py.truthy (User.profile_picture_url user) then
          try_except
            (_ <- lift (storage_delete (Py.str_or (User.profile_picture_url user) "")) ;;
             ret tt)
            (fun _ => ret tt)
        else ret tt) ;;
  Db.commit_refresh (with_profile_picture_url (Some profile_picture_url) user).

(** [delete_profile_picture_endpoint], past the resolution of the
    current user: here the deletion is not guarded. *)
Definition delete_profile_picture_endpoint (storage_delete : string -> outcome bool)
    (current_user_id : Z) : M User.t :=
  user <- get_current_user_profile current_user_id ;;
  if negb (Py.truthy (User.profile_picture_url user)) then
    raise (HTTPException 404 "Profile picture not found")
  else
    _ <- lift (storage_delete (Py.str_or (User.profile_picture_url user) "")) ;;
    Db.commit_refresh (with_profile_picture_url None user).

End UsersService.

(* ------------------------------------------------------------------ *)
(** ** Operations on the users table, the users service included *)

Inductive operation : Type :=
| Auth (env : Env) (r : request)
| ChangePassword (env : Env) (user_id : Z)
                 (current_password new_password new_password_confirm : string)
| UpdateUser (user_id : Z) (username email : option string)
| UpdateProfilePicture (storage_delete : string -> outcome bool)
                       (user_id : Z) (profile_picture_url : string)
| DeleteProfilePicture (storage_delete : string -> outcome bool) (user_id : Z).

Definition perform (op : operation) (table : list User.t) : list User.t :=
  let w := mkWorld table 0 in
  match op with
  | Auth env r => handle env r table
  | ChangePassword env user_id current new confirm =>
      rows (snd (UsersService.change_password env user_id current new confirm w))
  | UpdateUser user_id username email =>
      rows (snd (UsersService.update_user user_id username email w))
  | UpdateProfilePicture storage_delete user_id url =>
      rows (snd (UsersService.update_profile_picture storage_delete user_id url w))
  | DeleteProfilePicture storage_delete user_id =>
      rows (snd (UsersService.delete_profile_picture_endpoint storage_delete user_id w))
  end.

Fixpoint perform_all (ops : list operation) (table : list User.t) : list User.t :=
  match ops with
  | [] => table
  | op :: rest => perform_all rest (perform op table)
  end.

(** The unique indexes on [email] and on [keycloak_user_id] hold. *)
Definition unique_emails (table : list User.t) : Prop :=
  NoDup (map User.email table).

Definition unique_keycloak_ids (table : list User.t) : Prop :=
  forall a b, In a table -> In b table ->
    Db.same_keycloak_id (User.keycloak_user_id a) (User.keycloak_user_id b) = true ->
    a = b.

(** [r'] is [r] with the columns of the federation untouched. *)
Definition identity_kept (r r' : User.t) : Prop :=
  User.id r' = User.id r
  /\ User.keycloak_user_id r' = User.keycloak_user_id r
  /\ User.last_synced_at r' = User.last_synced_at r.

(** True when a string holds the character. *)
Fixpoint contains_char (c : ascii) (s : string) : bool :=
  match s with
  | EmptyString => false
  | String d r => Ascii.eqb d c || contains_char c r
  end.

(* ------------------------------------------------------------------ *)
(** ** A request on its session

    An endpoint that takes [CurrentUser] runs after [get_current_user],
    on the session of the request.  The resolution commits what it
    inserts and what it syncs.  The [keycloak_user_id] it assigns to a
    row that needs no sync (auth/service.py, lines 115-117) it does not
    commit: the assignment stays pending on the session, the queries of
    the endpoint see it, and the commit of the endpoint writes it
    together with the endpoint's own changes.  When the endpoint raises,
    the session ends without a commit and the assignment is lost.  Every
    endpoint served this way below commits exactly when its handler
    returns. *)

(** The table as the session sees it after the resolution returned
    [user]: the committed rows, with the row of [user] as it is in
    memory. *)
Definition session_view (user : User.t) (w : World) : World :=
  mkWorld (replace_row user (rows w)) (ticks w).


(** The endpoints of users/controller.py that write, past the
    resolution of the current user. *)
Module UsersController.

Definition change_password (env : Env) (current_user : User.t)
    (current_password new_password new_password_confirm : string) : M unit :=
  UsersService.change_password env (User.id current_user)
    current_password new_password new_password_confirm.



Definition delete_profile_picture_endpoint
    (storage_delete : string -> outcome bool) (current_user : User.t) : M User.t :=
  UsersService.delete_profile_picture_endpoint storage_delete (User.id current_user).

End UsersController.



(* ------------------------------------------------------------------ *)
(** ** More environments for the scenarios *)

Module Scenario2.

(** A bcrypt whose digest is the password itself, and a JWT library
    whose tokens all read as ["ada.lovelace"], key 1. *)
Definition toy_legacy_env (t0 : Z) : Env :=
  mkEnv false "http://localhost:8080" "linksy" "admin" "admin"
        (Scenario.clock t0)
        (fun _ _ => Raise (KeycloakError "unreachable"))
        (fun _ => Raise (KeycloakError "unreachable"))
        (fun _ => Raise (KeycloakError "unreachable"))
        (fun _ _ => Raise (KeycloakError "unreachable"))
        (fun _ _ _ => Raise (RequestException "unreachable"))
        (fun _ _ _ => Raise (RequestException "unreachable"))
        (fun _ _ _ => Raise (RequestException "unreachable"))
        (fun _ _ _ => "jwt")
        (fun _ => Return (mkJwtPayload (Some "ada.lovelace") (Some 1)))
        (fun version cost _ password =>
           Return ("$" ++ version ++ "$" ++ cost ++ "$" ++ password))
        "$2b$12$salt"
        (fun s => s) (fun s => s).

Definition ada : User.t :=
  User.mk 1 "ada.lovelace" "ada@x.io" "$2b$12$secret" None None None.

Definition bob : User.t :=
  User.mk 2 "bob" "bob@x.io" "$2b$12$hunter2" None None None.

(** A Keycloak whose admin API refuses the creation: the POST answers 409. *)
Definition conflict_env (t0 : Z) : Env :=
  mkEnv true "http://localhost:8080" "linksy" "admin" "admin"
        (Scenario.clock t0)
        (fun _ _ => Return (Kc.mkTokenResponse "tok" None None))
        (Scenario.claims "8d2f" "john.doe" None)
        (fun _ => Return true)
        (fun _ _ => Return (Some "admin-token"))
        (fun url _ _ => Return (Kc.mkResponse 409 None "User exists"
                                  (Raise (PyException "no body"))
                                  "Conflict" url))
        (fun _ _ _ => Raise (RequestException "unreachable"))
        (fun _ _ _ => Raise (RequestException "unreachable"))
        (fun _ _ _ => "jwt")
        (fun _ => Raise JWTError)
        (fun _ _ _ _ => Return "digest")
        "$2b$12$saltsaltsaltsaltsaltsa"
        (fun s => s) (fun s => s).

End Scenario2.

(* ------------------------------------------------------------------ *)
(** ** The posts, comments and likes tables
    (entities/post.py, entities/comment.py, entities/like.py) *)

Module Post.

Record t : Type := mk {
  id : Z;
  title : string;
  content : string;
  user_id : Z;
  image_url : option string;
  created_at : option Z;
  updated_at : option Z
}.

End Post.

Module Comment.

Record t : Type := mk {
  id : Z;
  content : string;
  post_id : Z;
  user_id : Z;
  created_at : option Z;
  updated_at : option Z
}.

End Comment.

Module Like.

Record t : Type := mk {
  id : Z;
  user_id : Z;
  post_id : Z;
  created_at : option Z
}.

End Like.

(** What the handlers of the feed work on: the users table and the clock
    of [World], the rows of [posts], [comments] and [likes], and the
    names of the objects removed from the bucket so far, latest first.
    A handler is given the tables as its session sees them; what a
    request leaves committed is told by [served_feed] below. *)
Record Store : Type := mkStore {
  world : World;
  posts : list Post.t;
  comments : list Comment.t;
  likes : list Like.t;
  removed_objects : list string
}.

Definition set_world (w : World) (s : Store) : Store :=
  mkStore w (posts s) (comments s) (likes s) (removed_objects s).

Definition set_posts (l : list Post.t) (s : Store) : Store :=
  mkStore (world s) l (comments s) (likes s) (removed_objects s).

Definition set_comments (l : list Comment.t) (s : Store) : Store :=
  mkStore (world s) (posts s) l (likes s) (removed_objects s).

Definition set_likes (l : list Like.t) (s : Store) : Store :=
  mkStore (world s) (posts s) (comments s) l (removed_objects s).

Definition St (A : Type) : Type := Store -> outcome A * Store.

Definition sret {A : Type} (a : A) : St A := fun s => (Return a, s).

Definition sraise {A : Type} (e : exn) : St A := fun s => (Raise e, s).

Definition sbind {A B : Type} (m : St A) (k : A -> St B) : St B :=
  fun s =>
    match m s with
    | (Return a, s') => k a s'
    | (Raise e, s') => (Raise e, s')
    end.

(** [try: m  except Exception as e: h e] *)
Definition stry {A : Type} (m : St A) (h : exn -> St A) : St A :=
  fun s =>
    match m s with
    | (Return a, s') => (Return a, s')
    | (Raise e, s') => h e s'
    end.

Notation "x <~ m ;; k" := (sbind m (fun x => k))
  (at level 61, m at next level, right associativity).

(** The statements the services send through the session.  A statement
    that changes a table is taken together with the [commit] that
    follows it; a refused statement leaves the tables as they were, so
    the [rollback] of a handler has nothing to undo.

    [fk] tells whether the database enforces the foreign keys the
    entities declare ([users.id], [posts.id]); none of them carries an
    [ondelete], and the [delete(...)] statements of the services do not
    go through the cascades of the ORM relationships. *)
Module Session.

(** [result.scalar_one_or_none()] *)
Definition one_or_none {A : Type} (l : list A) : St (option A) :=
  match l with
  | [] => sret None
  | [a] => sret (Some a)
  | _ :: _ :: _ => sraise MultipleResultsFound
  end.

(** The auto-assigned primary key: larger than every key in the table. *)
Definition next_id (ids : list Z) : Z := 1 + fold_right Z.max 0 ids.

(** The values of an [Integer] column.  An id taken from the path of a
    request can be any integer; one outside this range is refused by a
    32-bit driver when the statement is sent, before any row is looked
    at, so what the lookups below answer is meant for ids of this
    range. *)
Definition INTEGER (i : Z) : Prop := -2147483648 <= i <= 2147483647.

(** [datetime.utcnow], the column default evaluated for an INSERT or an
    UPDATE *)
Definition utcnow_default (env : Env) : St Z :=
  fun s =>
    (Return (utcnow env (ticks (world s))),
     set_world (mkWorld (rows (world s)) (S (ticks (world s)))) s).

Definition has_user (user_id : Z) (s : Store) : bool :=
  existsb (fun u => (User.id u =? user_id)%Z) (rows (world s)).

Definition has_post (post_id : Z) (s : Store) : bool :=
  existsb (fun p => (Post.id p =? post_id)%Z) (posts s).

Definition post_by_id (post_id : Z) (p : Post.t) : bool :=
  (Post.id p =? post_id)%Z.

Definition comment_by_id (comment_id : Z) (c : Comment.t) : bool :=
  (Comment.id c =? comment_id)%Z.

Definition select_posts (p : Post.t -> bool) : St (list Post.t) :=
  fun s => (Return (filter p (posts s)), s).

Definition select_comments (p : Comment.t -> bool) : St (list Comment.t) :=
  fun s => (Return (filter p (comments s)), s).

Definition select_likes (p : Like.t -> bool) : St (list Like.t) :=
  fun s => (Return (filter p (likes s)), s).

(** [select(func.count(...)).where(p)] followed by [scalar_one()] *)
Definition count_comments (p : Comment.t -> bool) : St Z :=
  fun s => (Return (Z.of_nat (length (filter p (comments s)))), s).

Definition count_likes (p : Like.t -> bool) : St Z :=
  fun s => (Return (Z.of_nat (length (filter p (likes s)))), s).


Definition insert_comment (env : Env) (fk : bool) (content : string)
    (post_id user_id : Z) : St Comment.t :=
  created_at <~ utcnow_default env ;;
  updated_at <~ utcnow_default env ;;
  fun s =>
    if fk && negb (has_post post_id s && has_user user_id s)
    then (Raise IntegrityError, s)
    else
      let comment := Comment.mk (next_id (map Comment.id (comments s))) content
                                post_id user_id (Some created_at) (Some updated_at) in
      (Return comment, set_comments (comments s ++ [comment])%list s).

(** The INSERT of a like is also refused by [unique_user_post_like]. *)
Definition insert_like (env : Env) (fk : bool) (post_id user_id : Z) : St Like.t :=
  created_at <~ utcnow_default env ;;
  fun s =>
    if fk && negb (has_post post_id s && has_user user_id s)
    then (Raise IntegrityError, s)
    else if existsb (fun l => (Like.user_id l =? user_id)%Z
                              && (Like.post_id l =? post_id)%Z) (likes s)
    then (Raise IntegrityError, s)
    else
      let like := Like.mk (next_id (map Like.id (likes s))) user_id post_id
                          (Some created_at) in
      (Return like, set_likes (likes s ++ [like])%list s).

(** [await session.commit(); await session.refresh(post)] with the
    loaded [post] assigned a title and a content: an UPDATE is sent only
    when one of them differs from the loaded value, and it sets
    [updated_at] ([onupdate]). *)
Definition update_post (env : Env) (post : Post.t) (title content : string)
    : St Post.t :=
  if String.eqb title (Post.title post) && String.eqb content (Post.content post)
  then sret post
  else
    updated_at <~ utcnow_default env ;;
    fun s =>
      let post' := Post.mk (Post.id post) title content (Post.user_id post)
                           (Post.image_url post) (Post.created_at post)
                           (Some updated_at) in
      (Return post',
       set_posts (map (fun p => if (Post.id p =? Post.id post)%Z then post' else p)
                      (posts s)) s).

Definition update_comment (env : Env) (comment : Comment.t) (content : string)
    : St Comment.t :=
  if String.eqb content (Comment.content comment)
  then sret comment
  else
    updated_at <~ utcnow_default env ;;
    fun s =>
      let comment' := Comment.mk (Comment.id comment) content
                                 (Comment.post_id comment) (Comment.user_id comment)
                                 (Comment.created_at comment) (Some updated_at) in
      (Return comment',
       set_comments
         (map (fun c => if (Comment.id c =? Comment.id comment)%Z then comment' else c)
              (comments s)) s).

(** [delete(Post).where(Post.id == post_id)] and the commit: refused
    while a comment or a like points at the post, when the foreign keys
    are enforced. *)
Definition delete_posts (fk : bool) (post_id : Z) : St unit :=
  fun s =>
    if fk && (existsb (fun c => (Comment.post_id c =? post_id)%Z) (comments s)
              || existsb (fun l => (Like.post_id l =? post_id)%Z) (likes s))
    then (Raise IntegrityError, s)
    else (Return tt, set_posts (filter (fun p => negb (post_by_id post_id p)) (posts s)) s).

Definition delete_comments (p : Comment.t -> bool) : St unit :=
  fun s => (Return tt, set_comments (filter (fun c => negb (p c)) (comments s)) s).

Definition delete_likes (p : Like.t -> bool) : St unit :=
  fun s => (Return tt, set_likes (filter (fun l => negb (p l)) (likes s)) s).

End Session.

(** A [dict] with integer keys, in insertion order. *)
Module PyDict.

Fixpoint set {V : Type} (k : Z) (v : V) (d : list (Z * V)) : list (Z * V) :=
  match d with
  | [] => [(k, v)]
  | (k', v') :: d' =>
      if (k' =? k)%Z then (k', v) :: d' else (k', v') :: set k v d'
  end.

Fixpoint get {V : Type} (k : Z) (d : list (Z * V)) : option V :=
  match d with
  | [] => None
  | (k', v) :: d' => if (k' =? k)%Z then Some v else get k d'
  end.

(** [{k: f(k) for k in keys}] *)
Definition comprehension {V : Type} (f : Z -> V) (keys : list Z) : list (Z * V) :=
  fold_left (fun d k => set k (f k) d) keys [].

End PyDict.

(* ------------------------------------------------------------------ *)
(** ** likes/service.py *)

Module LikesService.

Definition on_post (post_id : Z) (l : Like.t) : bool :=
  (Like.post_id l =? post_id)%Z.

Definition on_post_by (post_id user_id : Z) (l : Like.t) : bool :=
  (Like.post_id l =? post_id)%Z && (Like.user_id l =? user_id)%Z.

(** [n or 0] *)
Definition or_zero (n : Z) : Z := if (n =? 0)%Z then 0 else n.

(** [toggle_like]; both [except] clauses re-raise what they catch. *)
Definition toggle_like (env : Env) (fk : bool) (post_id user_id : Z)
    : St (bool * Z) :=
  result <~ Session.select_posts (Session.post_by_id post_id) ;;
  post <~ Session.one_or_none result ;;
  match post with
  | None => sraise (Exceptions.PostNotFoundError (Some post_id))
  | Some _ =>
      result <~ Session.select_likes (on_post_by post_id user_id) ;;
      existing_like <~ Session.one_or_none result ;;
      is_liked <~ (match existing_like with
                   | Some _ =>
                       _ <~ Session.delete_likes (on_post_by post_id user_id) ;;
                       sret false
                   | None =>
                       _ <~ Session.insert_like env fk post_id user_id ;;
                       sret true
                   end) ;;
      like_count <~ Session.count_likes (on_post post_id) ;;
      sret (is_liked, or_zero like_count)
  end.

Definition get_like_count (post_id : Z) : St Z :=
  count <~ Session.count_likes (on_post post_id) ;;
  sret (or_zero count).

Definition is_post_liked_by_user (post_id user_id : Z) : St bool :=
  result <~ Session.select_likes (on_post_by post_id user_id) ;;
  like <~ Session.one_or_none result ;;
  sret (match like with Some _ => true | None => false end).

Definition get_likes_for_posts (post_ids : list Z) (user_id : Z)
    : St (list (Z * bool)) :=
  match post_ids with
  | [] => sret []
  | _ :: _ =>
      result <~ Session.select_likes
                  (fun l => existsb (Z.eqb (Like.post_id l)) post_ids
                            && (Like.user_id l =? user_id)%Z) ;;
      let liked_post_ids := map Like.post_id result in
      sret (PyDict.comprehension
              (fun post_id => existsb (Z.eqb post_id) liked_post_ids) post_ids)
  end.

End LikesService.

(* ------------------------------------------------------------------ *)
(** ** comments/service.py *)

Module CommentsService.

Definition on_post (post_id : Z) (c : Comment.t) : bool :=
  (Comment.post_id c =? post_id)%Z.

(** [create_comment]; both [except] clauses re-raise what they catch. *)
Definition create_comment (env : Env) (fk : bool) (post_id user_id : Z)
    (content : string) : St Comment.t :=
  result <~ Session.select_posts (Session.post_by_id post_id) ;;
  post <~ Session.one_or_none result ;;
  match post with
  | None => sraise (Exceptions.PostNotFoundError (Some post_id))
  | Some _ => Session.insert_comment env fk content post_id user_id
  end.

Definition get_comment_count (post_id : Z) : St Z :=
  Session.count_comments (on_post post_id).

Definition update_comment (env : Env) (comment_id user_id : Z) (content : string)
    : St Comment.t :=
  result <~ Session.select_comments (Session.comment_by_id comment_id) ;;
  comment <~ Session.one_or_none result ;;
  match comment with
  | None => sraise (Exceptions.CommentNotFoundError (Some comment_id))
  | Some comment =>
      if negb (Comment.user_id comment =? user_id)%Z then
        sraise (Exceptions.ForbiddenException "You can only update your own comments")
      else Session.update_comment env comment content
  end.

Definition delete_comment (comment_id user_id : Z) : St unit :=
  result <~ Session.select_comments (Session.comment_by_id comment_id) ;;
  comment <~ Session.one_or_none result ;;
  match comment with
  | None => sraise (Exceptions.CommentNotFoundError (Some comment_id))
  | Some comment =>
      if negb (Comment.user_id comment =? user_id)%Z then
        sraise (Exceptions.ForbiddenException "You can only delete your own comments")
      else Session.delete_comments (Session.comment_by_id comment_id)
  end.

End CommentsService.

(* ------------------------------------------------------------------ *)
(** ** posts/service.py *)

Module PostService.


Definition get_post (post_id : Z) : St Post.t :=
  result <~ Session.select_posts (Session.post_by_id post_id) ;;
  post <~ Session.one_or_none result ;;
  match post with
  | None => sraise (Exceptions.PostNotFoundError (Some post_id))
  | Some post => sret post
  end.

Definition get_user_posts (user_id : Z) : St (list Post.t) :=
  Session.select_posts (fun p => (Post.user_id p =? user_id)%Z).

(** [delete_post]; both [except] clauses re-raise what they catch. *)
Definition delete_post (fk : bool) (post_id user_id : Z) : St unit :=
  result <~ Session.select_posts (Session.post_by_id post_id) ;;
  post <~ Session.one_or_none result ;;
  match post with
  | None => sraise (Exceptions.PostNotFoundError (Some post_id))
  | Some post =>
      if negb (Post.user_id post =? user_id)%Z then
        sraise (Exceptions.ForbiddenException "You can only delete your own posts")
      else Session.delete_posts fk post_id
  end.

Definition update_post (env : Env) (post_id : Z) (title content : string)
    (user_id : Z) : St Post.t :=
  result <~ Session.select_posts (Session.post_by_id post_id) ;;
  post <~ Session.one_or_none result ;;
  match post with
  | None => sraise (Exceptions.PostNotFoundError (Some post_id))
  | Some post =>
      if negb (Post.user_id post =? user_id)%Z then
        sraise (Exceptions.ForbiddenException "You can only update your own posts")
      else Session.update_post env post title content
  end.

End PostService.

(* ------------------------------------------------------------------ *)
(** ** The deletion endpoint of posts/controller.py *)

Module PostsController.

(** [delete_post_image] of storage/minio_client.py: [storage_delete]
    is the call of [remove_object], [Return false] standing for the
    [S3Error] the function catches; a removed object is recorded. *)
Definition delete_post_image (storage_delete : string -> outcome bool)
    (object_name : string) : St bool :=
  fun s =>
    match storage_delete object_name with
    | Return true =>
        (Return true,
         mkStore (world s) (posts s) (comments s) (likes s)
                 (object_name :: removed_objects s))
    | Return false => (Return false, s)
    | Raise e => (Raise e, s)
    end.

(** [delete_post], past the resolution of the current user; the outer
    [except] clause re-raises what it catches. *)
Definition delete_post (storage_delete : string -> outcome bool) (fk : bool)
    (post_id current_user_id : Z) : St unit :=
  post <~ PostService.get_post post_id ;;
  _ <~ (if Py.truthy (Post.image_url post) then
          stry
            (_ <~ delete_post_image storage_delete
                    (Py.str_or (Post.image_url post) "") ;;
             sret tt)
            (fun _ => sret tt)
        else sret tt) ;;
  PostService.delete_post fk post_id current_user_id.

End PostsController.

(* ------------------------------------------------------------------ *)
(** ** The requests of the feed and the constraints of its tables *)

(** A request of the feed on its session: the resolution of the current
    user, the [handler], which ends with its commit, and what the
    endpoint reads [after] the commit.  The handler runs on the tables
    as the session sees them; when it raises, nothing of it is committed
    (what was removed from the bucket stays removed). *)
Definition served_feed {A B : Type} (env : Env) (token : string)
    (handler : User.t -> St A) (after : User.t -> A -> St B) : St B :=
  fun s =>
    match Service.get_current_user env token (world s) with
    | (Raise e, w1) => (Raise e, set_world w1 s)
    | (Return user, w1) =>
        match handler user (set_world (session_view user w1) s) with
        | (Return a, s2) => after user a s2
        | (Raise e, s2) =>
            (Raise e,
             mkStore (mkWorld (rows w1) (ticks (world s2)))
                     (posts s) (comments s) (likes s) (removed_objects s2))
        end
    end.




(** Primary keys *)
Definition posts_keyed (s : Store) : Prop := NoDup (map Post.id (posts s)).

Definition comments_keyed (s : Store) : Prop := NoDup (map Comment.id (comments s)).


(** [unique_user_post_like] *)
Definition likes_unique (s : Store) : Prop :=
  NoDup (map (fun l => (Like.user_id l, Like.post_id l)) (likes s)).


(** The tables but not the clock *)
Definition same_tables (s s' : Store) : Prop :=
  rows (world s') = rows (world s)
  /\ posts s' = posts s
  /\ comments s' = comments s
  /\ likes s' = likes s.


Module Scenario3.

Definition env : Env := Scenario2.toy_legacy_env 1000.

Definition hello : Post.t :=
  Post.mk 10 "Hello" "First post" 1 (Some "posts/10/a.png") (Some 5) (Some 5).

Definition notes : Post.t :=
  Post.mk 11 "Notes" "Second post" 2 None (Some 6) (Some 6).

Definition nice : Comment.t :=
  Comment.mk 100 "Nice" 10 2 (Some 7) (Some 7).

Definition bob_likes_hello : Like.t := Like.mk 1000 2 10 (Some 8).

Definition feed : Store :=
  mkStore (mkWorld [Scenario2.ada; Scenario2.bob] 0)
          [hello; notes] [nice] [bob_likes_hello] [].

(** The storage answers every removal. *)
Definition storage_ok (object_name : string) : outcome bool := Return true.

(** A row from before the federation, synced a moment ago and without a
    Keycloak id, and a Keycloak whose tokens all name it. *)
Definition unlinked : User.t :=
  User.mk 1 "grace" "grace@x.io" "" None (Some 4000) None.

Definition linked : User.t :=
  User.mk 1 "grace" "grace@x.io" "" (Some "abc") (Some 4000) None.

Definition grace_env : Env :=
  Scenario.keycloak_env (Scenario.claims "abc" "grace" (Some "grace@x.io"))
                        true 204 5000.

Definition grace_feed : Store :=
  mkStore (mkWorld [unlinked; Scenario2.bob] 0)
          [hello; notes] [nice] [bob_likes_hello] [].

End Scenario3.

(* ================================================================== *)
(** * Properties *)

(* ------------------------------------------------------------------ *)
(** ** Running the monad *)

Lemma bind_inv {A B : Type} (m : M A) (k : A -> M B) w o w' :
  bind m k w = (o, w') ->
  (exists a w1, m w = (Return a, w1) /\ k a w1 = (o, w'))
  \/ (exists e, m w = (Raise e, w') /\ o = Raise e).
Proof.
  unfold bind. destruct (m w) as [[a | e] w1]; intros H.
  - left. exists a, w1. split; [reflexivity | exact H].
  - right. exists e. inversion H; subst. split; reflexivity.
Qed.

Lemma try_except_inv {A : Type} (m : M A) (h : exn -> M A) w o w' :
  try_except m h w = (o, w') ->
  (exists a, m w = (Return a, w') /\ o = Return a)
  \/ (exists e w1, m w = (Raise e, w1) /\ h e w1 = (o, w')).
Proof.
  unfold try_except. destruct (m w) as [[a | e] w1]; intros H.
  - left. exists a. inversion H; subst. split; reflexivity.
  - right. exists e, w1. split; [reflexivity | exact H].
Qed.

Lemma lift_inv {A : Type} (x : outcome A) w o w' :
  lift x w = (o, w') -> o = x /\ w' = w.
Proof. unfold lift. intros H; inversion H; subst; split; reflexivity. Qed.

Lemma ret_inv {A : Type} (a : A) w o w' :
  ret a w = (o, w') -> o = Return a /\ w' = w.
Proof. unfold ret. intros H; inversion H; subst; split; reflexivity. Qed.

Lemma raise_inv {A : Type} (e : exn) w (o : outcome A) w' :
  raise e w = (o, w') -> o = Raise e /\ w' = w.
Proof. unfold raise. intros H; inversion H; subst; split; reflexivity. Qed.

Lemma utcnow_inv env w o w' :
  datetime_utcnow env w = (o, w') ->
  o = Return (utcnow env (ticks w)) /\ rows w' = rows w /\ ticks w' = S (ticks w).
Proof.
  unfold datetime_utcnow. intros H; inversion H; subst. simpl. auto.
Qed.

(* ------------------------------------------------------------------ *)
(** ** The table *)

Lemma scalar_one_or_none_inv l w o w' :
  Db.scalar_one_or_none l w = (o, w') ->
  w' = w
  /\ ((l = [] /\ o = Return None)
      \/ (exists u, l = [u] /\ o = Return (Some u))
      \/ ((2 <= length l)%nat /\ o = Raise MultipleResultsFound)).
Proof.
  destruct l as [| u [| v l]]; simpl; intros H.
  - apply ret_inv in H as [-> ->]. split; [reflexivity | left; auto].
  - apply ret_inv in H as [-> ->]. split; [reflexivity |].
    right; left. exists u; auto.
  - apply raise_inv in H as [-> ->]. split; [reflexivity |].
    right; right. split; [simpl; lia | reflexivity].
Qed.

Lemma select_one_inv p w o w' :
  (result <- Db.select_where p ;; Db.scalar_one_or_none result) w = (o, w') ->
  w' = w
  /\ match o with
     | Return None => filter p (rows w) = []
     | Return (Some u) => filter p (rows w) = [u]
     | Raise e => e = MultipleResultsFound /\ (2 <= length (filter p (rows w)))%nat
     end.
Proof.
  unfold bind, Db.select_where. intros H.
  apply scalar_one_or_none_inv in H as [-> H]. split; [reflexivity |].
  destruct H as [[E ->] | [[u [E ->]] | [L ->]]]; auto.
Qed.

Lemma filter_singleton_In {A : Type} (p : A -> bool) l u :
  filter p l = [u] -> In u l /\ p u = true.
Proof.
  intros E. apply filter_In. rewrite E. left; reflexivity.
Qed.

Lemma filter_nil_none {A : Type} (p : A -> bool) l :
  filter p l = [] -> forall x, In x l -> p x = false.
Proof.
  intros E x Hx. destruct (p x) eqn:Px; [| reflexivity].
  assert (In x (filter p l)) as Hin by (apply filter_In; auto).
  rewrite E in Hin. destruct Hin.
Qed.

Lemma by_keycloak_user_id_true kid r :
  Service.by_keycloak_user_id kid r = true <-> User.keycloak_user_id r = Some kid.
Proof.
  unfold Service.by_keycloak_user_id, Db.same_keycloak_id.
  destruct (User.keycloak_user_id r) as [k |].
  - rewrite String.eqb_eq. split; congruence.
  - split; discriminate.
Qed.

Lemma by_username_true uname r :
  Service.by_username uname r = true <-> User.username r = uname.
Proof. unfold Service.by_username. apply String.eqb_eq. Qed.

Lemma fresh_id_above l r : In r l -> (User.id r < Db.fresh_id l)%Z.
Proof.
  unfold Db.fresh_id. induction l as [| x l IH]; cbn [fold_right In]; intros H.
  - destruct H.
  - destruct H as [-> | H]; [lia |]. specialize (IH H). lia.
Qed.

Lemma fresh_id_not_in l : ~ In (Db.fresh_id l) (map User.id l).
Proof.
  intros H. apply in_map_iff in H as [r [E Hr]].
  apply fresh_id_above in Hr. lia.
Qed.

Lemma add_commit_refresh_inv u w o w' :
  Db.add_commit_refresh u w = (o, w') ->
  (existsb (Db.conflicts u) (rows w) = true
   /\ o = Raise IntegrityError /\ w' = w)
  \/ (existsb (Db.conflicts u) (rows w) = false
      /\ o = Return (User.with_id (Db.fresh_id (rows w)) u)
      /\ rows w' = (rows w ++ [User.with_id (Db.fresh_id (rows w)) u])%list
      /\ ticks w' = ticks w).
Proof.
  unfold Db.add_commit_refresh.
  destruct (existsb (Db.conflicts u) (rows w)) eqn:E; intros H;
    inversion H; subst; simpl; [left | right]; auto.
Qed.

Lemma commit_refresh_inv u w o w' :
  Db.commit_refresh u w = (o, w') ->
  let clash := fun r => negb (User.id r =? User.id u)%Z && Db.conflicts u r in
  (existsb clash (rows w) = true /\ o = Raise IntegrityError /\ w' = w)
  \/ (existsb clash (rows w) = false
      /\ o = Return u
      /\ rows w' = replace_row u (rows w)
      /\ ticks w' = ticks w).
Proof.
  unfold Db.commit_refresh. cbv zeta.
  destruct (existsb _ (rows w)) eqn:E; intros H; inversion H; subst; simpl.
  - left; auto.
  - right; auto.
Qed.

(* ------------------------------------------------------------------ *)
(** ** The reconciler, step by step *)

Lemma truthy_some x :
  Py.truthy x = true ->
  exists s, x = Some s /\ s <> "" /\ forall d, Py.str_or x d = s.
Proof.
  destruct x as [[| c r] |]; simpl; try discriminate.
  intros _. exists (String c r). split; [reflexivity |].
  split; [discriminate | reflexivity].
Qed.

Lemma find_candidate_inv kid uname w o w' :
  Service.find_candidate kid uname w = (o, w') ->
  w' = w
  /\ match o with
     | Return (Some u) =>
         In u (rows w)
         /\ (User.keycloak_user_id u = Some kid
             \/ (filter (Service.by_keycloak_user_id kid) (rows w) = []
                 /\ User.username u = uname))
     | Return None =>
         filter (Service.by_keycloak_user_id kid) (rows w) = []
         /\ filter (Service.by_username uname) (rows w) = []
     | Raise e => e = MultipleResultsFound
     end.
Proof.
  unfold Service.find_candidate. intros H.
  unfold bind at 1 in H. unfold Db.select_where at 1 in H.
  apply bind_inv in H as [[a [w1 [H1 H2]]] | [e [H1 ->]]].
  - apply scalar_one_or_none_inv in H1 as [-> H1].
    destruct H1 as [[E Ha] | [[u [E Ha]] | [_ Ha]]]; try discriminate;
      inversion Ha; subst a.
    + apply select_one_inv in H2 as [-> H2]. split; [reflexivity |].
      destruct o as [[u |] | e].
      * apply filter_singleton_In in H2 as [Hin Hp].
        split; [exact Hin |]. right. split; [exact E |].
        apply by_username_true; exact Hp.
      * auto.
      * tauto.
    + apply ret_inv in H2 as [-> ->]. split; [reflexivity |].
      apply filter_singleton_In in E as [Hin Hp].
      split; [exact Hin |]. left. apply by_keycloak_user_id_true; exact Hp.
  - apply scalar_one_or_none_inv in H1 as [-> H1]. split; [reflexivity |].
    destruct H1 as [[_ Ha] | [[u [_ Ha]] | [_ Ha]]]; try discriminate.
    inversion Ha; reflexivity.
Qed.

Lemma should_sync_inv env user uname email w o w' :
  Service.should_sync env user uname email w = (o, w') ->
  rows w' = rows w
  /\ match User.last_synced_at user with
     | None => o = Return true /\ ticks w' = ticks w
     | Some last =>
         o = Return (Service.total_seconds_gt (utcnow env (ticks w) - last)
                                              Service.SYNC_SECONDS
                     || negb (String.eqb (User.username user) uname)
                     || Service.email_differs user email)
         /\ ticks w' = S (ticks w)
     end.
Proof.
  unfold Service.should_sync. destruct (User.last_synced_at user) as [last |].
  - unfold bind, datetime_utcnow, ret. intros H; inversion H; subst; simpl. auto.
  - intros H. apply ret_inv in H as [-> ->]. auto.
Qed.

Lemma sync_existing_inv env u kid uname email w o w' :
  Service.sync_existing env u kid uname email w = (o, w') ->
  let u1 := Service.upgrade_missing_id kid u in
  (o = Return u1 /\ rows w' = rows w)
  \/ (exists now,
        let u2 := Service.synced_row uname email now u1 in
        (o = Return u2 /\ rows w' = replace_row u2 (rows w))
        \/ (o = Raise IntegrityError /\ rows w' = rows w)).
Proof.
  unfold Service.sync_existing. cbv zeta. intros H.
  apply bind_inv in H as [[stale [w1 [H1 H2]]] | [e [H1 ->]]].
  - apply should_sync_inv in H1 as [R1 _].
    destruct stale.
    + apply bind_inv in H2 as [[now [w2 [H2 H3]]] | [e [H2 ->]]].
      * apply utcnow_inv in H2 as [_ [R2 _]].
        apply commit_refresh_inv in H3. cbv zeta in H3.
        right. exists now.
        destruct H3 as [[_ [-> ->]] | [_ [-> [R3 _]]]].
        -- right. split; [reflexivity | congruence].
        -- left. split; [reflexivity | congruence].
      * apply utcnow_inv in H2 as [H2 _]. discriminate.
    + apply ret_inv in H2 as [-> ->]. left. auto.
  - apply should_sync_inv in H1 as [_ H1].
    destruct (User.last_synced_at _); destruct H1 as [H1 _]; discriminate.
Qed.

Lemma create_from_keycloak_inv env kid uname email w o w' :
  Service.create_from_keycloak env kid uname email w = (o, w') ->
  let u := User.mk 0 uname (Py.str_or email (uname ++ "@keycloak.local")) ""
                   (Some kid) (Some (utcnow env (ticks w))) None in
  (o = Raise IntegrityError /\ rows w' = rows w)
  \/ (o = Return (User.with_id (Db.fresh_id (rows w)) u)
      /\ rows w' = (rows w ++ [User.with_id (Db.fresh_id (rows w)) u])%list).
Proof.
  unfold Service.create_from_keycloak. cbv zeta. intros H.
  apply bind_inv in H as [[now [w1 [H1 H2]]] | [e [H1 ->]]].
  - apply utcnow_inv in H1 as [E [R1 _]]. inversion E; subst now.
    apply add_commit_refresh_inv in H2.
    destruct H2 as [[_ [-> ->]] | [_ [-> [R2 _]]]].
    + left. auto.
    + right. rewrite R2, R1. auto.
  - apply utcnow_inv in H1 as [H1 _]. discriminate.
Qed.

Lemma resolve_keycloak_inv env token w o w' :
  Service.resolve_keycloak env token w = (o, w') ->
  (exists e, o = Raise e /\ w' = w)
  \/ (exists ti kid uname,
        KeycloakClient.verify_keycloak_token env token = Return ti
        /\ Kc.ti_active ti = true
        /\ Kc.ti_keycloak_user_id ti = Some kid /\ kid <> ""
        /\ Kc.ti_preferred_username ti = Some uname /\ uname <> ""
        /\ ((Service.find_candidate kid uname w = (Return None, w)
             /\ Service.create_from_keycloak env kid uname (Kc.ti_email ti) w = (o, w'))
            \/ (exists u,
                  Service.find_candidate kid uname w = (Return (Some u), w)
                  /\ Service.sync_existing env u kid uname (Kc.ti_email ti) w = (o, w')))).
Proof.
  unfold Service.resolve_keycloak. intros H.
  apply bind_inv in H as [[ti [w1 [H1 H2]]] | [e [H1 ->]]].
  2:{ apply lift_inv in H1 as [_ ->]. left. exists e. auto. }
  apply lift_inv in H1 as [H1 ->].
  destruct (Kc.ti_active ti) eqn:Hact; simpl in H2.
  2:{ apply raise_inv in H2 as [-> ->]. left. eauto. }
  destruct (Py.truthy (Kc.ti_preferred_username ti)) eqn:Tu; simpl in H2.
  2:{ apply raise_inv in H2 as [-> ->]. left. eauto. }
  destruct (Py.truthy (Kc.ti_keycloak_user_id ti)) eqn:Tk; simpl in H2.
  2:{ apply raise_inv in H2 as [-> ->]. left. eauto. }
  apply truthy_some in Tu as [uname [Eu [Nu Su]]].
  apply truthy_some in Tk as [kid [Ek [Nk Sk]]].
  rewrite (Su ""), (Sk "") in H2.
  apply bind_inv in H2 as [[c [w1 [H2 H3]]] | [e [H2 ->]]].
  - pose proof (find_candidate_inv _ _ _ _ _ H2) as [-> _].
    right. exists ti, kid, uname. repeat (split; [auto; fail |]).
    destruct c as [u |].
    + right. exists u. auto.
    + left. auto.
  - pose proof (find_candidate_inv _ _ _ _ _ H2) as [-> _].
    left. exists e. auto.
Qed.

Lemma resolve_legacy_rows env token w o w' :
  Service.resolve_legacy env token w = (o, w') -> w' = w.
Proof.
  unfold Service.resolve_legacy. intros H.
  apply bind_inv in H as [[payload [w1 [H1 H2]]] | [e [H1 ->]]].
  2:{ apply lift_inv in H1 as [_ ->]. reflexivity. }
  apply lift_inv in H1 as [_ ->].
  destruct (jwt_sub payload), (jwt_id payload);
    try (apply raise_inv in H2 as [_ ->]; reflexivity).
  unfold bind at 1 in H2. unfold Db.select_where at 1 in H2.
  apply bind_inv in H2 as [[c [w1 [H2 H3]]] | [e [H2 ->]]].
  - apply scalar_one_or_none_inv in H2 as [-> _].
    destruct c; [apply ret_inv in H3 | apply raise_inv in H3];
      destruct H3 as [_ ->]; reflexivity.
  - apply scalar_one_or_none_inv in H2 as [-> _]. reflexivity.
Qed.

(** What the [try ... except] of [get_current_user] lets through. *)
Lemma get_current_user_inv env token w o w' :
  Service.get_current_user env token w = (o, w') ->
  let body := if USE_KEYCLOAK env then Service.resolve_keycloak env token
              else Service.resolve_legacy env token in
  (exists u, o = Return u /\ body w = (Return u, w'))
  \/ (exists e, o = Raise Service.could_not_validate /\ body w = (Raise e, w')).
Proof.
  unfold Service.get_current_user. intros H. cbv zeta.
  apply try_except_inv in H as [[u [H ->]] | [e [w1 [H1 H2]]]].
  - left. exists u. auto.
  - apply raise_inv in H2 as [-> ->]. right. exists e. auto.
Qed.

Lemma get_current_user_raises env token w e :
  fst (Service.get_current_user env token w) = Raise e ->
  e = Service.could_not_validate.
Proof.
  destruct (Service.get_current_user env token w) as [o w'] eqn:H.
  simpl. intros ->.
  apply get_current_user_inv in H as [[u [H _]] | [e' [H _]]]; congruence.
Qed.

Lemma get_current_user_of_body env token w o w' :
  (if USE_KEYCLOAK env then Service.resolve_keycloak env token
   else Service.resolve_legacy env token) w = (o, w') ->
  Service.get_current_user env token w =
    (match o with
     | Return u => Return u
     | Raise _ => Raise Service.could_not_validate
     end, w').
Proof.
  unfold Service.get_current_user, try_except. intros ->.
  destruct o; reflexivity.
Qed.

(* ------------------------------------------------------------------ *)
(** ** Error handling of the bearer resolution *)

(** C10. In Keycloak mode [get_current_user] raises nothing but the HTTP
    401 with detail "Could not validate user.": whatever the body raises
    is replaced by it, and so are in particular a failing userinfo or
    introspection call, an inactive token (whose own detail is lost) and
    missing claims. *)
Theorem federated_failure_is_401 env token w :
  USE_KEYCLOAK env = true ->
  (forall e, fst (Service.get_current_user env token w) = Raise e ->
             e = HTTPException 401 "Could not validate user.")
  /\ (forall e w1, Service.resolve_keycloak env token w = (Raise e, w1) ->
        Service.get_current_user env token w =
          (Raise (HTTPException 401 "Could not validate user."), w1))
  /\ (forall e, openid_userinfo env token = Raise e ->
        Service.get_current_user env token w =
          (Raise (HTTPException 401 "Could not validate user."), w))
  /\ (forall ui e, openid_userinfo env token = Return ui ->
        openid_introspect env token = Raise e ->
        Service.get_current_user env token w =
          (Raise (HTTPException 401 "Could not validate user."), w))
  /\ (forall ui, openid_userinfo env token = Return ui ->
        openid_introspect env token = Return false ->
        Service.get_current_user env token w =
          (Raise (HTTPException 401 "Could not validate user."), w))
  /\ (forall ui, openid_userinfo env token = Return ui ->
        openid_introspect env token = Return true ->
        Py.truthy (Kc.preferred_username ui) = false
        \/ Py.truthy (Kc.sub ui) = false ->
        Service.get_current_user env token w =
          (Raise (HTTPException 401 "Could not validate user."), w)).
Proof.
  intros Hkc. split; [| split; [| split; [| split; [| split]]]].
  - intros e H. apply get_current_user_raises in H. exact H.
  - intros e w1 H.
    rewrite (get_current_user_of_body env token w (Raise e) w1);
      [reflexivity | rewrite Hkc; exact H].
  - intros e H.
    apply (get_current_user_of_body env token w (Raise e) w).
    rewrite Hkc. unfold Service.resolve_keycloak, bind, lift,
      KeycloakClient.verify_keycloak_token. rewrite H. reflexivity.
  - intros ui e H1 H2.
    apply (get_current_user_of_body env token w (Raise e) w).
    rewrite Hkc. unfold Service.resolve_keycloak, bind, lift,
      KeycloakClient.verify_keycloak_token. rewrite H1, H2. reflexivity.
  - intros ui H1 H2.
    apply (get_current_user_of_body env token w
             (Raise (HTTPException 401 "Token is not active.")) w).
    rewrite Hkc. unfold Service.resolve_keycloak, bind, lift,
      KeycloakClient.verify_keycloak_token. rewrite H1, H2. reflexivity.
  - intros ui H1 H2 H3.
    apply (get_current_user_of_body env token w
             (Raise Service.could_not_validate) w).
    rewrite Hkc. unfold Service.resolve_keycloak, bind, lift,
      KeycloakClient.verify_keycloak_token. rewrite H1, H2. simpl.
    destruct H3 as [-> | ->]; simpl; [reflexivity |].
    rewrite orb_true_r. reflexivity.
Qed.

Lemma federated_failure_is_401_witness :
  USE_KEYCLOAK (Scenario.keycloak_env (fun _ => Raise (KeycloakError "down"))
                                      true 204 5000) = true
  /\ Service.get_current_user
       (Scenario.keycloak_env (fun _ => Raise (KeycloakError "down")) true 204 5000)
       "t" (mkWorld [Scenario.grace] 0)
     = (Raise (HTTPException 401 "Could not validate user."),
        mkWorld [Scenario.grace] 0).
Proof.
  split; [reflexivity |].
  destruct (federated_failure_is_401
              (Scenario.keycloak_env (fun _ => Raise (KeycloakError "down"))
                                     true 204 5000)
              "t" (mkWorld [Scenario.grace] 0) eq_refl)
    as [_ [_ [Hinfo _]]].
  apply (Hinfo (KeycloakError "down")). reflexivity.
Defined.

(** C9. [get_current_user_optional] never raises: without a token (or
    with an empty one) it returns [None], and when the resolution of the
    token raises, whatever the reason, it returns [None] as well; a
    resolved user is passed on. *)
Theorem optional_resolution_never_raises env token w :
  (exists r, fst (Service.get_current_user_optional env token w) = Return r)
  /\ (Py.truthy token = false ->
        Service.get_current_user_optional env token w = (Return None, w))
  /\ (forall tok e, token = Some tok -> tok <> "" ->
        fst (Service.get_current_user env tok w) = Raise e ->
        fst (Service.get_current_user_optional env token w) = Return None)
  /\ (forall tok u, token = Some tok -> tok <> "" ->
        fst (Service.get_current_user env tok w) = Return u ->
        fst (Service.get_current_user_optional env token w) = Return (Some u)).
Proof.
  assert (forall tok, token = Some tok -> tok <> "" ->
            fst (Service.get_current_user_optional env token w)
            = match fst (Service.get_current_user env tok w) with
              | Return u => Return (Some u)
              | Raise _ => Return None
              end) as Hrun.
  { intros tok -> Hne. unfold Service.get_current_user_optional.
    destruct tok as [| c r]; [congruence |]. simpl.
    unfold try_except, bind.
    destruct (Service.get_current_user env (String c r) w) as [[u | e] w1] eqn:H.
    - reflexivity.
    - assert (e = Service.could_not_validate) as ->.
      { apply (get_current_user_raises env (String c r) w). rewrite H. reflexivity. }
      reflexivity. }
  split; [| split; [| split]].
  - destruct (Py.truthy token) eqn:T.
    + apply truthy_some in T as [tok [E [Hne _]]].
      rewrite (Hrun tok E Hne).
      destruct (fst (Service.get_current_user env tok w)); eauto.
    + unfold Service.get_current_user_optional. rewrite T. simpl. eauto.
  - intros T. unfold Service.get_current_user_optional. rewrite T. reflexivity.
  - intros tok e E Hne H. rewrite (Hrun tok E Hne), H. reflexivity.
  - intros tok u E Hne H. rewrite (Hrun tok E Hne), H. reflexivity.
Qed.

Lemma optional_resolution_never_raises_witness :
  fst (Service.get_current_user_optional
         (Scenario.keycloak_env (fun _ => Raise (KeycloakError "down"))
                                true 204 5000)
         (Some "t") (mkWorld [Scenario.grace] 0))
  = Return None.
Proof.
  destruct (optional_resolution_never_raises
              (Scenario.keycloak_env (fun _ => Raise (KeycloakError "down"))
                                     true 204 5000)
              (Some "t") (mkWorld [Scenario.grace] 0))
    as [_ [_ [Hraise _]]].
  apply (Hraise "t" Service.could_not_validate).
  - reflexivity.
  - discriminate.
  - reflexivity.
Defined.

(* ------------------------------------------------------------------ *)
(** ** Which row the bearer resolution returns *)

Lemma verify_keycloak_token_inv env token ti :
  KeycloakClient.verify_keycloak_token env token = Return ti ->
  exists ui,
    openid_userinfo env token = Return ui
    /\ openid_introspect env token = Return (Kc.ti_active ti)
    /\ Kc.ti_keycloak_user_id ti = Kc.sub ui
    /\ Kc.ti_preferred_username ti = Kc.preferred_username ui
    /\ Kc.ti_email ti = Kc.email ui.
Proof.
  unfold KeycloakClient.verify_keycloak_token, obind.
  destruct (openid_userinfo env token) as [ui |]; [| discriminate].
  destruct (openid_introspect env token) as [a |]; [| discriminate].
  intros H. inversion H; subst; simpl. exists ui. auto 6.
Qed.

Lemma upgrade_missing_id_fields kid u :
  User.id (Service.upgrade_missing_id kid u) = User.id u
  /\ User.keycloak_user_id (Service.upgrade_missing_id kid u)
     = (if Py.truthy (User.keycloak_user_id u)
        then User.keycloak_user_id u else Some kid)
  /\ User.username (Service.upgrade_missing_id kid u) = User.username u
  /\ User.email (Service.upgrade_missing_id kid u) = User.email u
  /\ User.last_synced_at (Service.upgrade_missing_id kid u) = User.last_synced_at u.
Proof.
  unfold Service.upgrade_missing_id.
  destruct (Py.truthy (User.keycloak_user_id u)); simpl; auto.
Qed.

Lemma synced_row_fields uname email now u :
  User.id (Service.synced_row uname email now u) = User.id u
  /\ User.keycloak_user_id (Service.synced_row uname email now u)
     = User.keycloak_user_id u
  /\ User.username (Service.synced_row uname email now u) = uname
  /\ User.email (Service.synced_row uname email now u)
     = Py.str_or email (User.email u)
  /\ User.last_synced_at (Service.synced_row uname email now u) = Some now.
Proof. unfold Service.synced_row. simpl. auto. Qed.

Lemma replace_row_length u table : length (replace_row u table) = length table.
Proof. unfold replace_row. apply length_map. Qed.




Lemma resolve_keycloak_run env token w kid uname email :
  KeycloakClient.verify_keycloak_token env token
  = Return (Kc.mkTokenInfo (Some kid) (Some uname) email true) ->
  kid <> "" -> uname <> "" ->
  Service.resolve_keycloak env token w
  = (user <- Service.find_candidate kid uname ;;
     match user with
     | None => Service.create_from_keycloak env kid uname email
     | Some u => Service.sync_existing env u kid uname email
     end) w.
Proof.
  intros Hv Nk Nu. unfold Service.resolve_keycloak.
  unfold bind at 1. unfold lift. rewrite Hv. simpl.
  destruct kid as [| c1 r1]; [congruence |].
  destruct uname as [| c2 r2]; [congruence |].
  reflexivity.
Qed.

(* ------------------------------------------------------------------ *)
(** ** A unique violation during the sync *)

(** C3 (as stated: refuted).  The row of "abc" is stale and the token
    renames it to "grace.h", a username another row holds: the sync hits
    the unique index, the call fails with 401 and the table is as it was,
    [last_synced_at] included. *)
Lemma sync_unique_violation_fails :
  Service.sync_existing
    (Scenario.keycloak_env
       (Scenario.claims "abc" "grace.h" (Some "grace@x.io")) true 204 5000)
    Scenario.grace "abc" "grace.h" (Some "grace@x.io")
    (mkWorld [Scenario.grace; Scenario.hopper] 0)
  = (Raise IntegrityError, mkWorld [Scenario.grace; Scenario.hopper] 2)
  /\ Service.get_current_user
       (Scenario.keycloak_env
          (Scenario.claims "abc" "grace.h" (Some "grace@x.io")) true 204 5000)
       "t" (mkWorld [Scenario.grace; Scenario.hopper] 0)
     = (Raise (HTTPException 401 "Could not validate user."),
        mkWorld [Scenario.grace; Scenario.hopper] 2).
Proof. split; vm_compute; reflexivity. Qed.

(** C3 (amended).  The candidate row is the row that carries the
    token's [sub] or, when no row does, the row with the token's
    username; a sync is due for it (it was never synced, a claim differs
    from it, or it is stale); and another row holds the username or the
    email that the sync writes.  Then the commit of the sync hits the
    unique index, the bearer resolution fails with HTTP 401 "Could not
    validate user." and the table is unchanged: the row keeps its
    username, its email and its [last_synced_at]. *)
Theorem sync_unique_violation_is_fatal env token w kid uname email u other :
  USE_KEYCLOAK env = true ->
  KeycloakClient.verify_keycloak_token env token
  = Return (Kc.mkTokenInfo (Some kid) (Some uname) email true) ->
  kid <> "" -> uname <> "" ->
  (filter (Service.by_keycloak_user_id kid) (rows w) = [u]
   \/ (filter (Service.by_keycloak_user_id kid) (rows w) = []
       /\ filter (Service.by_username uname) (rows w) = [u])) ->
  (User.last_synced_at u = None
   \/ User.username u <> uname
   \/ Service.email_differs u email = true
   \/ exists last,
        User.last_synced_at u = Some last
        /\ Service.total_seconds_gt (utcnow env (ticks w) - last)
                                    Service.SYNC_SECONDS = true) ->
  In other (rows w) ->
  User.id other <> User.id u ->
  (User.username other = uname
   \/ User.email other = Py.str_or email (User.email u)) ->
  exists w1,
    Service.get_current_user env token w
    = (Raise (HTTPException 401 "Could not validate user."), w1)
    /\ rows w1 = rows w.
Proof.
  intros Hkc Hv Nk Nu Hfound Hdue Hin Hid Hheld.
  assert (Service.find_candidate kid uname w = (Return (Some u), w)) as Hf.
  { unfold Service.find_candidate, bind, Db.select_where.
    destruct Hfound as [Fa | [Fa Fb]]; rewrite Fa; cbn [Db.scalar_one_or_none ret];
      [reflexivity | rewrite Fb; reflexivity]. }
  pose proof (upgrade_missing_id_fields kid u) as [Uid [_ [Un [Ue Ul]]]].
  set (u1 := Service.upgrade_missing_id kid u) in *.
  (* the sync is due *)
  assert (exists w0, Service.should_sync env u1 uname email w = (Return true, w0)
                     /\ rows w0 = rows w) as [w0 [Hs R0]].
  { destruct (Service.should_sync env u1 uname email w) as [o w0] eqn:Hs.
    exists w0. apply should_sync_inv in Hs as [R Hs]. split; [| exact R].
    f_equal. rewrite Ul in Hs.
    destruct (User.last_synced_at u) as [last |] eqn:El.
    - destruct Hs as [-> _]. f_equal.
      destruct Hdue as [H | [H | [H | [last' [H1 H2]]]]].
      + discriminate.
      + rewrite Un. apply String.eqb_neq in H. rewrite H.
        apply orb_true_iff. left. apply orb_true_r.
      + unfold Service.email_differs in *. rewrite Ue. rewrite H.
        apply orb_true_r.
      + injection H1 as <-. rewrite H2. reflexivity.
    - destruct Hs as [-> _]. reflexivity. }
  (* the commit is refused *)
  assert (forall now w2,
            rows w2 = rows w ->
            Db.commit_refresh (Service.synced_row uname email now u1) w2
            = (Raise IntegrityError, w2)) as Hcommit.
  { intros now w2 R2. unfold Db.commit_refresh.
    pose proof (synced_row_fields uname email now u1) as [Sid [_ [Sn [Se _]]]].
    assert (existsb (fun r => negb (User.id r =? User.id
                                      (Service.synced_row uname email now u1))%Z
                              && Db.conflicts
                                   (Service.synced_row uname email now u1) r)
                    (rows w2) = true) as ->; [| reflexivity].
    apply existsb_exists. exists other. split; [rewrite R2; exact Hin |].
    rewrite Sid, Uid.
    assert ((User.id other =? User.id u)%Z = false) as ->
      by (apply Z.eqb_neq; exact Hid).
    cbn [negb andb]. unfold Db.conflicts. rewrite Sn, Se, Ue.
    destruct Hheld as [H | H]; rewrite H, String.eqb_refl;
      [reflexivity | rewrite orb_true_r; reflexivity]. }
  set (w1 := mkWorld (rows w0) (S (ticks w0))).
  exists w1. split; [| exact R0].
  apply (get_current_user_of_body env token w (Raise IntegrityError) w1).
  rewrite Hkc, (resolve_keycloak_run env token w kid uname email Hv Nk Nu).
  unfold bind at 1. rewrite Hf.
  unfold Service.sync_existing. cbv zeta. fold u1.
  unfold bind at 1. rewrite Hs.
  unfold bind at 1. unfold datetime_utcnow at 1. fold w1.
  apply Hcommit. exact R0.
Qed.

Lemma sync_unique_violation_is_fatal_witness :
  exists w1,
    Service.get_current_user
      (Scenario.keycloak_env
         (Scenario.claims "abc" "grace.h" (Some "grace@x.io")) true 204 5000)
      "t" (mkWorld [Scenario.grace; Scenario.hopper] 0)
    = (Raise (HTTPException 401 "Could not validate user."), w1)
    /\ rows w1 = rows (mkWorld [Scenario.grace; Scenario.hopper] 0).
Proof.
  apply (sync_unique_violation_is_fatal
           (Scenario.keycloak_env
              (Scenario.claims "abc" "grace.h" (Some "grace@x.io")) true 204 5000)
           "t" (mkWorld [Scenario.grace; Scenario.hopper] 0)
           "abc" "grace.h" (Some "grace@x.io") Scenario.grace Scenario.hopper).
  - reflexivity.
  - reflexivity.
  - discriminate.
  - discriminate.
  - left. reflexivity.
  - right. left. discriminate.
  - right. left. reflexivity.
  - simpl. discriminate.
  - left. reflexivity.
Defined.

(* ------------------------------------------------------------------ *)
(** ** Just-in-time provisioning *)

(** C4 (as stated: refuted).  First login of "grace" without an email
    claim: the inserted row's address ends in "@keycloak.local", which is
    not the placeholder of the specification. *)
Lemma jit_placeholder_is_keycloak_local :
  Service.get_current_user
    (Scenario.keycloak_env (Scenario.claims "abc" "grace" None) true 204 5000)
    "t" (mkWorld [] 0)
  = (Return (User.mk 1 "grace" "grace@keycloak.local" "" (Some "abc")
                     (Some 5000) None),
     mkWorld [User.mk 1 "grace" "grace@keycloak.local" "" (Some "abc")
                      (Some 5000) None] 1)
  /\ "grace@keycloak.local" <> Spec.placeholder_email "grace".
Proof. split; [vm_compute; reflexivity | vm_compute; discriminate]. Qed.

(** C4 (amended).  When neither lookup finds a row and the email claim is
    empty, the row that the bearer resolution inserts and returns has
    [username] = the claim, [email] = username + "@keycloak.local", an
    empty [password], the token's [sub] as Keycloak id and the clock
    reading of the insert as [last_synced_at]. *)
Theorem jit_row_fields env token w kid uname email u w' :
  USE_KEYCLOAK env = true ->
  KeycloakClient.verify_keycloak_token env token
  = Return (Kc.mkTokenInfo (Some kid) (Some uname) email true) ->
  kid <> "" -> uname <> "" ->
  Service.find_candidate kid uname w = (Return None, w) ->
  Py.truthy email = false ->
  Service.get_current_user env token w = (Return u, w') ->
  rows w' = (rows w ++ [u])%list
  /\ User.username u = uname
  /\ User.email u = uname ++ "@keycloak.local"
  /\ User.password u = ""
  /\ User.keycloak_user_id u = Some kid
  /\ User.last_synced_at u = Some (utcnow env (ticks w)).
Proof.
  intros Hkc Hv Nk Nu Hf He H.
  apply get_current_user_inv in H. cbv zeta in H. rewrite Hkc in H.
  destruct H as [[u' [E H]] | [e [E _]]]; [| discriminate].
  inversion E; subst u'; clear E.
  rewrite (resolve_keycloak_run env token w kid uname email Hv Nk Nu) in H.
  unfold bind at 1 in H. rewrite Hf in H.
  apply create_from_keycloak_inv in H. cbv zeta in H.
  destruct H as [[E _] | [E R]]; [discriminate |].
  inversion E; subst u. split; [exact R |]. simpl.
  assert (Py.str_or email (uname ++ "@keycloak.local") = uname ++ "@keycloak.local")
    as ->.
  { destruct email as [[| c r] |]; simpl in *; congruence. }
  auto 6.
Qed.

Lemma jit_row_fields_witness :
  User.email (User.mk 1 "grace" "grace@keycloak.local" "" (Some "abc")
                      (Some 5000) None)
  = "grace" ++ "@keycloak.local".
Proof.
  apply (jit_row_fields
           (Scenario.keycloak_env (Scenario.claims "abc" "grace" None)
                                  true 204 5000)
           "t" (mkWorld [] 0) "abc" "grace" None
           (User.mk 1 "grace" "grace@keycloak.local" "" (Some "abc")
                    (Some 5000) None)
           (mkWorld [User.mk 1 "grace" "grace@keycloak.local" "" (Some "abc")
                             (Some 5000) None] 1)).
  - reflexivity.
  - reflexivity.
  - discriminate.
  - discriminate.
  - reflexivity.
  - reflexivity.
  - vm_compute. reflexivity.
Defined.

(* ------------------------------------------------------------------ *)
(** ** The staleness policy *)

(** C5 (as stated: refuted).  A row synced four milliseconds ago, same
    username, and a token without an email claim: the code decides to
    sync, the policy of the specification does not. *)
Lemma empty_email_claim_forces_sync :
  Service.should_sync
    (Scenario.keycloak_env (Scenario.claims "abc" "grace" None) true 204 5000)
    Scenario.grace "grace" None (mkWorld [Scenario.grace] 0)
  = (Return true, mkWorld [Scenario.grace] 1)
  /\ Spec.should_sync 5000 Scenario.grace "grace" None = false.
Proof. split; vm_compute; reflexivity. Qed.

(** C5 (amended).  [should_sync] is true exactly when [last_synced_at] is
    null, or the clock is more than 86400 seconds past it, or the row's
    username differs from the claim, or the row's email differs from the
    email claim, an absent claim counting as different. *)
Theorem should_sync_policy env user uname email w :
  exists b w',
    Service.should_sync env user uname email w = (Return b, w')
    /\ rows w' = rows w
    /\ (b = true <->
        User.last_synced_at user = None
        \/ (exists last, User.last_synced_at user = Some last
              /\ (86400 * 1000000 < utcnow env (ticks w) - last)%Z)
        \/ User.username user <> uname
        \/ Some (User.email user) <> email).
Proof.
  destruct (Service.should_sync env user uname email w) as [o w'] eqn:H.
  apply should_sync_inv in H as [R H].
  destruct (User.last_synced_at user) as [last |]; destruct H as [-> _].
  - eexists. exists w'. split; [reflexivity |]. split; [exact R |].
    rewrite !orb_true_iff. unfold Service.total_seconds_gt, Service.SYNC_SECONDS.
    rewrite Z.ltb_lt, negb_true_iff, String.eqb_neq.
    assert (Service.email_differs user email = true <-> Some (User.email user) <> email)
      as ->.
    { unfold Service.email_differs. destruct email as [e |].
      - rewrite negb_true_iff, String.eqb_neq. split; congruence.
      - split; [discriminate | reflexivity]. }
    split.
    + intros [[H | H] | H]; auto.
      right; left. exists last. auto.
    + intros [H | [[l [E H]] | [H | H]]]; auto.
      * discriminate.
      * inversion E; subst l. auto.
  - exists true, w'. split; [reflexivity |]. split; [exact R |].
    split; auto.
Qed.

(* ------------------------------------------------------------------ *)
(** ** Provisioning a user in Keycloak *)

Lemma obind_return {A B : Type} (o : outcome A) (k : A -> outcome B) b :
  obind o k = Return b <-> exists a, o = Return a /\ k a = Return b.
Proof.
  unfold obind. destruct o as [a | e]; split.
  - intros H. exists a. auto.
  - intros [a' [E H]]. inversion E; subst. exact H.
  - discriminate.
  - intros [a' [E _]]. discriminate.
Qed.







(* ------------------------------------------------------------------ *)
(** ** Local password verification *)

Lemma authenticate_user_inv env username password w o w' :
  Service.authenticate_user env username password w = (o, w') ->
  w' = w
  /\ match o with
     | Return (Some u) =>
         filter (Service.by_username username) (rows w) = [u]
         /\ Service.verify_password env password (User.password u) = Return true
     | Return None =>
         filter (Service.by_username username) (rows w) = []
         \/ exists u, filter (Service.by_username username) (rows w) = [u]
                      /\ Service.verify_password env password (User.password u)
                         = Return false
     | Raise e =>
         e = MultipleResultsFound
         \/ exists u, filter (Service.by_username username) (rows w) = [u]
                      /\ Service.verify_password env password (User.password u)
                         = Raise e
     end.
Proof.
  unfold Service.authenticate_user. intros H.
  unfold bind at 1 in H. unfold Db.select_where at 1 in H.
  apply bind_inv in H as [[c [w1 [H1 H2]]] | [e [H1 ->]]].
  - apply scalar_one_or_none_inv in H1 as [-> H1].
    destruct H1 as [[E Hc] | [[u [E Hc]] | [_ Hc]]]; try discriminate;
      inversion Hc; subst c.
    + apply ret_inv in H2 as [-> ->]. split; [reflexivity |]. left. exact E.
    + apply bind_inv in H2 as [[ok [w1 [H2 H3]]] | [e [H2 ->]]].
      * apply lift_inv in H2 as [H2 ->].
        destruct ok; simpl in H3; apply ret_inv in H3 as [-> ->];
          (split; [reflexivity |]).
        -- split; [exact E | symmetry; exact H2].
        -- right. exists u. split; [exact E | symmetry; exact H2].
      * apply lift_inv in H2 as [H2 ->]. split; [reflexivity |].
        right. exists u. split; [exact E | symmetry; exact H2].
  - apply scalar_one_or_none_inv in H1 as [-> H1]. split; [reflexivity |].
    destruct H1 as [[_ Hc] | [[u [_ Hc]] | [_ Hc]]]; try discriminate.
    inversion Hc. left. reflexivity.
Qed.

(** C6. A stored hash that is the empty string verifies no password, the
    empty one included: [verify_password] raises [ValueError], so that
    [authenticate_user] never returns a row whose hash is empty, and on
    finding such a row it raises instead of returning. *)
Theorem empty_hash_never_verifies env :
  (forall password,
     Service.verify_password env password "" = Raise (ValueError "Invalid salt"))
  /\ (forall username password w u,
        fst (Service.authenticate_user env username password w) = Return (Some u) ->
        User.password u <> "")
  /\ (forall username password w u,
        filter (Service.by_username username) (rows w) = [u] ->
        User.password u = "" ->
        Service.authenticate_user env username password w
        = (Raise (ValueError "Invalid salt"), w)).
Proof.
  assert (forall password,
            Service.verify_password env password ""
            = Raise (ValueError "Invalid salt")) as Hv by reflexivity.
  split; [exact Hv |]. split.
  - intros username password w u H Hempty.
    destruct (Service.authenticate_user env username password w) as [o w'] eqn:Ha.
    simpl in H. subst o.
    apply authenticate_user_inv in Ha as [_ [_ Hok]].
    rewrite Hempty, Hv in Hok. discriminate.
  - intros username password w u Hf Hempty.
    unfold Service.authenticate_user, bind, Db.select_where.
    rewrite Hf. simpl. unfold lift. rewrite Hempty, Hv. reflexivity.
Qed.

Lemma empty_hash_never_verifies_witness :
  Service.authenticate_user (Scenario.legacy_env 0) "ada.lovelace" ""
    (mkWorld [Scenario.federated_only] 0)
  = (Raise (ValueError "Invalid salt"), mkWorld [Scenario.federated_only] 0).
Proof.
  destruct (empty_hash_never_verifies (Scenario.legacy_env 0)) as [_ [_ Hfound]].
  apply (Hfound "ada.lovelace" "" (mkWorld [Scenario.federated_only] 0)
                Scenario.federated_only).
  - reflexivity.
  - reflexivity.
Defined.

(* ------------------------------------------------------------------ *)
(** ** The usernames chosen by [register] *)

Lemma str_map_append f a b :
  Py.str_map f (a ++ b) = Py.str_map f a ++ Py.str_map f b.
Proof. induction a as [| c a IH]; simpl; [reflexivity | rewrite IH; reflexivity]. Qed.

Lemma append_cancel (s a b : string) : s ++ a = s ++ b -> a = b.
Proof.
  induction s as [| c s IH]; simpl; intros H; [exact H |].
  inversion H. apply IH. assumption.
Qed.

Lemma append_length (a b : string) :
  String.length (a ++ b) = (String.length a + String.length b)%nat.
Proof. induction a as [| c a IH]; simpl; [reflexivity | rewrite IH; reflexivity]. Qed.

Lemma string_of_uint_inj d d' :
  NilEmpty.string_of_uint d = NilEmpty.string_of_uint d' -> d = d'.
Proof.
  intros H. pose proof (NilEmpty.usu d) as H1. rewrite H in H1.
  rewrite NilEmpty.usu in H1. congruence.
Qed.

Lemma str_of_nat_inj a b : Py.str_of_nat a = Py.str_of_nat b -> a = b.
Proof.
  unfold Py.str_of_nat. intros H.
  apply Unsigned.to_uint_inj. apply string_of_uint_inj. exact H.
Qed.

Lemma str_of_nat_nonempty n : Py.str_of_nat n <> "".
Proof.
  unfold Py.str_of_nat. intros H.
  change "" with (NilEmpty.string_of_uint Decimal.Nil) in H.
  apply string_of_uint_inj in H.
  pose proof (Unsigned.of_to n) as E. rewrite H in E. simpl in E. subst n.
  discriminate.
Qed.

Lemma candidate_inj base j k :
  Controller.candidate base j = Controller.candidate base k -> j = k.
Proof.
  assert (forall n, base <> base ++ Py.str_of_nat n) as Hne.
  { intros n H. apply (f_equal String.length) in H.
    rewrite append_length in H.
    pose proof (str_of_nat_nonempty n) as Hn.
    destruct (Py.str_of_nat n); [congruence | simpl in H; lia]. }
  destruct j, k; simpl; intros H.
  - reflexivity.
  - exfalso. exact (Hne _ H).
  - exfalso. symmetry in H. exact (Hne _ H).
  - apply append_cancel in H. apply str_of_nat_inj in H. exact H.
Qed.

Lemma candidate_succ base c :
  base ++ Py.str_of_nat (S c) = Controller.candidate base (S c).
Proof. reflexivity. Qed.

Lemma filter_by_username_nil uname table :
  filter (Service.by_username uname) table = [] <-> ~ In uname (usernames table).
Proof.
  unfold usernames. split.
  - intros E H. apply in_map_iff in H as [r [Er Hr]].
    pose proof (filter_nil_none _ _ E r Hr) as Hp.
    apply by_username_true in Er. congruence.
  - intros H. destruct (filter _ table) as [| r l] eqn:E; [reflexivity |].
    exfalso. apply H.
    assert (In r (filter (Service.by_username uname) table)) as Hin
      by (rewrite E; left; reflexivity).
    apply filter_In in Hin as [Hin Hp]. apply by_username_true in Hp.
    apply in_map_iff. exists r. auto.
Qed.

Lemma filter_by_username_cons uname table r l :
  filter (Service.by_username uname) table = r :: l -> In uname (usernames table).
Proof.
  intros E.
  assert (In r (filter (Service.by_username uname) table)) as Hin
    by (rewrite E; left; reflexivity).
  apply filter_In in Hin as [Hin Hp]. apply by_username_true in Hp.
  apply in_map_iff. exists r. auto.
Qed.

(** The loop, from the [c]-th candidate on. *)
Lemma probe_inv base fuel : forall c w o w',
  Controller.probe fuel base (Controller.candidate base c) (S c) w = (o, w') ->
  w' = w
  /\ match o with
     | Return (Some u) =>
         exists k, (c <= k < c + fuel)%nat
           /\ u = Controller.candidate base k
           /\ ~ In u (usernames (rows w))
           /\ forall j, (c <= j < k)%nat ->
                In (Controller.candidate base j) (usernames (rows w))
     | Return None =>
         forall j, (c <= j < c + fuel)%nat ->
           In (Controller.candidate base j) (usernames (rows w))
     | Raise e => e = MultipleResultsFound
     end.
Proof.
  induction fuel as [| fuel IH]; intros c w o w' H.
  - simpl in H. apply ret_inv in H as [-> ->]. split; [reflexivity |].
    intros j Hj. lia.
  - cbn [Controller.probe] in H.
    unfold bind at 1 in H. unfold Db.select_where at 1 in H.
    apply bind_inv in H as [[ex [w1 [H1 H2]]] | [e [H1 ->]]].
    + apply scalar_one_or_none_inv in H1 as [-> H1].
      destruct H1 as [[E Hc] | [[u [E Hc]] | [_ Hc]]]; try discriminate;
        inversion Hc; subst ex.
      * apply ret_inv in H2 as [-> ->]. split; [reflexivity |].
        exists c. split; [lia |]. split; [reflexivity |].
        split; [apply filter_by_username_nil; exact E |].
        intros j Hj. lia.
      * rewrite candidate_succ in H2. apply IH in H2 as [-> H2].
        split; [reflexivity |].
        apply filter_by_username_cons in E.
        assert (forall j, (c <= j < S c)%nat ->
                  In (Controller.candidate base j) (usernames (rows w))) as Hc0.
        { intros j Hj. assert (j = c) as -> by lia. exact E. }
        destruct o as [[u' |] | e].
        -- destruct H2 as [k [Hk [Eu [Hfree Hbelow]]]].
           exists k. split; [lia |]. split; [exact Eu |]. split; [exact Hfree |].
           intros j Hj. destruct (Nat.eq_dec j c) as [-> | Hn].
           ++ exact E.
           ++ apply Hbelow. lia.
        -- intros j Hj. destruct (Nat.eq_dec j c) as [-> | Hn].
           ++ exact E.
           ++ apply H2. lia.
        -- exact H2.
    + apply scalar_one_or_none_inv in H1 as [-> H1]. split; [reflexivity |].
      destruct H1 as [[_ Hc] | [[u [_ Hc]] | [_ Hc]]]; try discriminate.
      inversion Hc. reflexivity.
Qed.

(** More iterations than rows always reach the [break]. *)
Lemma probe_enough_fuel base fuel w :
  (length (rows w) < fuel)%nat ->
  fst (Controller.probe fuel base base 1 w) <> Return None.
Proof.
  intros Hfuel H.
  destruct (Controller.probe fuel base base 1 w) as [o w'] eqn:Hp.
  simpl in H. subst o.
  change base with (Controller.candidate base 0) in Hp at 2.
  apply probe_inv in Hp as [_ Hall].
  assert (NoDup (map (Controller.candidate base) (seq 0 fuel))) as Hnd.
  { apply Injective_map_NoDup; [| apply seq_NoDup].
    intros j k. apply candidate_inj. }
  assert (incl (map (Controller.candidate base) (seq 0 fuel)) (usernames (rows w)))
    as Hincl.
  { intros x Hx. apply in_map_iff in Hx as [j [<- Hj]].
    apply in_seq in Hj. apply Hall. lia. }
  pose proof (NoDup_incl_length Hnd Hincl) as Hlen.
  unfold usernames in Hlen. rewrite !length_map, length_seq in Hlen. lia.
Qed.

Lemma generate_username_inv base w o w' :
  Controller.generate_username base w = (o, w') ->
  w' = w
  /\ match o with
     | Return u =>
         exists k, u = Controller.candidate base k
           /\ ~ In u (usernames (rows w))
           /\ forall j, (j < k)%nat ->
                In (Controller.candidate base j) (usernames (rows w))
     | Raise e => e = MultipleResultsFound
     end.
Proof.
  unfold Controller.generate_username.
  pose proof (probe_enough_fuel base (S (length (rows w))) w (Nat.lt_succ_diag_r _))
    as Hfuel.
  destruct (Controller.probe (S (length (rows w))) base base 1 w) as [r w1] eqn:Hp.
  change base with (Controller.candidate base 0) in Hp at 2.
  apply probe_inv in Hp as [-> Hp].
  destruct r as [[u |] | e]; intros H; inversion H; subst.
  - split; [reflexivity |].
    destruct Hp as [k [_ [Eu [Hfree Hbelow]]]].
    exists k. split; [exact Eu |]. split; [exact Hfree |].
    intros j Hj. apply Hbelow. lia.
  - exfalso. apply Hfuel. reflexivity.
  - split; reflexivity.
Qed.

(** What a registration does to the table. *)
Lemma register_inv env req w o w' :
  Controller.register env req w = (o, w') ->
  match o with
  | Return resp =>
      exists k created,
        rows w' = (rows w ++ [created])%list
        /\ User.id created = Controller.user_id resp
        /\ User.id created = Db.fresh_id (rows w)
        /\ User.username created
           = Controller.candidate
               (Controller.base_username env (Controller.first_name req)
                                         (Controller.last_name req)) k
        /\ ~ In (User.username created) (usernames (rows w))
        /\ forall j, (j < k)%nat ->
             In (Controller.candidate
                   (Controller.base_username env (Controller.first_name req)
                                             (Controller.last_name req)) j)
                (usernames (rows w))
  | Raise _ => rows w' = rows w
  end.
Proof.
  unfold Controller.register, Controller.register_with. intros H.
  apply bind_inv in H as [[username [w1 [H1 H2]]] | [e [H1 ->]]].
  2:{ apply generate_username_inv in H1 as [-> _]. reflexivity. }
  apply generate_username_inv in H1 as [-> [k [Eu [Hfree Hbelow]]]].
  unfold bind at 1 in H2. unfold Db.select_where at 1 in H2.
  apply bind_inv in H2 as [[ex [w1 [H2 H3]]] | [e [H2 ->]]].
  2:{ apply scalar_one_or_none_inv in H2 as [-> _]. reflexivity. }
  apply scalar_one_or_none_inv in H2 as [-> _].
  destruct ex as [existing |].
  { apply raise_inv in H3 as [-> ->]. reflexivity. }
  destruct (USE_KEYCLOAK env).
  - apply try_except_inv in H3 as [[resp [H3 ->]] | [e [w1 [H3 H4]]]].
    + apply bind_inv in H3 as [[kc_id [w1 [H3 H4]]] | [e [_ He]]];
        [| discriminate].
      apply lift_inv in H3 as [_ ->].
      apply bind_inv in H4 as [[now [w1 [H4 H5]]] | [e [_ He]]];
        [| discriminate].
      apply utcnow_inv in H4 as [_ [R1 _]].
      apply bind_inv in H5 as [[created [w2 [H5 H6]]] | [e [_ He]]];
        [| discriminate].
      apply ret_inv in H6 as [E ->]. inversion E; subst resp.
      apply add_commit_refresh_inv in H5.
      destruct H5 as [[_ [Ec _]] | [_ [Ec [R2 _]]]]; [discriminate |].
      inversion Ec; subst created.
      exists k. eexists. split; [rewrite R2, R1; reflexivity |].
      simpl. split; [rewrite ?R1; reflexivity |].
      split; [rewrite ?R1; reflexivity |].
      split; [exact Eu |]. split; [exact Hfree | exact Hbelow].
    + apply raise_inv in H4 as [-> ->].
      apply bind_inv in H3 as [[kc_id [w2 [H3 H4]]] | [e' [H3 _]]].
      2:{ apply lift_inv in H3 as [_ ->]. reflexivity. }
      apply lift_inv in H3 as [_ ->].
      apply bind_inv in H4 as [[now [w2 [H4 H5]]] | [e' [H4 _]]].
      2:{ apply utcnow_inv in H4 as [H4 _]. discriminate. }
      apply utcnow_inv in H4 as [_ [R1 _]].
      apply bind_inv in H5 as [[created [w3 [H5 H6]]] | [e' [H5 _]]].
      { apply ret_inv in H6 as [H6 _]. discriminate. }
      apply add_commit_refresh_inv in H5.
      destruct H5 as [[_ [_ ->]] | [_ [Ec _]]]; [exact R1 | discriminate].
  - apply bind_inv in H3 as [[hashed [w1 [H3 H4]]] | [e [H3 ->]]].
    2:{ apply lift_inv in H3 as [_ ->]. reflexivity. }
    apply lift_inv in H3 as [_ ->].
    apply bind_inv in H4 as [[created [w1 [H4 H5]]] | [e [H4 ->]]].
    + apply ret_inv in H5 as [-> ->].
      apply add_commit_refresh_inv in H4.
      destruct H4 as [[_ [Ec _]] | [_ [Ec [R2 _]]]]; [discriminate |].
      inversion Ec; subst created.
      exists k. eexists. split; [rewrite R2; reflexivity |].
      simpl. split; [reflexivity |]. split; [reflexivity |].
      split; [exact Eu |]. split; [exact Hfree | exact Hbelow].
    + apply add_commit_refresh_inv in H4.
      destruct H4 as [[_ [_ ->]] | [_ [Ec _]]]; [reflexivity | discriminate].
Qed.

Lemma usernames_app a b : usernames (a ++ b)%list = (usernames a ++ usernames b)%list.
Proof. unfold usernames. apply map_app. Qed.


(* ------------------------------------------------------------------ *)
(** ** The Keycloak id of a row over a sequence of requests *)

Lemma table_kept_refl table : table_kept table table.
Proof.
  intros k r H. exists r. split; [exact H |]. split; [reflexivity | auto].
Qed.

Lemma table_kept_trans a b c : table_kept a b -> table_kept b c -> table_kept a c.
Proof.
  intros Hab Hbc k r H.
  destruct (Hab k r H) as [r1 [H1 [I1 K1]]].
  destruct (Hbc k r1 H1) as [r2 [H2 [I2 K2]]].
  exists r2. split; [exact H2 |]. split; [congruence |].
  intros Hset. rewrite <- (K1 Hset). apply K2.
  unfold is_set in *. rewrite (K1 Hset). exact Hset.
Qed.

Lemma table_kept_app table extra : table_kept table (table ++ extra)%list.
Proof.
  intros k r H. exists r. split; [| split; [reflexivity | auto]].
  rewrite nth_error_app1; [exact H |].
  apply nth_error_Some. congruence.
Qed.

Lemma keyed_inj table a b :
  keyed table -> In a table -> In b table -> User.id a = User.id b -> a = b.
Proof.
  unfold keyed. induction table as [| x t IH]; simpl; intros Hnd Ha Hb E.
  - destruct Ha.
  - inversion Hnd as [| ? ? Hnotin Hnd']; subst.
    destruct Ha as [-> | Ha], Hb as [-> | Hb].
    + reflexivity.
    + exfalso. apply Hnotin. rewrite E. apply in_map. exact Hb.
    + exfalso. apply Hnotin. rewrite <- E. apply in_map. exact Ha.
    + apply IH; assumption.
Qed.

Lemma replace_row_ids u table :
  map User.id (replace_row u table) = map User.id table.
Proof.
  unfold replace_row. rewrite map_map. apply map_ext. intros r.
  destruct (User.id r =? User.id u)%Z eqn:E; [| reflexivity].
  apply Z.eqb_eq in E. congruence.
Qed.

Lemma keyed_replace u table : keyed table -> keyed (replace_row u table).
Proof. unfold keyed. rewrite replace_row_ids. auto. Qed.

Lemma keyed_app_fresh u table :
  keyed table -> User.id u = Db.fresh_id table -> keyed (table ++ [u])%list.
Proof.
  unfold keyed. intros Hnd E. rewrite map_app. simpl.
  apply NoDup_app; [exact Hnd | constructor; [intros [] | constructor] |].
  intros x Hx [<- | []]. rewrite E in Hx. exact (fresh_id_not_in table Hx).
Qed.

Lemma table_kept_replace table u u' :
  keyed table -> In u table ->
  User.id u' = User.id u ->
  (is_set (User.keycloak_user_id u) ->
   User.keycloak_user_id u' = User.keycloak_user_id u) ->
  table_kept table (replace_row u' table).
Proof.
  intros Hkey Hin Hid Hkc k r H. unfold replace_row.
  rewrite nth_error_map, H. simpl.
  destruct (User.id r =? User.id u')%Z eqn:E.
  - apply Z.eqb_eq in E.
    assert (r = u) as ->.
    { apply (keyed_inj table); [exact Hkey | | exact Hin | congruence].
      apply nth_error_In with k. exact H. }
    exists u'. split; [reflexivity |]. split; [exact Hid | exact Hkc].
  - exists r. split; [reflexivity |]. split; [reflexivity | auto].
Qed.

Lemma resolve_keycloak_kept env token w o w' :
  keyed (rows w) ->
  Service.resolve_keycloak env token w = (o, w') ->
  keyed (rows w') /\ table_kept (rows w) (rows w').
Proof.
  intros Hkey H.
  apply resolve_keycloak_inv in H as [[e [_ ->]] | H].
  { split; [exact Hkey | apply table_kept_refl]. }
  destruct H as [ti [kid [uname [_ [_ [_ [_ [_ [_ H]]]]]]]]].
  destruct H as [[_ Hc] | [r [Hf Hs]]].
  - apply create_from_keycloak_inv in Hc. cbv zeta in Hc.
    destruct Hc as [[_ R] | [_ R]]; rewrite R.
    + split; [exact Hkey | apply table_kept_refl].
    + split; [| apply table_kept_app].
      apply keyed_app_fresh; [exact Hkey | reflexivity].
  - apply find_candidate_inv in Hf as [_ [Hin _]].
    apply sync_existing_inv in Hs. cbv zeta in Hs.
    destruct Hs as [[_ R] | [now [[_ R] | [_ R]]]]; rewrite R.
    + split; [exact Hkey | apply table_kept_refl].
    + split; [apply keyed_replace; exact Hkey |].
      pose proof (upgrade_missing_id_fields kid r) as [Uid [Ukc _]].
      pose proof (synced_row_fields uname (Kc.ti_email ti) now
                    (Service.upgrade_missing_id kid r)) as [Sid [Skc _]].
      apply (table_kept_replace (rows w) r); [exact Hkey | exact Hin | congruence |].
      intros Hset. unfold is_set in Hset. rewrite Skc, Ukc, Hset. reflexivity.
    + split; [exact Hkey | apply table_kept_refl].
Qed.

Lemma login_rows env username password w :
  rows (snd (Controller.login_for_access_token env username password w)) = rows w.
Proof.
  destruct (Controller.login_for_access_token env username password w)
    as [o w'] eqn:H. simpl.
  unfold Controller.login_for_access_token in H.
  destruct (USE_KEYCLOAK env).
  - apply try_except_inv in H as [[a [H _]] | [e [w1 [H1 H2]]]].
    + apply bind_inv in H as [[td [w1 [H1 H2]]] | [e [H1 _]]].
      * apply lift_inv in H1 as [_ ->]. apply ret_inv in H2 as [_ ->]. reflexivity.
      * apply lift_inv in H1 as [_ ->]. reflexivity.
    + apply raise_inv in H2 as [_ ->].
      apply bind_inv in H1 as [[td [w2 [H1 H2]]] | [e' [H1 _]]].
      * apply lift_inv in H1 as [_ ->]. apply ret_inv in H2 as [_ ->]. reflexivity.
      * apply lift_inv in H1 as [_ ->]. reflexivity.
  - apply bind_inv in H as [[user [w1 [H1 H2]]] | [e [H1 _]]].
    + apply authenticate_user_inv in H1 as [-> _].
      destruct user as [u |].
      * apply bind_inv in H2 as [[tok [w1 [H2 H3]]] | [e [H2 _]]].
        -- apply ret_inv in H3 as [_ ->].
           unfold Service.create_access_token in H2.
           apply bind_inv in H2 as [[now [w2 [H2 H3]]] | [e [H2 _]]].
           ++ apply utcnow_inv in H2 as [_ [R _]].
              apply ret_inv in H3 as [_ ->]. exact R.
           ++ apply utcnow_inv in H2 as [_ [R _]]. exact R.
        -- unfold Service.create_access_token in H2.
           apply bind_inv in H2 as [[now [w2 [H2 H3]]] | [e' [H2 _]]].
           ++ apply utcnow_inv in H2 as [_ [R _]].
              apply ret_inv in H3 as [_ ->]. exact R.
           ++ apply utcnow_inv in H2 as [_ [R _]]. exact R.
      * apply raise_inv in H2 as [_ ->]. reflexivity.
    + apply authenticate_user_inv in H1 as [-> _]. reflexivity.
Qed.

(** One request keeps the primary key unique and every row kept. *)
Lemma handle_kept env r table :
  keyed table ->
  keyed (handle env r table) /\ table_kept table (handle env r table).
Proof.
  intros Hkey. destruct r as [req | username password | token]; unfold handle.
  - destruct (Controller.register env req (mkWorld table 0)) as [o w'] eqn:H.
    apply register_inv in H. simpl in *.
    destruct o as [resp | e].
    + destruct H as [k [created [R [_ [Hid _]]]]]. rewrite R.
      split; [apply keyed_app_fresh; assumption | apply table_kept_app].
    + rewrite H. split; [exact Hkey | apply table_kept_refl].
  - rewrite login_rows. simpl. split; [exact Hkey | apply table_kept_refl].
  - destruct (Service.get_current_user env token (mkWorld table 0)) as [o w'] eqn:H.
    apply get_current_user_inv in H. cbv zeta in H. simpl.
    assert (exists o', (if USE_KEYCLOAK env then Service.resolve_keycloak env token
                        else Service.resolve_legacy env token) (mkWorld table 0)
                       = (o', w')) as [o' Hb].
    { destruct H as [[u [_ H]] | [e [_ H]]]; eauto. }
    destruct (USE_KEYCLOAK env).
    + apply (resolve_keycloak_kept env token (mkWorld table 0) o' w' Hkey Hb).
    + apply resolve_legacy_rows in Hb. subst w'. simpl.
      split; [exact Hkey | apply table_kept_refl].
Qed.

Lemma handle_all_kept rs : forall table,
  keyed table ->
  keyed (handle_all rs table) /\ table_kept table (handle_all rs table).
Proof.
  induction rs as [| [env r] rest IH]; intros table Hkey; simpl.
  - split; [exact Hkey | apply table_kept_refl].
  - destruct (handle_kept env r table Hkey) as [Hk1 Ht1].
    destruct (IH _ Hk1) as [Hk2 Ht2].
    split; [exact Hk2 | exact (table_kept_trans _ _ _ Ht1 Ht2)].
Qed.

(** C8 (as stated: refuted).  The row's Keycloak id is not null but the
    empty string, its last sync is two days old: resolving a token of
    "grace" with [sub] "abc" writes "abc" over it. *)
Lemma blank_keycloak_id_is_rewritten :
  User.keycloak_user_id Scenario.blank = Some ""
  /\ handle
       (Scenario.keycloak_env
          (Scenario.claims "abc" "grace" (Some "grace@x.io")) true 204
          (2 * Scenario.day_us))
       (ResolveBearer "t") [Scenario.blank]
     = [User.mk 1 "grace" "grace@x.io" "" (Some "abc")
                (Some (2 * Scenario.day_us + 1)) None].
Proof. split; vm_compute; reflexivity. Qed.

(** C8 (amended).  Over any sequence of Register, Login and ResolveBearer
    requests, a row whose Keycloak id is set (neither null nor the empty
    string) stays at its place in the table, under the same key and with
    the same Keycloak id. *)
Theorem keycloak_user_id_never_rewritten rs table k r :
  keyed table ->
  nth_error table k = Some r ->
  is_set (User.keycloak_user_id r) ->
  exists r',
    nth_error (handle_all rs table) k = Some r'
    /\ User.id r' = User.id r
    /\ User.keycloak_user_id r' = User.keycloak_user_id r.
Proof.
  intros Hkey Hk Hset.
  destruct (handle_all_kept rs table Hkey) as [_ Hkept].
  destruct (Hkept k r Hk) as [r' [H' [Hid Hkc]]].
  exists r'. split; [exact H' |]. split; [exact Hid | exact (Hkc Hset)].
Qed.

Lemma keycloak_user_id_never_rewritten_witness :
  exists r',
    nth_error
      (handle_all
         [(Scenario.keycloak_env
             (Scenario.claims "different" "grace" None) true 204
             (2 * Scenario.day_us),
           ResolveBearer "t");
          (Scenario.legacy_env 0, Register (Scenario.john "a@x.io" "pw"))]
         [Scenario.grace]) 0 = Some r'
    /\ User.id r' = User.id Scenario.grace
    /\ User.keycloak_user_id r' = User.keycloak_user_id Scenario.grace.
Proof.
  apply (keycloak_user_id_never_rewritten
           [(Scenario.keycloak_env
               (Scenario.claims "different" "grace" None) true 204
               (2 * Scenario.day_us),
             ResolveBearer "t");
            (Scenario.legacy_env 0, Register (Scenario.john "a@x.io" "pw"))]
           [Scenario.grace] 0%nat Scenario.grace).
  - unfold keyed. simpl. constructor; [intros [] | constructor].
  - reflexivity.
  - reflexivity.
Defined.

(* ------------------------------------------------------------------ *)
(** ** Every handler commits at most once *)

Lemma quiet_ret {A : Type} (a : A) : quiet (ret a).
Proof. intros w o w' H. apply ret_inv in H as [_ ->]. reflexivity. Qed.

Lemma quiet_raise {A : Type} (e : exn) : quiet (@raise A e).
Proof. intros w o w' H. apply raise_inv in H as [_ ->]. reflexivity. Qed.

Lemma quiet_lift {A : Type} (x : outcome A) : quiet (lift x).
Proof. intros w o w' H. apply lift_inv in H as [_ ->]. reflexivity. Qed.

Lemma quiet_utcnow env : quiet (datetime_utcnow env).
Proof. intros w o w' H. apply utcnow_inv in H as [_ [R _]]. exact R. Qed.

Lemma quiet_select_where p : quiet (Db.select_where p).
Proof. intros w o w' H. unfold Db.select_where in H. inversion H. reflexivity. Qed.

Lemma quiet_scalar_one_or_none l : quiet (Db.scalar_one_or_none l).
Proof.
  intros w o w' H. apply scalar_one_or_none_inv in H as [-> _]. reflexivity.
Qed.

Lemma quiet_bind {A B : Type} (m : M A) (k : A -> M B) :
  quiet m -> (forall a, quiet (k a)) -> quiet (bind m k).
Proof.
  intros Hm Hk w o w' H.
  apply bind_inv in H as [[a [w1 [H1 H2]]] | [e [H1 _]]].
  - rewrite (Hk a _ _ _ H2). exact (Hm _ _ _ H1).
  - exact (Hm _ _ _ H1).
Qed.

Lemma quiet_try_except {A : Type} (m : M A) (h : exn -> M A) :
  quiet m -> (forall e, quiet (h e)) -> quiet (try_except m h).
Proof.
  intros Hm Hh w o w' H.
  apply try_except_inv in H as [[a [H _]] | [e [w1 [H1 H2]]]].
  - exact (Hm _ _ _ H).
  - rewrite (Hh e _ _ _ H2). exact (Hm _ _ _ H1).
Qed.

Lemma quiet_stepping {A : Type} (m : M A) : quiet m -> stepping m.
Proof. intros Hm w o w' H. left. exact (Hm _ _ _ H). Qed.

Lemma stepping_after_quiet {A B : Type} (m : M A) (k : A -> M B) :
  quiet m -> (forall a, stepping (k a)) -> stepping (bind m k).
Proof.
  intros Hm Hk w o w' H.
  apply bind_inv in H as [[a [w1 [H1 H2]]] | [e [H1 _]]].
  - rewrite <- (Hm _ _ _ H1). exact (Hk a _ _ _ H2).
  - left. exact (Hm _ _ _ H1).
Qed.

Lemma stepping_then_quiet {A B : Type} (m : M A) (k : A -> M B) :
  stepping m -> (forall a, quiet (k a)) -> stepping (bind m k).
Proof.
  intros Hm Hk w o w' H.
  apply bind_inv in H as [[a [w1 [H1 H2]]] | [e [H1 _]]].
  - rewrite (Hk a _ _ _ H2). exact (Hm _ _ _ H1).
  - exact (Hm _ _ _ H1).
Qed.

Lemma stepping_try_except {A : Type} (m : M A) (h : exn -> M A) :
  stepping m -> (forall e, quiet (h e)) -> stepping (try_except m h).
Proof.
  intros Hm Hh w o w' H.
  apply try_except_inv in H as [[a [H _]] | [e [w1 [H1 H2]]]].
  - exact (Hm _ _ _ H).
  - rewrite (Hh e _ _ _ H2). exact (Hm _ _ _ H1).
Qed.

Lemma stepping_add_commit_refresh u : stepping (Db.add_commit_refresh u).
Proof.
  intros w o w' H. apply add_commit_refresh_inv in H.
  destruct H as [[_ [_ ->]] | [E [_ [R _]]]].
  - left. reflexivity.
  - right; left. exists u. auto.
Qed.

Lemma stepping_commit_refresh u : stepping (Db.commit_refresh u).
Proof.
  intros w o w' H. apply commit_refresh_inv in H. cbv zeta in H.
  destruct H as [[_ [_ ->]] | [E [_ [R _]]]].
  - left. reflexivity.
  - right; right. exists u. auto.
Qed.

Lemma quiet_select_one p :
  quiet (result <- Db.select_where p ;; Db.scalar_one_or_none result).
Proof.
  apply quiet_bind; [apply quiet_select_where |].
  intros l. apply quiet_scalar_one_or_none.
Qed.

Lemma quiet_find_candidate kid uname : quiet (Service.find_candidate kid uname).
Proof.
  intros w o w' H. apply find_candidate_inv in H as [-> _]. reflexivity.
Qed.

Lemma quiet_should_sync env user uname email :
  quiet (Service.should_sync env user uname email).
Proof. intros w o w' H. apply should_sync_inv in H as [R _]. exact R. Qed.

Lemma stepping_get_current_user env token :
  stepping (Service.get_current_user env token).
Proof.
  unfold Service.get_current_user.
  apply stepping_try_except; [| intros e; apply quiet_raise].
  destruct (USE_KEYCLOAK env).
  - unfold Service.resolve_keycloak.
    apply stepping_after_quiet; [apply quiet_lift |]. intros ti.
    destruct (negb (Kc.ti_active ti)); [apply quiet_stepping, quiet_raise |].
    destruct (negb _ || negb _); [apply quiet_stepping, quiet_raise |].
    apply stepping_after_quiet; [apply quiet_find_candidate |].
    intros [u |].
    + unfold Service.sync_existing.
      apply stepping_after_quiet; [apply quiet_should_sync |].
      intros [|]; [| apply quiet_stepping, quiet_ret].
      apply stepping_after_quiet; [apply quiet_utcnow |].
      intros now. apply stepping_commit_refresh.
    + unfold Service.create_from_keycloak.
      apply stepping_after_quiet; [apply quiet_utcnow |].
      intros now. apply stepping_add_commit_refresh.
  - intros w o w' H. left. apply resolve_legacy_rows in H. subst. reflexivity.
Qed.

Lemma stepping_register env req : stepping (Controller.register env req).
Proof.
  unfold Controller.register, Controller.register_with.
  apply stepping_after_quiet.
  { intros w o w' H. apply generate_username_inv in H as [-> _]. reflexivity. }
  intros username.
  apply stepping_after_quiet; [apply quiet_select_where |]. intros l.
  apply stepping_after_quiet; [apply quiet_scalar_one_or_none |].
  intros [existing |]; [apply quiet_stepping, quiet_raise |].
  destruct (USE_KEYCLOAK env).
  - apply stepping_try_except; [| intros e; apply quiet_raise].
    apply stepping_after_quiet; [apply quiet_lift |]. intros kc_id.
    apply stepping_after_quiet; [apply quiet_utcnow |]. intros now.
    apply stepping_then_quiet; [apply stepping_add_commit_refresh |].
    intros created. apply quiet_ret.
  - apply stepping_after_quiet; [apply quiet_lift |]. intros hashed.
    apply stepping_then_quiet; [apply stepping_add_commit_refresh |].
    intros created. apply quiet_ret.
Qed.

Lemma handle_step env r table : db_step table (handle env r table).
Proof.
  destruct r as [req | username password | token]; unfold handle.
  - destruct (Controller.register env req (mkWorld table 0)) as [o w'] eqn:H.
    exact (stepping_register env req _ _ _ H).
  - rewrite login_rows. left. reflexivity.
  - destruct (Service.get_current_user env token (mkWorld table 0)) as [o w'] eqn:H.
    exact (stepping_get_current_user env token _ _ _ H).
Qed.

(* ------------------------------------------------------------------ *)
(** ** The unique index on usernames *)

Lemma existsb_false_forall {A : Type} (p : A -> bool) l :
  existsb p l = false -> forall x, In x l -> p x = false.
Proof.
  intros E x Hx. destruct (p x) eqn:Px; [| reflexivity].
  assert (existsb p l = true) as Ht by (apply existsb_exists; eauto).
  congruence.
Qed.

Lemma conflicts_false_username u r :
  Db.conflicts u r = false -> User.username u <> User.username r.
Proof.
  unfold Db.conflicts. rewrite !orb_false_iff. intros [[H _] _].
  apply String.eqb_neq. exact H.
Qed.

Lemma replace_row_absent u table :
  ~ In (User.id u) (map User.id table) -> replace_row u table = table.
Proof.
  unfold replace_row. induction table as [| x t IH]; simpl; intros H.
  - reflexivity.
  - destruct (User.id x =? User.id u)%Z eqn:E.
    + apply Z.eqb_eq in E. exfalso. apply H. left. exact E.
    + rewrite IH; [reflexivity |]. intros Hin. apply H. right. exact Hin.
Qed.

Lemma replace_row_members u table x :
  In x (replace_row u table) -> x = u \/ In x table.
Proof.
  unfold replace_row. intros H. apply in_map_iff in H as [r [E Hr]].
  destruct (User.id r =? User.id u)%Z; subst; auto.
Qed.

Lemma unique_usernames_insert table u i :
  unique_usernames table ->
  existsb (Db.conflicts u) table = false ->
  unique_usernames (table ++ [User.with_id i u])%list.
Proof.
  unfold unique_usernames. intros Hnd E. rewrite usernames_app. simpl.
  apply NoDup_app; [exact Hnd | constructor; [intros [] | constructor] |].
  intros name Hin [<- | []].
  apply in_map_iff in Hin as [r [Er Hr]].
  pose proof (existsb_false_forall _ _ E r Hr) as Hc.
  apply conflicts_false_username in Hc. simpl in Er. congruence.
Qed.

Lemma unique_usernames_replace u : forall table,
  keyed table -> unique_usernames table ->
  existsb (fun r => negb (User.id r =? User.id u)%Z && Db.conflicts u r) table
  = false ->
  unique_usernames (replace_row u table).
Proof.
  unfold keyed, unique_usernames, usernames.
  induction table as [| x t IH]; intros Hkey Hnd E.
  - constructor.
  - simpl in Hkey, Hnd, E.
    inversion Hkey as [| ? ? Hidx Hkey']; subst.
    inversion Hnd as [| ? ? Hnamex Hnd']; subst.
    apply orb_false_iff in E as [Ex Et].
    change (replace_row u (x :: t))
      with ((if (User.id x =? User.id u)%Z then u else x) :: replace_row u t).
    destruct (User.id x =? User.id u)%Z eqn:Eid.
    + apply Z.eqb_eq in Eid.
      rewrite replace_row_absent by (rewrite <- Eid; exact Hidx).
      simpl. constructor; [| exact Hnd'].
      intros Hin. apply in_map_iff in Hin as [r [Er Hr]].
      pose proof (existsb_false_forall _ _ Et r Hr) as Hc. simpl in Hc.
      assert ((User.id r =? User.id u)%Z = false) as Hne.
      { apply Z.eqb_neq. intros Heq. apply Hidx. rewrite Eid, <- Heq.
        apply in_map. exact Hr. }
      rewrite Hne in Hc. simpl in Hc.
      apply conflicts_false_username in Hc. congruence.
    + simpl in Ex. simpl. constructor; [| apply IH; assumption].
      intros Hin. apply in_map_iff in Hin as [r [Er Hr]].
      apply replace_row_members in Hr as [-> | Hr].
      * apply conflicts_false_username in Ex. congruence.
      * apply Hnamex. rewrite <- Er. apply in_map. exact Hr.
Qed.

Lemma db_step_unique table table' :
  keyed table -> unique_usernames table -> db_step table table' ->
  unique_usernames table'.
Proof.
  intros Hkey Hnd [-> | [[u [E ->]] | [u [E ->]]]].
  - exact Hnd.
  - apply unique_usernames_insert; assumption.
  - apply unique_usernames_replace; assumption.
Qed.


(* ------------------------------------------------------------------ *)
(** ** Registration: the chosen username *)

Lemma unique_filter (f : User.t -> string) x table :
  NoDup (map f table) ->
  filter (fun r => String.eqb (f r) x) table = []
  \/ exists u, filter (fun r => String.eqb (f r) x) table = [u].
Proof.
  induction table as [| a t IH]; simpl; intros Hnd; [left; reflexivity |].
  inversion Hnd as [| ? ? Hnotin Hnd']; subst.
  destruct (String.eqb (f a) x) eqn:E.
  - right. exists a. f_equal.
    destruct (filter (fun r => String.eqb (f r) x) t) as [| b l] eqn:Ef;
      [reflexivity |].
    exfalso. apply Hnotin.
    assert (In b (filter (fun r => String.eqb (f r) x) t)) as Hb
      by (rewrite Ef; left; reflexivity).
    apply filter_In in Hb as [Hb Eb].
    apply String.eqb_eq in E. apply String.eqb_eq in Eb.
    rewrite E, <- Eb. apply in_map. exact Hb.
  - apply IH. exact Hnd'.
Qed.

Lemma unique_usernames_lookup username w :
  unique_usernames (rows w) ->
  exists c,
    (result <- Db.select_where (Service.by_username username) ;;
     Db.scalar_one_or_none result) w = (Return c, w).
Proof.
  intros Hu. unfold bind, Db.select_where.
  destruct (unique_filter User.username username (rows w) Hu) as [E | [u E]];
    unfold Service.by_username; rewrite E; simpl; unfold ret; eauto.
Qed.

Lemma probe_never_raises base w :
  unique_usernames (rows w) ->
  forall fuel username counter e,
    fst (Controller.probe fuel base username counter w) <> Raise e.
Proof.
  intros Hu. induction fuel as [| fuel IH]; intros username counter e.
  - simpl. discriminate.
  - cbn [Controller.probe].
    destruct (unique_usernames_lookup username w Hu) as [c Hc].
    unfold bind at 1. unfold bind at 1 in Hc.
    unfold Db.select_where at 1. unfold Db.select_where at 1 in Hc.
    unfold bind at 1. rewrite Hc.
    destruct c; [apply IH | simpl; discriminate].
Qed.

Lemma generate_username_returns base w :
  unique_usernames (rows w) ->
  exists username, Controller.generate_username base w = (Return username, w).
Proof.
  intros Hu.
  destruct (Controller.generate_username base w) as [o w'] eqn:H.
  pose proof (generate_username_inv _ _ _ _ H) as [-> Ho].
  destruct o as [username | e]; [eauto |].
  exfalso. unfold Controller.generate_username in H.
  pose proof (probe_never_raises base w Hu (S (length (rows w))) base 1%nat) as Hn.
  destruct (Controller.probe (S (length (rows w))) base base 1 w)
    as [[[x |] | e'] w1]; inversion H; subst.
  apply (Hn MultipleResultsFound). reflexivity.
Qed.









(* ================================================================== *)
(** * Further properties of the code around the claims *)

(* ------------------------------------------------------------------ *)
(** ** Legacy tokens *)

Lemma keyed_filter_by_id table u :
  keyed table -> In u table -> filter (Service.by_id (User.id u)) table = [u].
Proof.
  unfold keyed, Service.by_id.
  induction table as [| x t IH]; simpl; intros Hnd Hin; [destruct Hin |].
  inversion Hnd as [| ? ? Hnotin Hnd']; subst.
  assert (forall l, ~ In (User.id u) (map User.id l) ->
            filter (fun r => (User.id r =? User.id u)%Z) l = []) as Hnone.
  { induction l as [| y l IHl]; simpl; intros H; [reflexivity |].
    destruct (User.id y =? User.id u)%Z eqn:E.
    - apply Z.eqb_eq in E. exfalso. apply H. left. exact E.
    - apply IHl. intros Hc. apply H. right. exact Hc. }
  destruct Hin as [-> | Hin].
  - rewrite Z.eqb_refl. rewrite Hnone; [reflexivity | exact Hnotin].
  - destruct (User.id x =? User.id u)%Z eqn:E.
    + apply Z.eqb_eq in E. exfalso. apply Hnotin. rewrite E.
      apply in_map. exact Hin.
    + apply IH; assumption.
Qed.

Lemma resolve_legacy_inv env token w o w' :
  Service.resolve_legacy env token w = (o, w') ->
  w' = w
  /\ forall u, o = Return u ->
       exists payload name,
         jwt_decode env token = Return payload
         /\ jwt_sub payload = Some name
         /\ jwt_id payload = Some (User.id u)
         /\ filter (Service.by_id (User.id u)) (rows w) = [u].
Proof.
  intros H. split; [exact (resolve_legacy_rows _ _ _ _ _ H) |].
  intros u ->. unfold Service.resolve_legacy in H.
  apply bind_inv in H as [[payload [w1 [H1 H2]]] | [e [_ He]]]; [| discriminate].
  apply lift_inv in H1 as [H1 ->].
  destruct (jwt_sub payload) as [name |] eqn:Es;
    [| apply raise_inv in H2 as [H2 _]; discriminate].
  destruct (jwt_id payload) as [user_id |] eqn:Ei;
    [| apply raise_inv in H2 as [H2 _]; discriminate].
  unfold bind at 1 in H2. unfold Db.select_where at 1 in H2.
  apply bind_inv in H2 as [[c [w1 [H2 H3]]] | [e [_ He]]]; [| discriminate].
  apply scalar_one_or_none_inv in H2 as [-> H2].
  destruct c as [u' |]; [| apply raise_inv in H3 as [H3 _]; discriminate].
  apply ret_inv in H3 as [E _]. inversion E; subst u'.
  destruct H2 as [[_ Hc] | [[x [Ef Hc]] | [_ Hc]]]; try discriminate.
  inversion Hc; subst x.
  pose proof (filter_singleton_In _ _ _ Ef) as [_ Hid].
  unfold Service.by_id in Hid. apply Z.eqb_eq in Hid. subst user_id.
  exists payload, name. symmetry in H1. auto.
Qed.

Lemma resolve_legacy_found env token w payload name u :
  jwt_decode env token = Return payload ->
  jwt_sub payload = Some name ->
  jwt_id payload = Some (User.id u) ->
  filter (Service.by_id (User.id u)) (rows w) = [u] ->
  Service.resolve_legacy env token w = (Return u, w).
Proof.
  intros Hd Hs Hi Hf. unfold Service.resolve_legacy, bind, lift, Db.select_where.
  rewrite Hd, Hs, Hi, Hf. reflexivity.
Qed.

(** X1. In legacy mode the bearer resolution only reads: the table is
    left as it is, a returned user is the row of the table whose key is
    the token's [id] claim (the [sub] claim only has to be present), and
    every failure is the 401 "Could not validate user.". *)
Theorem legacy_resolution_reads_by_id env token w o w' :
  USE_KEYCLOAK env = false ->
  Service.get_current_user env token w = (o, w') ->
  w' = w
  /\ (forall u, o = Return u ->
        In u (rows w)
        /\ exists payload name,
             jwt_decode env token = Return payload
             /\ jwt_sub payload = Some name
             /\ jwt_id payload = Some (User.id u))
  /\ (forall e, o = Raise e ->
        e = HTTPException 401 "Could not validate user.")
  /\ (forall payload name u,
        jwt_decode env token = Return payload ->
        jwt_sub payload = Some name ->
        jwt_id payload = Some (User.id u) ->
        filter (Service.by_id (User.id u)) (rows w) = [u] ->
        o = Return u).
Proof.
  intros Hmode H.
  pose proof (get_current_user_inv _ _ _ _ _ H) as Hinv. cbv zeta in Hinv.
  rewrite Hmode in Hinv.
  split; [| split; [| split]].
  - destruct Hinv as [[u [_ Hb]] | [e [_ Hb]]];
      exact (resolve_legacy_rows _ _ _ _ _ Hb).
  - intros u ->. destruct Hinv as [[u' [E Hb]] | [e [E _]]]; [| discriminate].
    inversion E; subst u'.
    apply resolve_legacy_inv in Hb as [_ Hb].
    destruct (Hb u eq_refl) as [payload [name [Hd [Hs [Hi Hf]]]]].
    split; [exact (proj1 (filter_singleton_In _ _ _ Hf)) |].
    exists payload, name. auto.
  - intros e ->. destruct Hinv as [[u' [E _]] | [e' [E _]]]; [discriminate |].
    inversion E. reflexivity.
  - intros payload name u Hd Hs Hi Hf.
    pose proof (resolve_legacy_found env token w payload name u Hd Hs Hi Hf) as Hb.
    assert (Service.get_current_user env token w = (Return u, w)) as Hg.
    { apply (get_current_user_of_body env token w (Return u) w).
      rewrite Hmode. exact Hb. }
    rewrite Hg in H. inversion H. reflexivity.
Qed.

Lemma legacy_resolution_reads_by_id_witness :
  In Scenario2.ada (rows (mkWorld [Scenario2.ada; Scenario2.bob] 0)).
Proof.
  destruct (legacy_resolution_reads_by_id (Scenario2.toy_legacy_env 0) "jwt"
              (mkWorld [Scenario2.ada; Scenario2.bob] 0)
              (Return Scenario2.ada)
              (mkWorld [Scenario2.ada; Scenario2.bob] 0)
              eq_refl eq_refl) as [_ [Hret _]].
  exact (proj1 (Hret Scenario2.ada eq_refl)).
Defined.

(* ------------------------------------------------------------------ *)
(** ** Login *)

Lemma login_legacy_inv env username password w o w' :
  USE_KEYCLOAK env = false ->
  Controller.login_for_access_token env username password w = (o, w') ->
  rows w' = rows w
  /\ match o with
     | Return tok =>
         exists u,
           filter (Service.by_username username) (rows w) = [u]
           /\ Service.verify_password env password (User.password u) = Return true
           /\ tok = Controller.mkToken
                      (jwt_encode env (User.username u) (User.id u)
                         (utcnow env (ticks w) + Service.minutes 30))
                      "bearer"
           /\ ticks w' = S (ticks w)
     | Raise e => True
     end.
Proof.
  intros Hmode H.
  split.
  { rewrite <- (login_rows env username password w). rewrite H. reflexivity. }
  unfold Controller.login_for_access_token in H. rewrite Hmode in H.
  destruct o as [tok | e]; [| exact I].
  apply bind_inv in H as [[user [w1 [H1 H2]]] | [e [_ He]]]; [| discriminate].
  apply authenticate_user_inv in H1 as [-> H1].
  destruct user as [u |]; [| apply raise_inv in H2 as [H2 _]; discriminate].
  destruct H1 as [Hf Hv].
  apply bind_inv in H2 as [[token [w1 [H2 H3]]] | [e [_ He]]]; [| discriminate].
  apply ret_inv in H3 as [E ->]. inversion E; subst tok.
  unfold Service.create_access_token in H2.
  apply bind_inv in H2 as [[now [w2 [H2 H3]]] | [e [_ He]]]; [| discriminate].
  apply utcnow_inv in H2 as [En [_ Ht]]. inversion En; subst now.
  apply ret_inv in H3 as [E' ->]. inversion E'; subst token.
  exists u. auto.
Qed.

(** X2. In Keycloak mode the login hands out Keycloak's access token as
    it is and never looks at the table, and whatever goes wrong is the one
    401 "Incorrect username or password".  In legacy mode an unknown
    username and a password that bcrypt refuses give that same 401, so the
    answer does not tell which of the two it was. *)
Theorem login_outcomes env username password w :
  (USE_KEYCLOAK env = true ->
   Controller.login_for_access_token env username password w
   = (match openid_token env username password with
      | Return t => Return (Controller.mkToken (Kc.access_token t) "bearer")
      | Raise _ => Raise (HTTPException 401 "Incorrect username or password")
      end, w))
  /\ (USE_KEYCLOAK env = false ->
      filter (Service.by_username username) (rows w) = [] ->
      Controller.login_for_access_token env username password w
      = (Raise (HTTPException 401 "Incorrect username or password"), w))
  /\ (USE_KEYCLOAK env = false ->
      forall u,
        filter (Service.by_username username) (rows w) = [u] ->
        Service.verify_password env password (User.password u) = Return false ->
        Controller.login_for_access_token env username password w
        = (Raise (HTTPException 401 "Incorrect username or password"), w)).
Proof.
  split; [| split].
  - intros Hmode. unfold Controller.login_for_access_token. rewrite Hmode.
    unfold try_except, bind, lift, KeycloakClient.authenticate_with_keycloak, obind.
    destruct (openid_token env username password); reflexivity.
  - intros Hmode Hf. unfold Controller.login_for_access_token. rewrite Hmode.
    unfold Service.authenticate_user, bind, Db.select_where. rewrite Hf.
    reflexivity.
  - intros Hmode u Hf Hv. unfold Controller.login_for_access_token.
    rewrite Hmode.
    unfold Service.authenticate_user, bind, Db.select_where, lift.
    rewrite Hf. simpl. rewrite Hv. reflexivity.
Qed.

Lemma login_outcomes_witness :
  Controller.login_for_access_token (Scenario2.toy_legacy_env 0)
    "ada.lovelace" "wrong" (mkWorld [Scenario2.ada; Scenario2.bob] 0)
  = (Raise (HTTPException 401 "Incorrect username or password"),
     mkWorld [Scenario2.ada; Scenario2.bob] 0).
Proof.
  destruct (login_outcomes (Scenario2.toy_legacy_env 0) "ada.lovelace" "wrong"
              (mkWorld [Scenario2.ada; Scenario2.bob] 0)) as [_ [_ Hwrong]].
  apply (Hwrong eq_refl Scenario2.ada); reflexivity.
Defined.

(** X3. A legacy login that succeeds found the row of that username and
    bcrypt accepted the password; the token is the JWT of the row's
    username and key, expiring 30 minutes after the clock reading, and the
    table is untouched.  Presented again, a token that decodes to that
    username and key resolves to the very row that logged in. *)
Theorem legacy_login_then_resolve env username password w tok w1 :
  USE_KEYCLOAK env = false ->
  keyed (rows w) ->
  Controller.login_for_access_token env username password w = (Return tok, w1) ->
  exists u,
    In u (rows w)
    /\ User.username u = username
    /\ Service.verify_password env password (User.password u) = Return true
    /\ tok = Controller.mkToken
               (jwt_encode env (User.username u) (User.id u)
                  (utcnow env (ticks w) + 30 * 60 * 1000000))
               "bearer"
    /\ rows w1 = rows w
    /\ (jwt_decode env (Controller.access_token tok)
        = Return (mkJwtPayload (Some (User.username u)) (Some (User.id u))) ->
        Service.get_current_user env (Controller.access_token tok) w1
        = (Return u, w1)).
Proof.
  intros Hmode Hkey H.
  apply login_legacy_inv in H as [R [u [Hf [Hv [Et _]]]]]; [| exact Hmode].
  pose proof (filter_singleton_In _ _ _ Hf) as [Hin Hname].
  apply by_username_true in Hname.
  exists u. split; [exact Hin |]. split; [exact Hname |]. split; [exact Hv |].
  split; [exact Et |]. split; [exact R |].
  intros Hd.
  apply (get_current_user_of_body env _ w1 (Return u) w1).
  rewrite Hmode.
  apply (resolve_legacy_found env _ w1 _ (User.username u) u Hd);
    [reflexivity | reflexivity |].
  rewrite R. apply keyed_filter_by_id; assumption.
Qed.

Lemma legacy_login_then_resolve_witness :
  exists u,
    In u [Scenario2.ada; Scenario2.bob]
    /\ User.username u = "ada.lovelace"
    /\ Service.get_current_user (Scenario2.toy_legacy_env 0) "jwt"
         (mkWorld [Scenario2.ada; Scenario2.bob] 1)
       = (Return u, mkWorld [Scenario2.ada; Scenario2.bob] 1).
Proof.
  destruct (legacy_login_then_resolve (Scenario2.toy_legacy_env 0)
              "ada.lovelace" "secret"
              (mkWorld [Scenario2.ada; Scenario2.bob] 0)
              (Controller.mkToken "jwt" "bearer")
              (mkWorld [Scenario2.ada; Scenario2.bob] 1))
    as [u [Hin [Hname [Hv [_ [_ Hres]]]]]].
  - reflexivity.
  - unfold keyed. simpl.
    constructor; [simpl; intros [H | []]; discriminate |].
    constructor; [intros [] | constructor].
  - vm_compute. reflexivity.
  - exists u. split; [exact Hin |]. split; [exact Hname |].
    apply Hres. simpl.
    destruct Hin as [<- | [<- | []]]; [reflexivity | discriminate].
Defined.

(* ------------------------------------------------------------------ *)
(** ** What the Keycloak-mode resolution hands back *)

(** The three ways [sync_existing] ends. *)
Lemma sync_existing_cases env u kid uname email w o w' :
  Service.sync_existing env u kid uname email w = (o, w') ->
  let u1 := Service.upgrade_missing_id kid u in
  (exists last,
     User.last_synced_at u1 = Some last
     /\ Service.total_seconds_gt (utcnow env (ticks w) - last) Service.SYNC_SECONDS
        = false
     /\ User.username u1 = uname
     /\ Service.email_differs u1 email = false
     /\ o = Return u1 /\ rows w' = rows w /\ ticks w' = S (ticks w))
  \/ (exists n,
        (ticks w <= n < ticks w')%nat
        /\ let u2 := Service.synced_row uname email (utcnow env n) u1 in
           (existsb (fun r => negb (User.id r =? User.id u2)%Z && Db.conflicts u2 r)
                    (rows w) = false
            /\ o = Return u2 /\ rows w' = replace_row u2 (rows w))
           \/ (o = Raise IntegrityError /\ rows w' = rows w)).
Proof.
  unfold Service.sync_existing. cbv zeta. intros H.
  apply bind_inv in H as [[stale [w1 [H1 H2]]] | [e [H1 _]]].
  2:{ apply should_sync_inv in H1 as [_ H1].
      destruct (User.last_synced_at _); destruct H1 as [H1 _]; discriminate. }
  apply should_sync_inv in H1 as [R1 H1].
  destruct stale.
  - right.
    apply bind_inv in H2 as [[now [w2 [H2 H3]]] | [e [H2 _]]].
    2:{ apply utcnow_inv in H2 as [H2 _]. discriminate. }
    apply utcnow_inv in H2 as [En [R2 T2]]. inversion En; subst now.
    apply commit_refresh_inv in H3. cbv zeta in H3.
    exists (ticks w1).
    assert (ticks w <= ticks w1)%nat as Hle.
    { destruct (User.last_synced_at _); destruct H1 as [_ H1]; lia. }
    destruct H3 as [[_ [-> ->]] | [Ec [-> [R3 T3]]]].
    + split; [lia |]. right. split; [reflexivity | congruence].
    + split; [lia |]. left. rewrite <- R1, <- R2.
      split; [exact Ec |]. split; [reflexivity |]. exact R3.
  - left. apply ret_inv in H2 as [-> ->].
    destruct (User.last_synced_at (Service.upgrade_missing_id kid u)) as [last |];
      destruct H1 as [Ev Ht]; [| discriminate].
    inversion Ev as [Hb]. symmetry in Hb.
    apply orb_false_iff in Hb as [Hb He].
    apply orb_false_iff in Hb as [Hg Hn].
    apply negb_false_iff in Hn. apply String.eqb_eq in Hn.
    exists last. auto 10.
Qed.

(** X4. A user returned in Keycloak mode mirrors the token: its username
    is the [preferred_username] claim, its email is the [email] claim
    whenever that claim is non-empty, and it carries a [last_synced_at]. *)
Theorem resolved_user_mirrors_claims env token w ui u w' :
  USE_KEYCLOAK env = true ->
  openid_userinfo env token = Return ui ->
  Service.get_current_user env token w = (Return u, w') ->
  Some (User.username u) = Kc.preferred_username ui
  /\ (Py.truthy (Kc.email ui) = true -> Some (User.email u) = Kc.email ui)
  /\ exists t, User.last_synced_at u = Some t.
Proof.
  intros Hkc Hui H.
  apply get_current_user_inv in H. cbv zeta in H. rewrite Hkc in H.
  destruct H as [[u' [E H]] | [e [E _]]]; [| discriminate].
  inversion E; subst u'; clear E.
  apply resolve_keycloak_inv in H as [[e [E _]] | H]; [discriminate |].
  destruct H as [ti [kid [uname [Hv [_ [Ek [Nk [Eu [_ H]]]]]]]]].
  apply verify_keycloak_token_inv in Hv as [ui' [Hui' [_ [_ [Ename Eemail]]]]].
  rewrite Hui in Hui'. inversion Hui'; subst ui'; clear Hui'.
  rewrite Eu in Ename. rewrite <- Ename, <- Eemail.
  assert (forall x, Py.truthy (Kc.ti_email ti) = true ->
            Some (Py.str_or (Kc.ti_email ti) x) = Kc.ti_email ti) as Hor.
  { intros x T. apply truthy_some in T as [s [Es [_ Hs]]].
    rewrite (Hs x). symmetry. exact Es. }
  destruct H as [[_ Hc] | [r [_ Hs]]].
  - apply create_from_keycloak_inv in Hc. cbv zeta in Hc.
    destruct Hc as [[E _] | [E _]]; [discriminate |].
    inversion E; subst u. simpl.
    split; [reflexivity |]. split; [apply Hor | eauto].
  - apply sync_existing_cases in Hs. cbv zeta in Hs.
    pose proof (upgrade_missing_id_fields kid r) as [_ [_ [Un [Ue Ul]]]].
    destruct Hs as [[last [Hl [_ [Hn [He [E _]]]]]] | [n [_ [[_ [E _]] | [E _]]]]];
      try discriminate; inversion E; subst u.
    + split; [congruence |]. split; [| eauto].
      intros T. unfold Service.email_differs in He.
      destruct (Kc.ti_email ti) as [e |]; [| discriminate].
      apply negb_false_iff in He. apply String.eqb_eq in He. congruence.
    + pose proof (synced_row_fields uname (Kc.ti_email ti) (utcnow env n)
                    (Service.upgrade_missing_id kid r)) as [_ [_ [Sn [Se Sl]]]].
      rewrite Sn, Se, Sl. split; [reflexivity |]. split; [apply Hor | eauto].
Qed.

Lemma resolved_user_mirrors_claims_witness :
  Some (User.username
          (User.mk 1 "grace.h" "grace@x.io" "" (Some "abc") (Some 5001) None))
  = Some "grace.h".
Proof.
  destruct (resolved_user_mirrors_claims
              (Scenario.keycloak_env
                 (Scenario.claims "abc" "grace.h" (Some "grace@x.io")) true 204 5000)
              "t" (mkWorld [Scenario.grace] 0)
              (Kc.mkUserInfo (Some "abc") (Some "grace.h") (Some "grace@x.io"))
              (User.mk 1 "grace.h" "grace@x.io" "" (Some "abc") (Some 5001) None)
              (mkWorld [User.mk 1 "grace.h" "grace@x.io" "" (Some "abc")
                                (Some 5001) None] 2)
              eq_refl eq_refl) as [Hname _].
  - vm_compute. reflexivity.
  - exact Hname.
Defined.

(** X5. Bounded staleness: the [last_synced_at] of a user returned in
    Keycloak mode is at most 86400 seconds behind a clock reading taken
    during the call. *)
Theorem resolved_user_is_fresh env token w u w' :
  USE_KEYCLOAK env = true ->
  Service.get_current_user env token w = (Return u, w') ->
  exists t n,
    User.last_synced_at u = Some t
    /\ (ticks w <= n < ticks w')%nat
    /\ (utcnow env n - t <= 86400 * 1000000)%Z.
Proof.
  intros Hkc H.
  apply get_current_user_inv in H. cbv zeta in H. rewrite Hkc in H.
  destruct H as [[u' [E H]] | [e [E _]]]; [| discriminate].
  inversion E; subst u'; clear E.
  apply resolve_keycloak_inv in H as [[e [E _]] | H]; [discriminate |].
  destruct H as [ti [kid [uname [_ [_ [_ [_ [_ [_ H]]]]]]]]].
  destruct H as [[_ Hc] | [r [_ Hs]]].
  - unfold Service.create_from_keycloak in Hc.
    apply bind_inv in Hc as [[now [w1 [H1 H2]]] | [e [_ He]]]; [| discriminate].
    apply utcnow_inv in H1 as [En [_ T1]]. inversion En; subst now.
    apply add_commit_refresh_inv in H2.
    destruct H2 as [[_ [E _]] | [_ [E [_ T2]]]]; [discriminate |].
    inversion E; subst u. simpl.
    exists (utcnow env (ticks w)), (ticks w).
    split; [reflexivity |]. split; lia.
  - apply sync_existing_cases in Hs. cbv zeta in Hs.
    destruct Hs as [[last [Hl [Hg [_ [_ [E [_ Ht]]]]]]] | [n [Hn [[_ [E _]] | [E _]]]]];
      try discriminate; inversion E; subst u.
    + exists last, (ticks w). split; [exact Hl |]. split; [lia |].
      unfold Service.total_seconds_gt, Service.SYNC_SECONDS in Hg.
      apply Z.ltb_ge in Hg. exact Hg.
    + exists (utcnow env n), n.
      pose proof (synced_row_fields uname (Kc.ti_email ti) (utcnow env n)
                    (Service.upgrade_missing_id kid r)) as [_ [_ [_ [_ Sl]]]].
      split; [exact Sl |]. split; [exact Hn | lia].
Qed.

Lemma resolved_user_is_fresh_witness :
  exists t n,
    User.last_synced_at Scenario.grace = Some t
    /\ (0 <= n < 1)%nat
    /\ (Scenario.clock 5000 n - t <= 86400 * 1000000)%Z.
Proof.
  apply (resolved_user_is_fresh
           (Scenario.keycloak_env
              (Scenario.claims "abc" "grace" (Some "grace@x.io")) true 204 5000)
           "t" (mkWorld [Scenario.grace] 0) Scenario.grace
           (mkWorld [Scenario.grace] 1)).
  - reflexivity.
  - vm_compute. reflexivity.
Defined.

(* ------------------------------------------------------------------ *)
(** ** Registration: failures and the stored row *)

(** X6. When the address of the request is the email of a row, the
    registration stops with HTTP 400 "Email already exists": the table is
    as it was and the outcome is the same under every environment, so
    Keycloak is not asked to create anything. *)
Theorem register_email_taken env req w r :
  unique_usernames (rows w) ->
  filter (Service.by_email (Controller.email req)) (rows w) = [r] ->
  Controller.register env req w
  = (Raise (HTTPException 400 "Email already exists"), w).
Proof.
  intros Hu Hf. unfold Controller.register, Controller.register_with.
  destruct (generate_username_returns
              (Controller.base_username env (Controller.first_name req)
                                        (Controller.last_name req)) w Hu)
    as [username Hg].
  unfold bind at 1. rewrite Hg.
  unfold bind, Db.select_where. rewrite Hf. reflexivity.
Qed.

Lemma register_email_taken_witness :
  Controller.register (Scenario2.conflict_env 0)
    (Scenario.john "ada@x.io" "pw") (mkWorld [Scenario2.ada; Scenario2.bob] 0)
  = (Raise (HTTPException 400 "Email already exists"),
     mkWorld [Scenario2.ada; Scenario2.bob] 0).
Proof.
  apply (register_email_taken (Scenario2.conflict_env 0)
           (Scenario.john "ada@x.io" "pw")
           (mkWorld [Scenario2.ada; Scenario2.bob] 0) Scenario2.ada).
  - unfold unique_usernames. simpl.
    constructor; [simpl; intros [H | []]; discriminate |].
    constructor; [intros [] | constructor].
  - reflexivity.
Defined.

(** X7. In Keycloak mode a registration that fails leaves the table as
    it was and fails with HTTP 400 "Email already exists", with HTTP 500
    "Failed to create user: ..." or on an ambiguous lookup; in particular,
    when the email is free and the provisioning in Keycloak raises, the
    answer is that 500 carrying the message of the exception. *)
Theorem register_keycloak_failure env req w :
  USE_KEYCLOAK env = true ->
  (forall e w',
     Controller.register env req w = (Raise e, w') ->
     rows w' = rows w
     /\ (e = HTTPException 400 "Email already exists"
         \/ (exists d, e = HTTPException 500 ("Failed to create user: " ++ d))
         \/ e = MultipleResultsFound))
  /\ (forall username e0,
        Controller.generate_username
          (Controller.base_username env (Controller.first_name req)
                                    (Controller.last_name req)) w
        = (Return username, w) ->
        filter (Service.by_email (Controller.email req)) (rows w) = [] ->
        KeycloakClient.create_user_in_keycloak env username
          (Controller.email req) (Controller.password req)
          (Some (Controller.first_name req)) (Some (Controller.last_name req))
          (Controller.date_of_birth req) (Controller.phone_number req)
        = Raise e0 ->
        Controller.register env req w
        = (Raise (HTTPException 500 ("Failed to create user: " ++ str_of_exn e0)),
           w)).
Proof.
  intros Hkc. split.
  - intros e w' H.
    split; [exact (register_inv env req w (Raise e) w' H) |].
    unfold Controller.register, Controller.register_with in H.
    apply bind_inv in H as [[username [w1 [H1 H2]]] | [e' [H1 E]]].
    2:{ apply generate_username_inv in H1 as [_ H1]. inversion E; subst. auto. }
    unfold bind at 1 in H2. unfold Db.select_where at 1 in H2.
    apply bind_inv in H2 as [[ex [w2 [H2 H3]]] | [e' [H2 E]]].
    2:{ apply scalar_one_or_none_inv in H2 as [_ H2]. inversion E; subst e'.
        destruct H2 as [[_ Hc] | [[u [_ Hc]] | [_ Hc]]]; try discriminate.
        inversion Hc. auto. }
    destruct ex as [existing |].
    { apply raise_inv in H3 as [E _]. inversion E. auto. }
    rewrite Hkc in H3.
    apply try_except_inv in H3 as [[a [_ E]] | [e' [w3 [_ H4]]]]; [discriminate |].
    apply raise_inv in H4 as [E _]. right; left. exists (str_of_exn e').
    inversion E. reflexivity.
  - intros username e0 Hg Hf Hc. unfold Controller.register, Controller.register_with.
    unfold bind at 1. rewrite Hg.
    unfold bind at 1. unfold Db.select_where at 1.
    unfold bind at 1. rewrite Hf. cbn [Db.scalar_one_or_none ret].
    rewrite Hkc. unfold try_except, bind, lift. rewrite Hc. reflexivity.
Qed.

Lemma register_keycloak_failure_witness :
  Controller.register (Scenario2.conflict_env 0)
    (Scenario.john "john@x.io" "pw") (mkWorld [Scenario2.ada] 0)
  = (Raise (HTTPException 500
              ("Failed to create user: "
               ++ "409 Client Error: Conflict for url: "
               ++ "http://localhost:8080/admin/realms/linksy/users")),
     mkWorld [Scenario2.ada] 0).
Proof.
  destruct (register_keycloak_failure (Scenario2.conflict_env 0)
              (Scenario.john "john@x.io" "pw") (mkWorld [Scenario2.ada] 0)
              eq_refl) as [_ Hprov].
  apply (Hprov "john.doe"
           (RequestException
              ("409 Client Error: Conflict for url: "
               ++ "http://localhost:8080/admin/realms/linksy/users"))).
  - vm_compute. reflexivity.
  - reflexivity.
  - vm_compute. reflexivity.
Defined.

(** A registration that returns, in full. *)
Lemma register_success_inv env req w resp w' :
  Controller.register env req w = (Return resp, w') ->
  exists created,
    rows w' = (rows w ++ [created])%list
    /\ existsb (Db.conflicts created) (rows w) = false
    /\ User.id created = Controller.user_id resp
    /\ User.email created = Controller.email req
    /\ User.profile_picture_url created = None
    /\ if USE_KEYCLOAK env then
         User.password created = ""
         /\ User.last_synced_at created = Some (utcnow env (ticks w))
         /\ exists kc_id,
              KeycloakClient.create_user_in_keycloak env (User.username created)
                (Controller.email req) (Controller.password req)
                (Some (Controller.first_name req)) (Some (Controller.last_name req))
                (Controller.date_of_birth req) (Controller.phone_number req)
              = Return kc_id
              /\ User.keycloak_user_id created = Some kc_id
              /\ Controller.keycloak_user_id resp = Some kc_id
       else
         Service.get_password_hash env (Controller.password req)
         = Return (User.password created)
         /\ User.keycloak_user_id created = None
         /\ User.last_synced_at created = None
         /\ Controller.keycloak_user_id resp = None.
Proof.
  unfold Controller.register, Controller.register_with. intros H.
  apply bind_inv in H as [[username [w1 [H1 H2]]] | [e [_ He]]]; [| discriminate].
  apply generate_username_inv in H1 as [-> _].
  unfold bind at 1 in H2. unfold Db.select_where at 1 in H2.
  apply bind_inv in H2 as [[ex [w1 [H2 H3]]] | [e [_ He]]]; [| discriminate].
  apply scalar_one_or_none_inv in H2 as [-> _].
  destruct ex as [existing |];
    [apply raise_inv in H3 as [H3 _]; discriminate |].
  destruct (USE_KEYCLOAK env).
  - apply try_except_inv in H3 as [[resp' [H3 E]] | [e [w1 [_ H4]]]].
    2:{ apply raise_inv in H4 as [H4 _]. discriminate. }
    inversion E; subst resp'; clear E.
    apply bind_inv in H3 as [[kc_id [w1 [H3 H4]]] | [e [_ He]]]; [| discriminate].
    apply lift_inv in H3 as [Hk ->].
    apply bind_inv in H4 as [[now [w1 [H4 H5]]] | [e [_ He]]]; [| discriminate].
    apply utcnow_inv in H4 as [En [R1 _]]. inversion En; subst now.
    apply bind_inv in H5 as [[created [w2 [H5 H6]]] | [e [_ He]]]; [| discriminate].
    apply ret_inv in H6 as [E ->]. inversion E; subst resp.
    apply add_commit_refresh_inv in H5.
    destruct H5 as [[_ [Ec _]] | [Hfree [Ec [R2 _]]]]; [discriminate |].
    inversion Ec; subst created. rewrite R1 in *.
    eexists. split; [exact R2 |]. simpl.
    split; [exact Hfree |]. split; [reflexivity |]. split; [reflexivity |].
    split; [reflexivity |]. split; [reflexivity |]. split; [reflexivity |].
    exists kc_id. symmetry in Hk. auto.
  - apply bind_inv in H3 as [[hashed [w1 [H3 H4]]] | [e [_ He]]]; [| discriminate].
    apply lift_inv in H3 as [Hh ->].
    apply bind_inv in H4 as [[created [w1 [H4 H5]]] | [e [_ He]]]; [| discriminate].
    apply ret_inv in H5 as [E ->]. inversion E; subst resp.
    apply add_commit_refresh_inv in H4.
    destruct H4 as [[_ [Ec _]] | [Hfree [Ec [R2 _]]]]; [discriminate |].
    inversion Ec; subst created.
    eexists. split; [exact R2 |]. simpl.
    split; [exact Hfree |]. split; [reflexivity |]. split; [reflexivity |].
    split; [reflexivity |]. symmetry in Hh. auto.
Qed.

(** X8. The row a registration stores: the address of the request and no
    profile picture; in Keycloak mode an empty [password], the id that
    Keycloak returned for the chosen username (also in the answer) and the
    clock reading as [last_synced_at], so that the password of the request
    is not kept; in legacy mode the bcrypt hash of the password, no
    Keycloak id and no [last_synced_at]. *)
Theorem registered_row env req w resp w' :
  Controller.register env req w = (Return resp, w') ->
  exists created,
    rows w' = (rows w ++ [created])%list
    /\ User.id created = Controller.user_id resp
    /\ User.email created = Controller.email req
    /\ User.profile_picture_url created = None
    /\ if USE_KEYCLOAK env then
         User.password created = ""
         /\ User.last_synced_at created = Some (utcnow env (ticks w))
         /\ exists kc_id,
              KeycloakClient.create_user_in_keycloak env (User.username created)
                (Controller.email req) (Controller.password req)
                (Some (Controller.first_name req)) (Some (Controller.last_name req))
                (Controller.date_of_birth req) (Controller.phone_number req)
              = Return kc_id
              /\ User.keycloak_user_id created = Some kc_id
              /\ Controller.keycloak_user_id resp = Some kc_id
       else
         Service.get_password_hash env (Controller.password req)
         = Return (User.password created)
         /\ User.keycloak_user_id created = None
         /\ User.last_synced_at created = None
         /\ Controller.keycloak_user_id resp = None.
Proof.
  intros H. apply register_success_inv in H.
  destruct H as [created [R [_ [Hid [He [Hp Hmode]]]]]].
  exists created. auto.
Qed.

Lemma registered_row_witness :
  exists created,
    [Scenario2.ada; User.mk 2 "john.doe" "a@x.io" "$2b$12$pw" None None None]
    = ([Scenario2.ada] ++ [created])%list
    /\ User.password created = "$2b$12$pw".
Proof.
  destruct (registered_row (Scenario2.toy_legacy_env 0)
              (Scenario.john "a@x.io" "pw") (mkWorld [Scenario2.ada] 0)
              (Controller.mkRegisterResponse "User created successfully" 2 None)
              (mkWorld [Scenario2.ada;
                        User.mk 2 "john.doe" "a@x.io" "$2b$12$pw" None None None] 0))
    as [created [R [_ [_ [_ [Hh _]]]]]].
  - vm_compute. reflexivity.
  - exists created. split; [exact R |].
    simpl in R. inversion R. reflexivity.
Defined.

Lemma filter_app {A : Type} (p : A -> bool) (a b : list A) :
  filter p (a ++ b)%list = (filter p a ++ filter p b)%list.
Proof.
  induction a as [| x a IH]; simpl; [reflexivity |].
  destruct (p x); simpl; rewrite IH; reflexivity.
Qed.

(** X9. Registration and first login agree: after a registration in
    Keycloak mode, a bearer resolution whose token carries the id that
    Keycloak returned as [sub] finds the registered row by that id; the
    user it returns has the key and the Keycloak id of the registration
    answer, and no second row is provisioned. *)
Theorem register_then_resolve env req w resp w1 env2 token ui w2 u w3 :
  USE_KEYCLOAK env = true ->
  Controller.register env req w = (Return resp, w1) ->
  rows w2 = rows w1 ->
  USE_KEYCLOAK env2 = true ->
  openid_userinfo env2 token = Return ui ->
  Kc.sub ui = Controller.keycloak_user_id resp ->
  Service.get_current_user env2 token w2 = (Return u, w3) ->
  User.id u = Controller.user_id resp
  /\ User.keycloak_user_id u = Controller.keycloak_user_id resp
  /\ length (rows w3) = length (rows w1).
Proof.
  intros Hkc Hreg Hrows Hkc2 Hui Hsub H.
  apply register_success_inv in Hreg.
  destruct Hreg as [created [R [Hfree [Hid [_ [_ Hmode]]]]]].
  rewrite Hkc in Hmode.
  destruct Hmode as [_ [_ [kc_id [_ [Ekc Eresp]]]]].
  apply get_current_user_inv in H. cbv zeta in H. rewrite Hkc2 in H.
  destruct H as [[u' [E H]] | [e [E _]]]; [| discriminate].
  inversion E; subst u'; clear E.
  apply resolve_keycloak_inv in H as [[e [E _]] | H]; [discriminate |].
  destruct H as [ti [kid [uname [Hv [_ [Ek [Nk [_ [_ H]]]]]]]]].
  apply verify_keycloak_token_inv in Hv as [ui' [Hui' [_ [Esub _]]]].
  rewrite Hui in Hui'. inversion Hui'; subst ui'; clear Hui'.
  assert (kid = kc_id) as -> by congruence.
  assert (filter (Service.by_keycloak_user_id kc_id) (rows w2) = [created]) as Hf.
  { rewrite Hrows, R, filter_app.
    assert (filter (Service.by_keycloak_user_id kc_id) (rows w) = []) as ->.
    { destruct (filter (Service.by_keycloak_user_id kc_id) (rows w))
        as [| x l] eqn:Ef; [reflexivity |].
      exfalso.
      assert (In x (filter (Service.by_keycloak_user_id kc_id) (rows w))) as Hx
        by (rewrite Ef; left; reflexivity).
      apply filter_In in Hx as [Hx Hp].
      apply by_keycloak_user_id_true in Hp.
      pose proof (existsb_false_forall _ _ Hfree x Hx) as Hc.
      unfold Db.conflicts in Hc. rewrite Ekc, Hp in Hc. simpl in Hc.
      rewrite String.eqb_refl, orb_true_r in Hc. discriminate. }
    simpl. unfold Service.by_keycloak_user_id. rewrite Ekc. simpl.
    rewrite String.eqb_refl. reflexivity. }
  assert (Service.find_candidate kc_id uname w2 = (Return (Some created), w2)) as Hfind.
  { unfold Service.find_candidate, bind, Db.select_where. rewrite Hf. reflexivity. }
  destruct H as [[Hnone _] | [r [Hsome Hs]]]; [congruence |].
  assert (r = created) as -> by congruence.
  apply sync_existing_inv in Hs. cbv zeta in Hs.
  pose proof (upgrade_missing_id_fields kc_id created) as [Uid [Ukc _]].
  assert (Py.truthy (User.keycloak_user_id created) = true) as T.
  { rewrite Ekc. destruct kc_id; [congruence | reflexivity]. }
  rewrite T in Ukc.
  destruct Hs as [[E Rr] | [now [[E Rr] | [E _]]]]; try discriminate;
    inversion E; subst u.
  - rewrite Uid, Ukc, Rr, Hrows. split; [exact Hid |]. split; [congruence | reflexivity].
  - pose proof (synced_row_fields uname (Kc.ti_email ti) now
                  (Service.upgrade_missing_id kc_id created)) as [Sid [Skc _]].
    rewrite Sid, Skc, Uid, Ukc, Rr, replace_row_length, Hrows.
    split; [exact Hid |]. split; [congruence | reflexivity].
Qed.

Lemma register_then_resolve_witness :
  User.id (User.mk 2 "john.doe" "john@x.io" "" (Some "8d2f") (Some 0) None) = 2.
Proof.
  destruct (register_then_resolve
              (Scenario.keycloak_env (Scenario.claims "8d2f" "john.doe" None)
                                     true 204 0)
              (Scenario.john "john@x.io" "pw") (mkWorld [Scenario2.ada] 0)
              (Controller.mkRegisterResponse
                 "User created successfully in Keycloak" 2 (Some "8d2f"))
              (mkWorld [Scenario2.ada;
                        User.mk 2 "john.doe" "john@x.io" "" (Some "8d2f")
                                (Some 0) None] 1)
              (Scenario.keycloak_env
                 (Scenario.claims "8d2f" "john.doe" (Some "john@x.io"))
                 true 204 5000)
              "t"
              (Kc.mkUserInfo (Some "8d2f") (Some "john.doe") (Some "john@x.io"))
              (mkWorld [Scenario2.ada;
                        User.mk 2 "john.doe" "john@x.io" "" (Some "8d2f")
                                (Some 0) None] 0)
              (User.mk 2 "john.doe" "john@x.io" "" (Some "8d2f") (Some 0) None)
              (mkWorld [Scenario2.ada;
                        User.mk 2 "john.doe" "john@x.io" "" (Some "8d2f")
                                (Some 0) None] 1))
    as [Hid _].
  - reflexivity.
  - vm_compute. reflexivity.
  - reflexivity.
  - reflexivity.
  - reflexivity.
  - reflexivity.
  - vm_compute. reflexivity.
  - exact Hid.
Defined.

(* ------------------------------------------------------------------ *)
(** ** Resolving the same claims again *)

Lemma filter_singleton_only {A : Type} (p : A -> bool) l r x :
  filter p l = [r] -> In x l -> p x = true -> x = r.
Proof.
  intros E Hx Px.
  assert (In x (filter p l)) as Hin by (apply filter_In; auto).
  rewrite E in Hin. destruct Hin as [<- | []]. reflexivity.
Qed.

Lemma filter_nil_not_in {A : Type} (p : A -> bool) l x :
  filter p l = [] -> In x l -> p x = true -> False.
Proof.
  intros E Hx Px. rewrite (filter_nil_none p l E x Hx) in Px. discriminate.
Qed.

Lemma find_candidate_found kid uname w r w' :
  Service.find_candidate kid uname w = (Return (Some r), w') ->
  filter (Service.by_keycloak_user_id kid) (rows w) = [r]
  \/ (filter (Service.by_keycloak_user_id kid) (rows w) = []
      /\ filter (Service.by_username uname) (rows w) = [r]).
Proof.
  unfold Service.find_candidate. intros H.
  unfold bind at 1 in H. unfold Db.select_where at 1 in H.
  apply bind_inv in H as [[a [w1 [H1 H2]]] | [e [_ He]]]; [| discriminate].
  apply scalar_one_or_none_inv in H1 as [-> H1].
  destruct H1 as [[E Ha] | [[u [E Ha]] | [_ Ha]]]; try discriminate;
    inversion Ha; subst a.
  - apply select_one_inv in H2 as [_ H2]. right. auto.
  - apply ret_inv in H2 as [H2 _]. inversion H2; subst. left. exact E.
Qed.

Lemma replace_row_members_strict u table x :
  In x (replace_row u table) ->
  x = u \/ (In x table /\ User.id x <> User.id u).
Proof.
  unfold replace_row. intros H. apply in_map_iff in H as [r [E Hr]].
  destruct (User.id r =? User.id u)%Z eqn:Eid.
  - left. symmetry. exact E.
  - right. subst x. split; [exact Hr |]. apply Z.eqb_neq. exact Eid.
Qed.

Lemma replace_row_In u table r :
  In r table -> User.id r = User.id u -> In u (replace_row u table).
Proof.
  unfold replace_row. intros Hr E. apply in_map_iff. exists r.
  split; [| exact Hr]. rewrite E, Z.eqb_refl. reflexivity.
Qed.

(** After a successful resolution every row that the two lookups could
    find for the same claims has the key of the returned user, and there
    is such a row. *)
Lemma resolved_candidates env token w o w1 u ti kid uname :
  Service.resolve_keycloak env token w = (o, w1) ->
  o = Return u ->
  KeycloakClient.verify_keycloak_token env token = Return ti ->
  Kc.ti_keycloak_user_id ti = Some kid -> kid <> "" ->
  Kc.ti_preferred_username ti = Some uname ->
  (forall x, In x (rows w1) ->
     User.keycloak_user_id x = Some kid
     \/ (filter (Service.by_keycloak_user_id kid) (rows w1) = []
         /\ User.username x = uname) ->
     User.id x = User.id u)
  /\ (exists x, In x (rows w1)
        /\ (User.keycloak_user_id x = Some kid \/ User.username x = uname)).
Proof.
  intros H -> Hv Ek Nk Eu.
  apply resolve_keycloak_inv in H as [[e [E _]] | H]; [discriminate |].
  destruct H as [ti' [kid' [uname' [Hv' [_ [Ek' [_ [Eu' [_ H]]]]]]]]].
  rewrite Hv in Hv'. inversion Hv'; subst ti'; clear Hv'.
  assert (kid' = kid) as -> by congruence.
  assert (uname' = uname) as -> by congruence.
  destruct H as [[Hnone Hc] | [r [Hsome Hs]]].
  - apply find_candidate_inv in Hnone as [_ [Fk Fu]].
    apply create_from_keycloak_inv in Hc. cbv zeta in Hc.
    destruct Hc as [[E _] | [E R]]; [discriminate |].
    inversion E; subst u; clear E. rewrite R. split.
    + intros x Hx Hhow. apply in_app_or in Hx as [Hx | [<- | []]];
        [exfalso | reflexivity].
      destruct Hhow as [Hk | [_ Hn]].
      * apply (filter_nil_not_in _ _ x Fk Hx).
        apply by_keycloak_user_id_true. exact Hk.
      * apply (filter_nil_not_in _ _ x Fu Hx).
        apply by_username_true. exact Hn.
    + eexists. split; [apply in_or_app; right; left; reflexivity |].
      left. reflexivity.
  - pose proof (find_candidate_inv _ _ _ _ _ Hsome) as [_ [Hin _]].
    apply find_candidate_found in Hsome.
    apply sync_existing_cases in Hs. cbv zeta in Hs.
    pose proof (upgrade_missing_id_fields kid r) as [Uid [Ukc [Un _]]].
    assert (forall x, In x (rows w) -> x <> r ->
              User.keycloak_user_id x = Some kid -> False) as Hnok.
    { intros x Hx Hne Hk. apply by_keycloak_user_id_true in Hk.
      destruct Hsome as [Fk | [Fk _]].
      - apply Hne. exact (filter_singleton_only _ _ _ _ Fk Hx Hk).
      - exact (filter_nil_not_in _ _ x Fk Hx Hk). }
    destruct Hs as [[last [_ [_ [Hn [_ [E [R _]]]]]]] | [n [_ [[_ [E R]] | [E _]]]]];
      try discriminate; inversion E; subst u; clear E; rewrite R.
    + rewrite Uid. split.
      * intros x Hx Hhow.
        destruct Hhow as [Hk | [Fk Hname]].
        -- destruct Hsome as [Fk | [Fk _]].
           ++ apply by_keycloak_user_id_true in Hk.
              rewrite (filter_singleton_only _ _ _ _ Fk Hx Hk). reflexivity.
           ++ exfalso. apply (filter_nil_not_in _ _ x Fk Hx).
              apply by_keycloak_user_id_true. exact Hk.
        -- destruct Hsome as [Fk' | [_ Fu]]; [rewrite Fk in Fk'; discriminate |].
           apply by_username_true in Hname.
           rewrite (filter_singleton_only _ _ _ _ Fu Hx Hname). reflexivity.
      * exists r. split; [exact Hin |]. right. congruence.
    + pose proof (synced_row_fields uname (Kc.ti_email ti) (utcnow env n)
                    (Service.upgrade_missing_id kid r)) as [Sid [Skc [Sn _]]].
      set (u2 := Service.synced_row uname (Kc.ti_email ti) (utcnow env n)
                   (Service.upgrade_missing_id kid r)) in *.
      assert (User.id u2 = User.id r) as Hid2 by congruence.
      assert (In u2 (replace_row u2 (rows w))) as Hu2.
      { apply (replace_row_In u2 (rows w) r); [exact Hin | congruence]. }
      split.
      * intros x Hx Hhow.
        apply replace_row_members_strict in Hx as [-> | [Hx Hne]];
          [reflexivity | exfalso].
        assert (x <> r) as Hxr by (intros ->; apply Hne; congruence).
        destruct Hhow as [Hk | [Fk Hname]]; [exact (Hnok x Hx Hxr Hk) |].
        destruct Hsome as [Fk' | [_ Fu]].
        -- pose proof (filter_singleton_In _ _ _ Fk') as [_ Hrk].
           apply by_keycloak_user_id_true in Hrk.
           apply (filter_nil_not_in _ _ u2 Fk Hu2).
           apply by_keycloak_user_id_true. rewrite Skc, Ukc, Hrk.
           destruct kid; [congruence | reflexivity].
        -- apply Hxr. apply by_username_true in Hname.
           exact (filter_singleton_only _ _ _ _ Fu Hx Hname).
      * exists u2. split; [exact Hu2 |]. right. exact Sn.
Qed.

(** X10. Resolving is stable: when a bearer resolution in Keycloak mode
    has returned a user, the next resolution of a token with the same
    [sub] and [preferred_username] that returns a user returns one with
    the same key, and provisions no new row. *)
Theorem resolution_is_stable env token w ui u w1 env2 token2 ui2 w2 u2 w3 :
  USE_KEYCLOAK env = true ->
  openid_userinfo env token = Return ui ->
  Service.get_current_user env token w = (Return u, w1) ->
  rows w2 = rows w1 ->
  USE_KEYCLOAK env2 = true ->
  openid_userinfo env2 token2 = Return ui2 ->
  Kc.sub ui2 = Kc.sub ui ->
  Kc.preferred_username ui2 = Kc.preferred_username ui ->
  Service.get_current_user env2 token2 w2 = (Return u2, w3) ->
  User.id u2 = User.id u /\ length (rows w3) = length (rows w1).
Proof.
  intros Hkc Hui H Hrows Hkc2 Hui2 Esub Ename H2.
  apply get_current_user_inv in H. cbv zeta in H. rewrite Hkc in H.
  destruct H as [[u' [E H]] | [e [E _]]]; [| discriminate].
  inversion E; subst u'; clear E.
  pose proof (resolve_keycloak_inv _ _ _ _ _ H) as [[e [E _]] | Hfirst];
    [discriminate |].
  destruct Hfirst as [ti [kid [uname [Hv [_ [Ek [Nk [Eu [_ _]]]]]]]]].
  destruct (resolved_candidates env token w (Return u) w1 u ti kid uname
              H eq_refl Hv Ek Nk Eu) as [Hall [x0 [Hx0 Hhow0]]].
  apply verify_keycloak_token_inv in Hv as [ui' [Hui' [_ [Es [En _]]]]].
  rewrite Hui in Hui'. inversion Hui'; subst ui'; clear Hui'.
  apply get_current_user_inv in H2. cbv zeta in H2. rewrite Hkc2 in H2.
  destruct H2 as [[u' [E H2]] | [e [E _]]]; [| discriminate].
  inversion E; subst u'; clear E.
  apply resolve_keycloak_inv in H2 as [[e [E _]] | H2]; [discriminate |].
  destruct H2 as [ti2 [kid2 [uname2 [Hv2 [_ [Ek2 [_ [Eu2 [_ H2]]]]]]]]].
  apply verify_keycloak_token_inv in Hv2 as [ui2' [Hui2' [_ [Es2 [En2 _]]]]].
  rewrite Hui2 in Hui2'. inversion Hui2'; subst ui2'; clear Hui2'.
  assert (kid2 = kid) as -> by congruence.
  assert (uname2 = uname) as -> by congruence.
  destruct H2 as [[Hnone _] | [r2 [Hsome Hs]]].
  - exfalso. apply find_candidate_inv in Hnone as [_ [Fk Fu]].
    rewrite Hrows in Fk, Fu.
    destruct Hhow0 as [Hk | Hn].
    + apply (filter_nil_not_in _ _ x0 Fk Hx0).
      apply by_keycloak_user_id_true. exact Hk.
    + apply (filter_nil_not_in _ _ x0 Fu Hx0).
      apply by_username_true. exact Hn.
  - apply find_candidate_inv in Hsome as [_ [Hin Hhow]].
    rewrite Hrows in Hin, Hhow.
    pose proof (Hall r2 Hin Hhow) as Hid.
    apply sync_existing_inv in Hs. cbv zeta in Hs.
    pose proof (upgrade_missing_id_fields kid r2) as [Uid _].
    destruct Hs as [[E R] | [now [[E R] | [E _]]]]; try discriminate;
      inversion E; subst u2; rewrite R.
    + rewrite Uid, Hrows. auto.
    + pose proof (synced_row_fields uname (Kc.ti_email ti2) now
                    (Service.upgrade_missing_id kid r2)) as [Sid _].
      rewrite Sid, Uid, replace_row_length, Hrows. auto.
Qed.

Lemma resolution_is_stable_witness :
  User.id (User.mk 1 "grace" "grace@keycloak.local" "" (Some "abc") (Some 6001) None)
  = User.id (User.mk 1 "grace" "grace@keycloak.local" "" (Some "abc") (Some 5000) None).
Proof.
  destruct (resolution_is_stable
              (Scenario.keycloak_env (Scenario.claims "abc" "grace" None)
                                     true 204 5000)
              "t" (mkWorld [] 0)
              (Kc.mkUserInfo (Some "abc") (Some "grace") None)
              (User.mk 1 "grace" "grace@keycloak.local" "" (Some "abc")
                       (Some 5000) None)
              (mkWorld [User.mk 1 "grace" "grace@keycloak.local" "" (Some "abc")
                                (Some 5000) None] 1)
              (Scenario.keycloak_env (Scenario.claims "abc" "grace" None)
                                     true 204 6000)
              "t2"
              (Kc.mkUserInfo (Some "abc") (Some "grace") None)
              (mkWorld [User.mk 1 "grace" "grace@keycloak.local" "" (Some "abc")
                                (Some 5000) None] 0)
              (User.mk 1 "grace" "grace@keycloak.local" "" (Some "abc")
                       (Some 6001) None)
              (mkWorld [User.mk 1 "grace" "grace@keycloak.local" "" (Some "abc")
                                (Some 6001) None] 2))
    as [Hid _].
  - reflexivity.
  - reflexivity.
  - vm_compute. reflexivity.
  - reflexivity.
  - reflexivity.
  - reflexivity.
  - reflexivity.
  - reflexivity.
  - vm_compute. reflexivity.
  - exact Hid.
Defined.

(* ------------------------------------------------------------------ *)
(** ** The id of the user created in Keycloak *)

Lemma split_shape sep s :
  exists h t,
    Py.split sep s = h :: t
    /\ (t = [] -> h = s /\ contains_char sep s = false)
    /\ (t <> [] ->
        contains_char sep (last t "") = false
        /\ exists p, s = p ++ String sep (last t "")).
Proof.
  induction s as [| c r IH].
  - exists "", []. simpl. split; [reflexivity |]. split; [auto |]. congruence.
  - destruct IH as [h [t [E [Hone Hmore]]]]. cbn [Py.split]. rewrite E.
    destruct (Ascii.eqb c sep) eqn:Ec.
    + apply Ascii.eqb_eq in Ec. subst c.
      exists "", (h :: t). split; [reflexivity |].
      split; [discriminate |]. intros _.
      destruct t as [| h2 t2].
      * destruct (Hone eq_refl) as [-> Hno]. simpl.
        split; [exact Hno |]. exists "". reflexivity.
      * destruct Hmore as [Hno [p Ep]]; [discriminate |].
        change (last (h :: h2 :: t2) "") with (last (h2 :: t2) "").
        split; [exact Hno |]. exists (String sep p). cbn [append].
        f_equal. exact Ep.
    + exists (String c h), t. split; [reflexivity |]. split.
      * intros Ht. destruct (Hone Ht) as [-> Hno]. split; [reflexivity |].
        simpl. rewrite Ec. exact Hno.
      * intros Ht. destruct (Hmore Ht) as [Hno [p Ep]].
        split; [exact Hno |]. exists (String c p). cbn [append].
        f_equal. exact Ep.
Qed.

Lemma last_segment sep s :
  contains_char sep (last (Py.split sep s) "") = false
  /\ (s = last (Py.split sep s) ""
      \/ exists p, s = p ++ String sep (last (Py.split sep s) "")).
Proof.
  destruct (split_shape sep s) as [h [t [E [Hone Hmore]]]]. rewrite E.
  destruct t as [| h2 t2].
  - destruct (Hone eq_refl) as [-> Hno]. simpl. auto.
  - destruct Hmore as [Hno Hp]; [discriminate |].
    change (last (h :: h2 :: t2) "") with (last (h2 :: t2) ""). auto.
Qed.

(** X11. Where the id of phase 1 comes from: the creation POST was
    answered with a status outside 400..599, and then either the
    [Location] header was non-empty and the id is what follows its last
    slash (the whole header when it has none), so the id holds no slash,
    or the header was missing or empty and the id is that of the first
    user the search by username returned. *)
Theorem phase1_id_origin env tok username email first_name last_name
    date_of_birth phone_number uid :
  KeycloakClient.create_and_locate env tok username email first_name last_name
    date_of_birth phone_number = Return uid ->
  exists body response,
    requests_post env (KeycloakClient.users_url env) tok body = Return response
    /\ ~ (400 <= Kc.status_code response < 600)%Z
    /\ ((exists location,
           Kc.header_location response = Some location
           /\ location <> ""
           /\ contains_char "/" uid = false
           /\ (location = uid \/ exists p, location = p ++ "/" ++ uid))
        \/ (Py.truthy (Kc.header_location response) = false
            /\ exists search first others,
                 requests_get env (KeycloakClient.users_url env) tok (Some username)
                 = Return search
                 /\ ~ (400 <= Kc.status_code search < 600)%Z
                 /\ Kc.json search = Return (Kc.JUsers (first :: others))
                 /\ uid = Kc.id first)).
Proof.
  assert (forall r, Kc.raise_for_status r = Return tt ->
            ~ (400 <= Kc.status_code r < 600)%Z) as Hstatus.
  { intros r. unfold Kc.raise_for_status.
    destruct ((400 <=? Kc.status_code r)%Z && (Kc.status_code r <? 500)%Z) eqn:E4;
      [discriminate |].
    destruct ((500 <=? Kc.status_code r)%Z && (Kc.status_code r <? 600)%Z) eqn:E5;
      [discriminate |].
    intros _ [H1 H2].
    apply andb_false_iff in E4. apply andb_false_iff in E5.
    rewrite !Z.leb_gt, !Z.ltb_ge in E4, E5. lia. }
  unfold KeycloakClient.create_and_locate. cbv zeta. intros H.
  apply obind_return in H as [response [Hpost H]].
  apply obind_return in H as [[] [Hok H]].
  eexists. exists response. split; [exact Hpost |].
  split; [apply Hstatus; exact Hok |].
  destruct (Py.truthy (Kc.header_location response)) eqn:T.
  - left. apply truthy_some in T as [location [El [Nl Sl]]].
    rewrite (Sl "") in H. inversion H; subst uid.
    exists location. split; [exact El |]. split; [exact Nl |].
    apply last_segment.
  - right. split; [reflexivity |].
    apply obind_return in H as [search [Hget H]].
    apply obind_return in H as [[] [Hok2 H]].
    apply obind_return in H as [users [Hjson H]].
    destruct users as [| | | [| first others]]; try discriminate.
    inversion H; subst uid.
    exists search, first, others. split; [exact Hget |].
    split; [apply Hstatus; exact Hok2 |]. auto.
Qed.

Lemma phase1_id_origin_witness :
  exists body response,
    requests_post
      (Scenario.keycloak_env (Scenario.claims "abc" "grace" None) true 204 0)
      "http://localhost:8080/admin/realms/linksy/users" (Some "admin-token") body
    = Return response
    /\ ~ (400 <= Kc.status_code response < 600)%Z.
Proof.
  destruct (phase1_id_origin
              (Scenario.keycloak_env (Scenario.claims "abc" "grace" None)
                                     true 204 0)
              (Some "admin-token") "ada.lovelace" "ada@x.io"
              (Some "Ada") (Some "Lovelace") None None "8d2f" eq_refl)
    as [body [response [Hpost [Hok _]]]].
  exists body, response. split; [exact Hpost | exact Hok].
Defined.

(* ------------------------------------------------------------------ *)
(** ** The users service: changing the password *)

Lemma get_user_by_id_inv user_id w o w' :
  UsersService.get_user_by_id user_id w = (o, w') ->
  w' = w
  /\ match o with
     | Return u => filter (Service.by_id user_id) (rows w) = [u]
     | Raise e =>
         (filter (Service.by_id user_id) (rows w) = []
          /\ e = Exceptions.UserNotFoundError (Some user_id))
         \/ ((2 <= length (filter (Service.by_id user_id) (rows w)))%nat
             /\ e = MultipleResultsFound)
     end.
Proof.
  unfold UsersService.get_user_by_id. intros H.
  unfold bind at 1 in H. unfold Db.select_where at 1 in H.
  apply bind_inv in H as [[c [w1 [H1 H2]]] | [e [H1 ->]]].
  - apply scalar_one_or_none_inv in H1 as [-> H1].
    destruct H1 as [[E Hc] | [[u [E Hc]] | [_ Hc]]]; try discriminate;
      inversion Hc; subst c.
    + apply raise_inv in H2 as [-> ->]. split; [reflexivity |]. left. auto.
    + apply ret_inv in H2 as [-> ->]. split; [reflexivity | exact E].
  - apply scalar_one_or_none_inv in H1 as [-> H1]. split; [reflexivity |].
    destruct H1 as [[_ Hc] | [[u [_ Hc]] | [L Hc]]]; try discriminate.
    inversion Hc. right. auto.
Qed.

Lemma get_user_by_id_found user_id w u :
  filter (Service.by_id user_id) (rows w) = [u] ->
  UsersService.get_user_by_id user_id w = (Return u, w).
Proof.
  intros E. unfold UsersService.get_user_by_id, bind, Db.select_where.
  rewrite E. reflexivity.
Qed.

(** X12. An account without a local credential (the empty [password]
    that Keycloak-mode rows carry) cannot change its password here:
    whatever is typed, [change_password] raises bcrypt's
    [ValueError("Invalid salt")] and the table is as it was. *)
Theorem change_password_without_local_credential env user_id
    current_password new_password new_password_confirm w u :
  filter (Service.by_id user_id) (rows w) = [u] ->
  User.password u = "" ->
  UsersService.change_password env user_id current_password new_password
    new_password_confirm w
  = (Raise (ValueError "Invalid salt"), w).
Proof.
  intros Hf Hp. unfold UsersService.change_password.
  unfold bind at 1. rewrite (get_user_by_id_found user_id w u Hf).
  unfold bind, lift. rewrite Hp. reflexivity.
Qed.

Lemma change_password_without_local_credential_witness :
  UsersService.change_password (Scenario2.toy_legacy_env 0) 1 "" "new" "new"
    (mkWorld [Scenario.federated_only] 0)
  = (Raise (ValueError "Invalid salt"), mkWorld [Scenario.federated_only] 0).
Proof.
  apply (change_password_without_local_credential (Scenario2.toy_legacy_env 0)
           1 "" "new" "new" (mkWorld [Scenario.federated_only] 0)
           Scenario.federated_only); reflexivity.
Defined.

Lemma change_password_returns env user_id current_password new_password
    new_password_confirm w w' :
  UsersService.change_password env user_id current_password new_password
    new_password_confirm w = (Return tt, w') ->
  exists u hashed,
    filter (Service.by_id user_id) (rows w) = [u]
    /\ Service.verify_password env current_password (User.password u)
       = Return true
    /\ new_password = new_password_confirm
    /\ Service.get_password_hash env new_password = Return hashed
    /\ existsb (fun r => negb (User.id r =? User.id u)%Z
                         && Db.conflicts (UsersService.with_password hashed u) r)
               (rows w) = false
    /\ rows w' = replace_row (UsersService.with_password hashed u) (rows w).
Proof.
  intros H. unfold UsersService.change_password in H.
  apply bind_inv in H as [[u [w1 [H1 H2]]] | [e [_ He]]]; [| discriminate].
  apply get_user_by_id_inv in H1 as [-> Hf].
  apply bind_inv in H2 as [[ok [w1 [H2 H3]]] | [e [_ He]]]; [| discriminate].
  apply lift_inv in H2 as [Hv ->].
  destruct ok; simpl in H3;
    [| apply raise_inv in H3 as [H3 _]; discriminate].
  destruct (String.eqb new_password new_password_confirm) eqn:Eq; simpl in H3;
    [| apply raise_inv in H3 as [H3 _]; discriminate].
  apply String.eqb_eq in Eq.
  apply bind_inv in H3 as [[hashed [w1 [H3 H4]]] | [e [_ He]]]; [| discriminate].
  apply lift_inv in H3 as [Hh ->].
  apply bind_inv in H4 as [[stored [w1 [H4 H5]]] | [e [_ He]]]; [| discriminate].
  apply ret_inv in H5 as [_ ->].
  apply commit_refresh_inv in H4. cbv zeta in H4.
  destruct H4 as [[_ [Hc _]] | [Hpass [_ [R _]]]]; [discriminate |].
  exists u, hashed. symmetry in Hv, Hh. auto 8.
Qed.

(** X13. How [change_password] ends.  An unknown id is HTTP 404; a
    current password that bcrypt refuses is HTTP 401 "Current password is
    incorrect", checked before the two new passwords are compared; new
    passwords that differ are HTTP 400; and when it returns, the current
    password verified, the new passwords were equal and the row of that
    id, and only the [password] of that row, was replaced by the bcrypt
    hash of the new password. *)
Theorem change_password_outcomes env user_id current_password new_password
    new_password_confirm w :
  (filter (Service.by_id user_id) (rows w) = [] ->
   UsersService.change_password env user_id current_password new_password
     new_password_confirm w
   = (Raise (HTTPException 404
               ("User with id " ++ Exceptions.str_of_int user_id ++ " not found")),
      w))
  /\ (forall u,
        filter (Service.by_id user_id) (rows w) = [u] ->
        Service.verify_password env current_password (User.password u)
        = Return false ->
        UsersService.change_password env user_id current_password new_password
          new_password_confirm w
        = (Raise (HTTPException 401 "Current password is incorrect"), w))
  /\ (forall u,
        filter (Service.by_id user_id) (rows w) = [u] ->
        Service.verify_password env current_password (User.password u)
        = Return true ->
        new_password <> new_password_confirm ->
        UsersService.change_password env user_id current_password new_password
          new_password_confirm w
        = (Raise (HTTPException 400 "New passwords do not match"), w))
  /\ (forall w',
        UsersService.change_password env user_id current_password new_password
          new_password_confirm w = (Return tt, w') ->
        exists u hashed,
          filter (Service.by_id user_id) (rows w) = [u]
          /\ Service.verify_password env current_password (User.password u)
             = Return true
          /\ new_password = new_password_confirm
          /\ Service.get_password_hash env new_password = Return hashed
          /\ rows w' = replace_row (UsersService.with_password hashed u) (rows w)).
Proof.
  split; [| split; [| split]].
  - intros Hf. unfold UsersService.change_password, UsersService.get_user_by_id,
      bind, Db.select_where. rewrite Hf. reflexivity.
  - intros u Hf Hv. unfold UsersService.change_password.
    unfold bind at 1. rewrite (get_user_by_id_found user_id w u Hf).
    unfold bind, lift. rewrite Hv. reflexivity.
  - intros u Hf Hv Hne. unfold UsersService.change_password.
    unfold bind at 1. rewrite (get_user_by_id_found user_id w u Hf).
    unfold bind at 1. unfold lift. rewrite Hv. simpl.
    apply String.eqb_neq in Hne. rewrite Hne. reflexivity.
  - intros w' H. apply change_password_returns in H.
    destruct H as [u [hashed [Hf [Hv [Eq [Hh [_ R]]]]]]].
    exists u, hashed. auto 6.
Qed.

Lemma change_password_outcomes_witness :
  UsersService.change_password (Scenario2.toy_legacy_env 0) 1 "wrong" "a" "b"
    (mkWorld [Scenario2.ada; Scenario2.bob] 0)
  = (Raise (HTTPException 401 "Current password is incorrect"),
     mkWorld [Scenario2.ada; Scenario2.bob] 0).
Proof.
  destruct (change_password_outcomes (Scenario2.toy_legacy_env 0) 1 "wrong" "a" "b"
              (mkWorld [Scenario2.ada; Scenario2.bob] 0)) as [_ [Hwrong _]].
  apply (Hwrong Scenario2.ada); reflexivity.
Defined.

Lemma filter_username_after_replace u u' : forall table,
  keyed table -> unique_usernames table -> In u table ->
  User.id u' = User.id u -> User.username u' = User.username u ->
  filter (Service.by_username (User.username u)) (replace_row u' table) = [u'].
Proof.
  unfold keyed, unique_usernames, usernames.
  induction table as [| x t IH]; intros Hkey Hnd Hin Hid Hname;
    [destruct Hin |].
  simpl in Hkey, Hnd.
  inversion Hkey as [| ? ? Hidx Hkey']; subst.
  inversion Hnd as [| ? ? Hnamex Hnd']; subst.
  change (replace_row u' (x :: t))
    with ((if (User.id x =? User.id u')%Z then u' else x) :: replace_row u' t).
  destruct Hin as [-> | Hin].
  - rewrite Hid, Z.eqb_refl.
    rewrite replace_row_absent by (rewrite Hid; exact Hidx).
    simpl. unfold Service.by_username at 1. rewrite Hname, String.eqb_refl.
    f_equal. apply filter_by_username_nil. exact Hnamex.
  - assert ((User.id x =? User.id u')%Z = false) as ->.
    { apply Z.eqb_neq. intros E. apply Hidx. rewrite E, Hid.
      apply in_map. exact Hin. }
    simpl. unfold Service.by_username at 1.
    assert (String.eqb (User.username x) (User.username u) = false) as ->.
    { apply String.eqb_neq. intros E. apply Hnamex. rewrite E.
      apply in_map. exact Hin. }
    apply IH; assumption.
Qed.

(** X14. The new password is the one that logs in: after a
    [change_password] that returned, on a table with unique keys and
    usernames, [authenticate_user] with the user's username and the new
    password returns the updated row, provided bcrypt verifies the new
    password against the hash it has just produced. *)
Theorem changed_password_authenticates env user_id current_password new_password
    new_password_confirm w w1 u :
  keyed (rows w) ->
  unique_usernames (rows w) ->
  filter (Service.by_id user_id) (rows w) = [u] ->
  UsersService.change_password env user_id current_password new_password
    new_password_confirm w = (Return tt, w1) ->
  exists hashed,
    Service.get_password_hash env new_password = Return hashed
    /\ In (UsersService.with_password hashed u) (rows w1)
    /\ (Service.verify_password env new_password hashed = Return true ->
        Service.authenticate_user env (User.username u) new_password w1
        = (Return (Some (UsersService.with_password hashed u)), w1)).
Proof.
  intros Hkey Hu Hf H.
  apply change_password_returns in H.
  destruct H as [u0 [hashed [Hf0 [_ [_ [Hh [_ R]]]]]]].
  rewrite Hf in Hf0. inversion Hf0; subst u0.
  pose proof (filter_singleton_In _ _ _ Hf) as [Hin _].
  exists hashed. split; [exact Hh |]. split.
  - rewrite R. apply (replace_row_In _ (rows w) u); [exact Hin | reflexivity].
  - intros Hv. unfold Service.authenticate_user, bind, Db.select_where.
    rewrite R.
    rewrite (filter_username_after_replace u (UsersService.with_password hashed u)
               (rows w) Hkey Hu Hin eq_refl eq_refl).
    simpl. unfold lift. rewrite Hv. reflexivity.
Qed.

Lemma changed_password_authenticates_witness :
  exists hashed,
    Service.get_password_hash (Scenario2.toy_legacy_env 0) "newpw" = Return hashed
    /\ In (UsersService.with_password hashed Scenario2.ada)
          [UsersService.with_password "$2b$12$newpw" Scenario2.ada; Scenario2.bob].
Proof.
  destruct (changed_password_authenticates (Scenario2.toy_legacy_env 0) 1
              "secret" "newpw" "newpw"
              (mkWorld [Scenario2.ada; Scenario2.bob] 0)
              (mkWorld [UsersService.with_password "$2b$12$newpw" Scenario2.ada;
                        Scenario2.bob] 0)
              Scenario2.ada) as [hashed [Hh [Hin _]]].
  - unfold keyed. simpl.
    constructor; [simpl; intros [H | []]; discriminate |].
    constructor; [intros [] | constructor].
  - unfold unique_usernames. simpl.
    constructor; [simpl; intros [H | []]; discriminate |].
    constructor; [intros [] | constructor].
  - reflexivity.
  - vm_compute. reflexivity.
  - exists hashed. split; [exact Hh | exact Hin].
Defined.

(* ------------------------------------------------------------------ *)
(** ** The users service: updating the profile *)

Lemma nodup_map_inj {B : Type} (f : User.t -> B) table a b :
  NoDup (map f table) -> In a table -> In b table -> f a = f b -> a = b.
Proof.
  induction table as [| x t IH]; simpl; intros Hnd Ha Hb E; [destruct Ha |].
  inversion Hnd as [| ? ? Hnotin Hnd']; subst.
  destruct Ha as [-> | Ha], Hb as [-> | Hb].
  - reflexivity.
  - exfalso. apply Hnotin. rewrite E. apply in_map. exact Hb.
  - exfalso. apply Hnotin. rewrite <- E. apply in_map. exact Ha.
  - apply IH; assumption.
Qed.

Lemma keyed_filter_cases user_id table :
  keyed table ->
  filter (Service.by_id user_id) table = []
  \/ exists u, filter (Service.by_id user_id) table = [u].
Proof.
  unfold keyed, Service.by_id.
  induction table as [| a t IH]; simpl; intros Hnd; [left; reflexivity |].
  inversion Hnd as [| ? ? Hnotin Hnd']; subst.
  destruct (User.id a =? user_id)%Z eqn:E.
  - right. exists a. f_equal.
    destruct (filter (fun r => (User.id r =? user_id)%Z) t) as [| b l] eqn:Ef;
      [reflexivity |].
    exfalso. apply Hnotin.
    assert (In b (filter (fun r => (User.id r =? user_id)%Z) t)) as Hb
      by (rewrite Ef; left; reflexivity).
    apply filter_In in Hb as [Hb Eb].
    apply Z.eqb_eq in E. apply Z.eqb_eq in Eb.
    rewrite E, <- Eb. apply in_map. exact Hb.
  - apply IH. exact Hnd'.
Qed.

Lemma replace_row_same u table :
  keyed table -> In u table -> replace_row u table = table.
Proof.
  intros Hkey Hin. unfold replace_row.
  rewrite <- (map_id table) at 2. apply map_ext_in. intros r Hr.
  destruct (User.id r =? User.id u)%Z eqn:E; [| reflexivity].
  apply Z.eqb_eq in E. symmetry.
  apply (keyed_inj table); assumption.
Qed.

(** An UPDATE that keeps the key and the Keycloak id, and whose username
    and email are the row's own or held by no row, passes the indexes. *)
Lemma update_passes_indexes table u u' :
  keyed table -> unique_usernames table -> unique_emails table ->
  unique_keycloak_ids table ->
  In u table ->
  User.id u' = User.id u ->
  User.keycloak_user_id u' = User.keycloak_user_id u ->
  (User.username u' = User.username u
   \/ ~ In (User.username u') (usernames table)) ->
  (User.email u' = User.email u
   \/ ~ In (User.email u') (map User.email table)) ->
  existsb (fun r => negb (User.id r =? User.id u')%Z && Db.conflicts u' r) table
  = false.
Proof.
  intros Hkey Hun Hue Huk Hin Hid Hkc Hname Hemail.
  destruct (existsb _ table) eqn:E; [| reflexivity].
  exfalso. apply existsb_exists in E as [r [Hr Hc]].
  apply andb_true_iff in Hc as [Hne Hc].
  apply negb_true_iff in Hne. apply Z.eqb_neq in Hne.
  assert (r <> u) as Hru by (intros ->; apply Hne; congruence).
  unfold Db.conflicts in Hc.
  apply orb_true_iff in Hc as [Hc | Hc];
    [apply orb_true_iff in Hc as [Hc | Hc] |].
  - apply String.eqb_eq in Hc. destruct Hname as [Hn | Hn].
    + apply Hru. apply (nodup_map_inj User.username table); auto. congruence.
    + apply Hn. rewrite Hc. apply in_map. exact Hr.
  - apply String.eqb_eq in Hc. destruct Hemail as [He | He].
    + apply Hru. apply (nodup_map_inj User.email table); auto. congruence.
    + apply He. rewrite Hc. apply in_map. exact Hr.
  - rewrite Hkc in Hc. apply Hru. symmetry. apply Huk; assumption.
Qed.

Lemma rename_checked_inv username user w o w' :
  unique_usernames (rows w) ->
  UsersService.rename_checked username user w = (o, w') ->
  w' = w
  /\ match o with
     | Return u' =>
         u' = User.with_username (Py.str_or username (User.username user)) user
         /\ (User.username u' = User.username user
             \/ ~ In (User.username u') (usernames (rows w)))
     | Raise e => e = HTTPException 400 "Username already exists"
     end.
Proof.
  intros Hu. unfold UsersService.rename_checked.
  destruct (Py.truthy username) eqn:T; simpl.
  - apply truthy_some in T as [s [-> [Ns Hs]]]. rewrite !(Hs _).
    destruct (String.eqb s (User.username user)) eqn:E; simpl.
    + intros H. apply ret_inv in H as [-> ->]. split; [reflexivity |].
      apply String.eqb_eq in E. subst s. destruct user; simpl. auto.
    + intros H.
      destruct (unique_usernames_lookup s w Hu) as [c Hc].
      unfold bind at 1 in H. unfold bind at 1 in Hc.
      unfold Db.select_where at 1 in H. unfold Db.select_where at 1 in Hc.
      unfold bind at 1 in H. rewrite Hc in H.
      destruct c as [existing |].
      * apply raise_inv in H as [-> ->]. auto.
      * apply ret_inv in H as [-> ->]. split; [reflexivity |].
        split; [reflexivity |]. right. simpl.
        apply filter_by_username_nil.
        unfold bind, Db.select_where in Hc.
        destruct (filter (Service.by_username s) (rows w)) as [| a [| b l]];
          [reflexivity | discriminate | discriminate].
  - intros H. apply ret_inv in H as [-> ->]. split; [reflexivity |].
    assert (Py.str_or username (User.username user) = User.username user) as ->.
    { destruct username as [[| c r] |]; simpl in *; congruence. }
    destruct user; simpl. auto.
Qed.

Lemma unique_emails_lookup email w :
  unique_emails (rows w) ->
  exists c,
    (result <- Db.select_where (Service.by_email email) ;;
     Db.scalar_one_or_none result) w = (Return c, w).
Proof.
  intros Hu. unfold bind, Db.select_where.
  destruct (unique_filter User.email email (rows w) Hu) as [E | [u E]];
    unfold Service.by_email; rewrite E; simpl; unfold ret; eauto.
Qed.

Lemma filter_by_email_nil email table :
  filter (Service.by_email email) table = [] -> ~ In email (map User.email table).
Proof.
  intros E H. apply in_map_iff in H as [r [Er Hr]].
  pose proof (filter_nil_none _ _ E r Hr) as Hp.
  unfold Service.by_email in Hp. apply String.eqb_neq in Hp. congruence.
Qed.

Lemma readdress_checked_inv email user w o w' :
  unique_emails (rows w) ->
  UsersService.readdress_checked email user w = (o, w') ->
  w' = w
  /\ match o with
     | Return u' =>
         u' = User.with_email (Py.str_or email (User.email user)) user
         /\ (User.email u' = User.email user
             \/ ~ In (User.email u') (map User.email (rows w)))
     | Raise e => e = HTTPException 400 "Email already exists"
     end.
Proof.
  intros Hu. unfold UsersService.readdress_checked.
  destruct (Py.truthy email) eqn:T; simpl.
  - apply truthy_some in T as [s [-> [Ns Hs]]]. rewrite !(Hs _).
    destruct (String.eqb s (User.email user)) eqn:E; simpl.
    + intros H. apply ret_inv in H as [-> ->]. split; [reflexivity |].
      apply String.eqb_eq in E. subst s. destruct user; simpl. auto.
    + intros H.
      destruct (unique_emails_lookup s w Hu) as [c Hc].
      unfold bind at 1 in H. unfold bind at 1 in Hc.
      unfold Db.select_where at 1 in H. unfold Db.select_where at 1 in Hc.
      unfold bind at 1 in H. rewrite Hc in H.
      destruct c as [existing |].
      * apply raise_inv in H as [-> ->]. auto.
      * apply ret_inv in H as [-> ->]. split; [reflexivity |].
        split; [reflexivity |]. right. simpl.
        apply filter_by_email_nil.
        unfold bind, Db.select_where in Hc.
        destruct (filter (Service.by_email s) (rows w)) as [| a [| b l]];
          [reflexivity | discriminate | discriminate].
  - intros H. apply ret_inv in H as [-> ->]. split; [reflexivity |].
    assert (Py.str_or email (User.email user) = User.email user) as ->.
    { destruct email as [[| c r] |]; simpl in *; congruence. }
    destruct user; simpl. auto.
Qed.

(** X15. On a table that satisfies its unique indexes, [update_user]
    fails in three ways only, each leaving the table as it was: HTTP 404
    for an unknown id, HTTP 400 "Username already exists", HTTP 400 "Email
    already exists"; its own checks keep the commit from ever hitting an
    index.  When it returns, the row of that id has the requested username
    and email (an absent or empty value keeps the old one) and all its
    other columns, and no other row has changed; with neither value given
    the table is the same. *)
Theorem update_user_outcomes user_id username email w o w' :
  keyed (rows w) -> unique_usernames (rows w) -> unique_emails (rows w) ->
  unique_keycloak_ids (rows w) ->
  UsersService.update_user user_id username email w = (o, w') ->
  match o with
  | Raise e =>
      rows w' = rows w
      /\ (e = HTTPException 404
                ("User with id " ++ Exceptions.str_of_int user_id ++ " not found")
          \/ e = HTTPException 400 "Username already exists"
          \/ e = HTTPException 400 "Email already exists")
  | Return u' =>
      exists u,
        In u (rows w) /\ User.id u = user_id
        /\ u' = User.with_email (Py.str_or email (User.email u))
                  (User.with_username (Py.str_or username (User.username u)) u)
        /\ rows w' = replace_row u' (rows w)
        /\ (Py.truthy username = false -> Py.truthy email = false ->
            u' = u /\ rows w' = rows w)
  end.
Proof.
  intros Hkey Hun Hue Huk H. unfold UsersService.update_user in H.
  apply bind_inv in H as [[u [w1 [H1 H2]]] | [e [H1 ->]]].
  2:{ apply get_user_by_id_inv in H1 as [-> H1]. split; [reflexivity |].
      destruct H1 as [[_ ->] | [L _]]; [left; reflexivity |].
      exfalso. destruct (keyed_filter_cases user_id (rows w) Hkey) as [E | [x E]];
        rewrite E in L; simpl in L; lia. }
  apply get_user_by_id_inv in H1 as [-> Hf].
  pose proof (filter_singleton_In _ _ _ Hf) as [Hin Hid].
  unfold Service.by_id in Hid. apply Z.eqb_eq in Hid.
  apply bind_inv in H2 as [[u1 [w1 [H2 H3]]] | [e [H2 ->]]].
  2:{ apply rename_checked_inv in H2 as [-> ->]; auto. }
  apply rename_checked_inv in H2 as [-> [E1 Hn1]]; [| exact Hun].
  apply bind_inv in H3 as [[u2 [w1 [H3 H4]]] | [e [H3 ->]]].
  2:{ apply readdress_checked_inv in H3 as [-> ->]; auto. }
  apply readdress_checked_inv in H3 as [-> [E2 He2]]; [| exact Hue].
  assert (existsb (fun r => negb (User.id r =? User.id u2)%Z && Db.conflicts u2 r)
                  (rows w) = false) as Hpass.
  { apply (update_passes_indexes (rows w) u u2); try assumption.
    - subst u2 u1. reflexivity.
    - subst u2 u1. reflexivity.
    - subst u2. simpl. exact Hn1.
    - destruct He2 as [He2 | He2]; [left | right; exact He2].
      rewrite He2. subst u1. reflexivity. }
  apply commit_refresh_inv in H4. cbv zeta in H4.
  destruct H4 as [[Hc _] | [_ [-> [R _]]]]; [congruence |].
  exists u. split; [exact Hin |]. split; [exact Hid |].
  split; [subst u2 u1; reflexivity |]. split; [exact R |].
  intros Tn Te.
  assert (u2 = u) as Hsame.
  { subst u2 u1.
    assert (Py.str_or username (User.username u) = User.username u) as ->.
    { destruct username as [[| c r] |]; simpl in *; congruence. }
    assert (forall x, Py.str_or email x = x) as Hx.
    { intros x. destruct email as [[| c r] |]; simpl in *; congruence. }
    rewrite Hx. destruct u; reflexivity. }
  split; [exact Hsame |]. rewrite R, Hsame.
  apply replace_row_same; assumption.
Qed.

Lemma update_user_outcomes_witness :
  rows (mkWorld [Scenario2.ada; Scenario2.bob] 0)
  = rows (mkWorld [Scenario2.ada; Scenario2.bob] 0)
  /\ (HTTPException 400 "Username already exists"
      = HTTPException 404 ("User with id " ++ Exceptions.str_of_int 1 ++ " not found")
      \/ HTTPException 400 "Username already exists"
         = HTTPException 400 "Username already exists"
      \/ HTTPException 400 "Username already exists"
         = HTTPException 400 "Email already exists").
Proof.
  apply (update_user_outcomes 1 (Some "bob") None
           (mkWorld [Scenario2.ada; Scenario2.bob] 0)
           (Raise (HTTPException 400 "Username already exists"))
           (mkWorld [Scenario2.ada; Scenario2.bob] 0)).
  - unfold keyed. simpl.
    constructor; [simpl; intros [H | []]; discriminate |].
    constructor; [intros [] | constructor].
  - unfold unique_usernames. simpl.
    constructor; [simpl; intros [H | []]; discriminate |].
    constructor; [intros [] | constructor].
  - unfold unique_emails. simpl.
    constructor; [simpl; intros [H | []]; discriminate |].
    constructor; [intros [] | constructor].
  - intros a b Ha Hb Hk. simpl in Ha, Hb.
    destruct Ha as [<- | [<- | []]], Hb as [<- | [<- | []]];
      try reflexivity; simpl in Hk; discriminate.
  - vm_compute. reflexivity.
Defined.

(* ------------------------------------------------------------------ *)
(** ** The users service and the columns of the federation *)

(** A commit of a service operation: the row written is a row of the
    table with its key, Keycloak id and [last_synced_at]. *)
Lemma commit_of_member u u' w o w' :
  In u (rows w) -> identity_kept u u' ->
  Db.commit_refresh u' w = (o, w') ->
  rows w' = rows w
  \/ (exists a b,
        In a (rows w) /\ identity_kept a b
        /\ existsb (fun r => negb (User.id r =? User.id b)%Z && Db.conflicts b r)
                   (rows w) = false
        /\ rows w' = replace_row b (rows w)).
Proof.
  intros Hin Hk H. apply commit_refresh_inv in H. cbv zeta in H.
  destruct H as [[_ [_ ->]] | [Hpass [_ [R _]]]]; [left; reflexivity |].
  right. exists u, u'. auto.
Qed.

Lemma rename_checked_kept username user w o w' :
  UsersService.rename_checked username user w = (o, w') ->
  w' = w /\ forall u', o = Return u' -> identity_kept user u'.
Proof.
  unfold UsersService.rename_checked.
  destruct (Py.truthy username && _).
  - intros H. unfold bind at 1 in H. unfold Db.select_where at 1 in H.
    apply bind_inv in H as [[c [w1 [H1 H2]]] | [e [H1 ->]]].
    + apply scalar_one_or_none_inv in H1 as [-> _].
      destruct c; [apply raise_inv in H2 | apply ret_inv in H2];
        destruct H2 as [-> ->]; (split; [reflexivity |]);
        intros u' E; inversion E; subst. repeat split.
    + apply scalar_one_or_none_inv in H1 as [-> _]. split; [reflexivity |].
      discriminate.
  - intros H. apply ret_inv in H as [-> ->]. split; [reflexivity |].
    intros u' E. inversion E; subst. repeat split.
Qed.

Lemma readdress_checked_kept email user w o w' :
  UsersService.readdress_checked email user w = (o, w') ->
  w' = w /\ forall u', o = Return u' -> identity_kept user u'.
Proof.
  unfold UsersService.readdress_checked.
  destruct (Py.truthy email && _).
  - intros H. unfold bind at 1 in H. unfold Db.select_where at 1 in H.
    apply bind_inv in H as [[c [w1 [H1 H2]]] | [e [H1 ->]]].
    + apply scalar_one_or_none_inv in H1 as [-> _].
      destruct c; [apply raise_inv in H2 | apply ret_inv in H2];
        destruct H2 as [-> ->]; (split; [reflexivity |]);
        intros u' E; inversion E; subst. repeat split.
    + apply scalar_one_or_none_inv in H1 as [-> _]. split; [reflexivity |].
      discriminate.
  - intros H. apply ret_inv in H as [-> ->]. split; [reflexivity |].
    intros u' E. inversion E; subst. repeat split.
Qed.

Lemma identity_kept_trans a b c :
  identity_kept a b -> identity_kept b c -> identity_kept a c.
Proof.
  intros [I1 [K1 L1]] [I2 [K2 L2]]. repeat split; congruence.
Qed.

(** What an operation of the users service does to the table: nothing,
    or one UPDATE of a row that keeps the columns of the federation. *)
Lemma users_operation_shape op table :
  (forall env r, op <> Auth env r) ->
  perform op table = table
  \/ (exists a b,
        In a table /\ identity_kept a b
        /\ existsb (fun r => negb (User.id r =? User.id b)%Z && Db.conflicts b r)
                   table = false
        /\ perform op table = replace_row b table).
Proof.
  intros Hop.
  destruct op as [env r | env uid cur new conf | uid username email
                  | del uid url | del uid]; unfold perform.
  - exfalso. exact (Hop env r eq_refl).
  - destruct (UsersService.change_password env uid cur new conf (mkWorld table 0))
      as [o w'] eqn:H. simpl.
    unfold UsersService.change_password in H.
    apply bind_inv in H as [[u [w1 [H1 H2]]] | [e [H1 _]]].
    2:{ apply get_user_by_id_inv in H1 as [-> _]. left. reflexivity. }
    apply get_user_by_id_inv in H1 as [-> Hf].
    pose proof (filter_singleton_In _ _ _ Hf) as [Hin _].
    apply bind_inv in H2 as [[ok [w1 [H2 H3]]] | [e [H2 _]]].
    2:{ apply lift_inv in H2 as [_ ->]. left. reflexivity. }
    apply lift_inv in H2 as [_ ->].
    destruct (negb ok); [apply raise_inv in H3 as [_ ->]; left; reflexivity |].
    destruct (negb _); [apply raise_inv in H3 as [_ ->]; left; reflexivity |].
    apply bind_inv in H3 as [[hashed [w1 [H3 H4]]] | [e [H3 _]]].
    2:{ apply lift_inv in H3 as [_ ->]. left. reflexivity. }
    apply lift_inv in H3 as [_ ->].
    apply bind_inv in H4 as [[stored [w1 [H4 H5]]] | [e [H4 _]]].
    + apply ret_inv in H5 as [_ ->].
      apply (commit_of_member u _ _ _ _ Hin) in H4; [exact H4 |].
      repeat split.
    + apply (commit_of_member u _ _ _ _ Hin) in H4; [exact H4 |].
      repeat split.
  - destruct (UsersService.update_user uid username email (mkWorld table 0))
      as [o w'] eqn:H. simpl.
    unfold UsersService.update_user in H.
    apply bind_inv in H as [[u [w1 [H1 H2]]] | [e [H1 _]]].
    2:{ apply get_user_by_id_inv in H1 as [-> _]. left. reflexivity. }
    apply get_user_by_id_inv in H1 as [-> Hf].
    pose proof (filter_singleton_In _ _ _ Hf) as [Hin _].
    apply bind_inv in H2 as [[u1 [w1 [H2 H3]]] | [e [H2 _]]].
    2:{ apply rename_checked_kept in H2 as [-> _]. left. reflexivity. }
    apply rename_checked_kept in H2 as [-> K1].
    apply bind_inv in H3 as [[u2 [w1 [H3 H4]]] | [e [H3 _]]].
    2:{ apply readdress_checked_kept in H3 as [-> _]. left. reflexivity. }
    apply readdress_checked_kept in H3 as [-> K2].
    apply (commit_of_member u _ _ _ _ Hin) in H4; [exact H4 |].
    apply (identity_kept_trans u u1 u2); auto.
  - destruct (UsersService.update_profile_picture del uid url (mkWorld table 0))
      as [o w'] eqn:H. simpl.
    unfold UsersService.update_profile_picture in H.
    apply bind_inv in H as [[u [w1 [H1 H2]]] | [e [H1 _]]].
    2:{ apply get_user_by_id_inv in H1 as [-> _]. left. reflexivity. }
    apply get_user_by_id_inv in H1 as [-> Hf].
    pose proof (filter_singleton_In _ _ _ Hf) as [Hin _].
    assert (quiet (if Py.truthy (User.profile_picture_url u)
                   then try_except
                          (_ <- lift (del (Py.str_or (User.profile_picture_url u) "")) ;;
                           ret tt)
                          (fun _ => ret tt)
                   else ret tt)) as Hq.
    { destruct (Py.truthy _); [| apply quiet_ret].
      apply quiet_try_except; [| intros e; apply quiet_ret].
      apply quiet_bind; [apply quiet_lift | intros b; apply quiet_ret]. }
    apply bind_inv in H2 as [[x [w1 [H2 H3]]] | [e [H2 _]]].
    2:{ left. exact (Hq _ _ _ H2). }
    pose proof (Hq _ _ _ H2) as R. simpl in R.
    assert (In u (rows w1)) as Hin1 by (rewrite R; exact Hin).
    apply (commit_of_member u _ _ _ _ Hin1) in H3; [| repeat split].
    rewrite R in H3. exact H3.
  - destruct (UsersService.delete_profile_picture_endpoint del uid (mkWorld table 0))
      as [o w'] eqn:H. simpl.
    unfold UsersService.delete_profile_picture_endpoint,
      UsersService.get_current_user_profile in H.
    apply bind_inv in H as [[u [w1 [H1 H2]]] | [e [H1 _]]].
    2:{ apply get_user_by_id_inv in H1 as [-> _]. left. reflexivity. }
    apply get_user_by_id_inv in H1 as [-> Hf].
    pose proof (filter_singleton_In _ _ _ Hf) as [Hin _].
    destruct (negb _); [apply raise_inv in H2 as [_ ->]; left; reflexivity |].
    apply bind_inv in H2 as [[x [w1 [H2 H3]]] | [e [H2 _]]].
    2:{ apply lift_inv in H2 as [_ ->]. left. reflexivity. }
    apply lift_inv in H2 as [_ ->].
    apply (commit_of_member u _ _ _ _ Hin) in H3; [exact H3 |].
    repeat split.
Qed.












Lemma perform_kept op table :
  keyed table ->
  keyed (perform op table) /\ table_kept table (perform op table)
  /\ db_step table (perform op table).
Proof.
  intros Hkey.
  assert ((exists env r, op = Auth env r) \/ (forall env r, op <> Auth env r))
    as [[env [r ->]] | Hop].
  { destruct op; [left; eauto | right | right | right | right];
      intros env' r'; discriminate. }
  - simpl. destruct (handle_kept env r table Hkey) as [K T].
    split; [exact K |]. split; [exact T | apply handle_step].
  - destruct (users_operation_shape op table Hop)
      as [-> | [a [b [Hin [Hk [Hpass ->]]]]]].
    + split; [exact Hkey |]. split; [apply table_kept_refl | left; reflexivity].
    + split; [apply keyed_replace; exact Hkey |]. split.
      * destruct Hk as [Hid [Hkc _]].
        apply (table_kept_replace table a b); auto.
      * right; right. exists b. auto.
Qed.

(** X17. Over any sequence that mixes the auth requests with the
    operations of the users service, the table keeps unique keys and
    unique usernames, and a row whose Keycloak id is set (neither null
    nor empty) stays at its place with that key and that Keycloak id. *)
Theorem operations_keep_invariants ops table :
  keyed table ->
  unique_usernames table ->
  keyed (perform_all ops table)
  /\ unique_usernames (perform_all ops table)
  /\ forall k r,
       nth_error table k = Some r ->
       is_set (User.keycloak_user_id r) ->
       exists r',
         nth_error (perform_all ops table) k = Some r'
         /\ User.id r' = User.id r
         /\ User.keycloak_user_id r' = User.keycloak_user_id r.
Proof.
  revert table.
  assert (forall l table, keyed table -> unique_usernames table ->
            keyed (perform_all l table)
            /\ unique_usernames (perform_all l table)
            /\ table_kept table (perform_all l table)) as Hall.
  { intros l. induction l as [| op rest IH]; intros table Hkey Hun; simpl.
    - split; [exact Hkey |]. split; [exact Hun | apply table_kept_refl].
    - destruct (perform_kept op table Hkey) as [K1 [T1 S1]].
      pose proof (db_step_unique table _ Hkey Hun S1) as U1.
      destruct (IH _ K1 U1) as [K2 [U2 T2]].
      split; [exact K2 |]. split; [exact U2 |].
      exact (table_kept_trans _ _ _ T1 T2). }
  intros table Hkey Hun.
  destruct (Hall ops table Hkey Hun) as [K [U T]].
  split; [exact K |]. split; [exact U |].
  intros k r Hk Hset.
  destruct (T k r Hk) as [r' [H' [Hid Hkc]]].
  exists r'. split; [exact H' |]. split; [exact Hid | exact (Hkc Hset)].
Qed.

Lemma operations_keep_invariants_witness :
  unique_usernames
    (perform_all
       [UpdateUser 1 (Some "countess") None;
        Auth (Scenario2.toy_legacy_env 0) (Register (Scenario.john "j@x.io" "pw"));
        ChangePassword (Scenario2.toy_legacy_env 0) 2 "hunter2" "new" "new"]
       [Scenario2.ada; Scenario2.bob]).
Proof.
  apply (operations_keep_invariants
           [UpdateUser 1 (Some "countess") None;
            Auth (Scenario2.toy_legacy_env 0) (Register (Scenario.john "j@x.io" "pw"));
            ChangePassword (Scenario2.toy_legacy_env 0) 2 "hunter2" "new" "new"]
           [Scenario2.ada; Scenario2.bob]).
  - unfold keyed. simpl.
    constructor; [simpl; intros [H | []]; discriminate |].
    constructor; [intros [] | constructor].
  - unfold unique_usernames. simpl.
    constructor; [simpl; intros [H | []]; discriminate |].
    constructor; [intros [] | constructor].
Defined.

(* ------------------------------------------------------------------ *)
(** ** Resolutions that cannot succeed *)

(** X18. A first login whose address is taken fails: when neither lookup
    finds a row and some row already holds the email the new row would
    get (the email claim, or the placeholder when the claim is empty), the
    bearer resolution answers HTTP 401 "Could not validate user." and
    provisions nothing. *)
Theorem first_login_email_collision env token w kid uname email r :
  USE_KEYCLOAK env = true ->
  KeycloakClient.verify_keycloak_token env token
  = Return (Kc.mkTokenInfo (Some kid) (Some uname) email true) ->
  kid <> "" -> uname <> "" ->
  Service.find_candidate kid uname w = (Return None, w) ->
  In r (rows w) ->
  User.email r = Py.str_or email (uname ++ "@keycloak.local") ->
  Service.get_current_user env token w
  = (Raise (HTTPException 401 "Could not validate user."),
     mkWorld (rows w) (S (ticks w))).
Proof.
  intros Hkc Hv Nk Nu Hf Hin He.
  apply (get_current_user_of_body env token w (Raise IntegrityError)).
  rewrite Hkc, (resolve_keycloak_run env token w kid uname email Hv Nk Nu).
  unfold bind at 1. rewrite Hf.
  unfold Service.create_from_keycloak, bind, datetime_utcnow, Db.add_commit_refresh.
  cbn [rows ticks].
  assert (existsb
            (Db.conflicts
               (User.mk 0 uname (Py.str_or email (uname ++ "@keycloak.local")) ""
                        (Some kid) (Some (utcnow env (ticks w))) None))
            (rows w) = true) as ->.
  { apply existsb_exists. exists r. split; [exact Hin |].
    unfold Db.conflicts. simpl. rewrite <- He, String.eqb_refl.
    rewrite orb_true_r. reflexivity. }
  reflexivity.
Qed.

Lemma first_login_email_collision_witness :
  Service.get_current_user
    (Scenario.keycloak_env (Scenario.claims "xyz" "lady.ada" (Some "ada@x.io"))
                           true 204 5000)
    "t" (mkWorld [Scenario2.ada] 0)
  = (Raise (HTTPException 401 "Could not validate user."),
     mkWorld [Scenario2.ada] 1).
Proof.
  apply (first_login_email_collision
           (Scenario.keycloak_env
              (Scenario.claims "xyz" "lady.ada" (Some "ada@x.io")) true 204 5000)
           "t" (mkWorld [Scenario2.ada] 0) "xyz" "lady.ada" (Some "ada@x.io")
           Scenario2.ada).
  - reflexivity.
  - reflexivity.
  - discriminate.
  - discriminate.
  - reflexivity.
  - left. reflexivity.
  - reflexivity.
Defined.

(** X19. A token whose [sub] belongs to one row and whose
    [preferred_username] is the username of another row is never
    resolved: the row found by [sub] would have to take the other row's
    username, the commit hits the unique index, and the call answers
    HTTP 401 with the table unchanged. *)
Theorem split_identity_is_refused env token w kid uname email a b o w' :
  USE_KEYCLOAK env = true ->
  KeycloakClient.verify_keycloak_token env token
  = Return (Kc.mkTokenInfo (Some kid) (Some uname) email true) ->
  kid <> "" -> uname <> "" ->
  filter (Service.by_keycloak_user_id kid) (rows w) = [a] ->
  filter (Service.by_username uname) (rows w) = [b] ->
  User.id a <> User.id b ->
  Service.get_current_user env token w = (o, w') ->
  o = Raise (HTTPException 401 "Could not validate user.")
  /\ rows w' = rows w.
Proof.
  intros Hkc Hv Nk Nu Fa Fb Hne H.
  pose proof (filter_singleton_In _ _ _ Fa) as [Ha _].
  pose proof (filter_singleton_In _ _ _ Fb) as [Hb Hbn].
  apply by_username_true in Hbn.
  assert (Service.find_candidate kid uname w = (Return (Some a), w)) as Hfind.
  { unfold Service.find_candidate, bind, Db.select_where. rewrite Fa. reflexivity. }
  destruct (Service.sync_existing env a kid uname email w) as [o1 w1] eqn:Hs.
  assert (Service.resolve_keycloak env token w = (o1, w1)) as Hbody.
  { rewrite (resolve_keycloak_run env token w kid uname email Hv Nk Nu).
    unfold bind at 1. rewrite Hfind. exact Hs. }
  assert (o1 = Raise IntegrityError /\ rows w1 = rows w) as [-> R].
  { apply sync_existing_cases in Hs. cbv zeta in Hs.
    pose proof (upgrade_missing_id_fields kid a) as [Uid [_ [Un _]]].
    destruct Hs as [[last [_ [_ [Hn _]]]] | [n [_ [[Hpass _] | Hfail]]]].
    - exfalso. apply Hne. f_equal.
      apply (filter_singleton_only _ _ _ _ Fb Ha).
      apply by_username_true. congruence.
    - exfalso.
      pose proof (synced_row_fields uname email (utcnow env n)
                    (Service.upgrade_missing_id kid a)) as [Sid [_ [Sn _]]].
      pose proof (existsb_false_forall _ _ Hpass b Hb) as Hc. cbv beta in Hc.
      rewrite Sid, Uid in Hc.
      assert ((User.id b =? User.id a)%Z = false) as Eid
        by (apply Z.eqb_neq; congruence).
      rewrite Eid in Hc. simpl in Hc.
      unfold Db.conflicts in Hc. rewrite Sn, Hbn, String.eqb_refl in Hc.
      discriminate.
    - exact Hfail. }
  rewrite (get_current_user_of_body env token w (Raise IntegrityError) w1) in H.
  - inversion H; subst. auto.
  - rewrite Hkc. exact Hbody.
Qed.

Lemma split_identity_is_refused_witness :
  Raise (HTTPException 401 "Could not validate user.")
  = @Raise User.t (HTTPException 401 "Could not validate user.")
  /\ rows (mkWorld [Scenario.grace; Scenario.hopper] 2)
     = rows (mkWorld [Scenario.grace; Scenario.hopper] 0).
Proof.
  apply (split_identity_is_refused
           (Scenario.keycloak_env
              (Scenario.claims "abc" "grace.h" None) true 204 5000)
           "t" (mkWorld [Scenario.grace; Scenario.hopper] 0)
           "abc" "grace.h" None Scenario.grace Scenario.hopper).
  - reflexivity.
  - reflexivity.
  - discriminate.
  - discriminate.
  - reflexivity.
  - reflexivity.
  - simpl. discriminate.
  - vm_compute. reflexivity.
Defined.

(* ------------------------------------------------------------------ *)
(** ** Registration followed by a legacy login *)

Lemma filter_created_by_username created table :
  ~ In (User.username created) (usernames table) ->
  filter (Service.by_username (User.username created)) (table ++ [created])%list
  = [created].
Proof.
  intros Hfree. rewrite filter_app.
  apply filter_by_username_nil in Hfree. rewrite Hfree. simpl.
  unfold Service.by_username. rewrite String.eqb_refl. reflexivity.
Qed.

(** X20. A legacy registration can log in: after it returned, a legacy
    login with the username of the new row and the password of the
    request returns a token for that row, provided bcrypt verifies the
    password against the hash it produced at registration. *)
Theorem legacy_register_then_login env req w resp w1 env2 w2 :
  USE_KEYCLOAK env = false ->
  Controller.register env req w = (Return resp, w1) ->
  rows w2 = rows w1 ->
  USE_KEYCLOAK env2 = false ->
  exists created,
    rows w1 = (rows w ++ [created])%list
    /\ Service.get_password_hash env (Controller.password req)
       = Return (User.password created)
    /\ (Service.verify_password env2 (Controller.password req)
          (User.password created) = Return true ->
        Controller.login_for_access_token env2 (User.username created)
          (Controller.password req) w2
        = (Return (Controller.mkToken
                     (jwt_encode env2 (User.username created)
                        (Controller.user_id resp)
                        (utcnow env2 (ticks w2) + 30 * 60 * 1000000))
                     "bearer"),
           mkWorld (rows w2) (S (ticks w2)))).
Proof.
  intros Hmode Hreg Hrows Hmode2.
  pose proof (register_inv env req w (Return resp) w1 Hreg) as Hinv.
  simpl in Hinv. destruct Hinv as [k [c0 [R0 [_ [_ [_ [Hfree0 _]]]]]]].
  apply register_success_inv in Hreg.
  destruct Hreg as [created [R [_ [Hid [_ [_ Hm]]]]]].
  rewrite Hmode in Hm. destruct Hm as [Hh _].
  assert (c0 = created) as ->.
  { rewrite R in R0. apply app_inj_tail in R0 as [_ E]. symmetry. exact E. }
  exists created. split; [exact R |]. split; [exact Hh |].
  intros Hv. unfold Controller.login_for_access_token. rewrite Hmode2.
  unfold Service.authenticate_user, bind, Db.select_where.
  rewrite Hrows, R, (filter_created_by_username created (rows w) Hfree0).
  simpl. unfold lift. rewrite Hv. simpl.
  unfold Service.create_access_token, bind, datetime_utcnow, ret. simpl.
  rewrite <- R, <- Hrows, Hid. reflexivity.
Qed.

Lemma legacy_register_then_login_witness :
  exists created,
    [Scenario2.ada; User.mk 2 "john.doe" "a@x.io" "$2b$12$pw" None None None]
    = ([Scenario2.ada] ++ [created])%list
    /\ Service.get_password_hash (Scenario2.toy_legacy_env 0) "pw"
       = Return (User.password created).
Proof.
  destruct (legacy_register_then_login (Scenario2.toy_legacy_env 0)
              (Scenario.john "a@x.io" "pw") (mkWorld [Scenario2.ada] 0)
              (Controller.mkRegisterResponse "User created successfully" 2 None)
              (mkWorld [Scenario2.ada;
                        User.mk 2 "john.doe" "a@x.io" "$2b$12$pw" None None None] 0)
              (Scenario2.toy_legacy_env 100)
              (mkWorld [Scenario2.ada;
                        User.mk 2 "john.doe" "a@x.io" "$2b$12$pw" None None None] 0))
    as [created [R [Hh _]]].
  - reflexivity.
  - vm_compute. reflexivity.
  - reflexivity.
  - reflexivity.
  - exists created. split; [exact R | exact Hh].
Defined.

(** X21. A row registered in Keycloak mode has no local way in: should
    the service later run in legacy mode, a login with that row's username
    raises bcrypt's [ValueError("Invalid salt")] for every password, and
    no token is issued. *)
Theorem keycloak_registration_has_no_local_login env req w resp w1 env2 password w2 :
  USE_KEYCLOAK env = true ->
  Controller.register env req w = (Return resp, w1) ->
  rows w2 = rows w1 ->
  USE_KEYCLOAK env2 = false ->
  exists created,
    rows w1 = (rows w ++ [created])%list
    /\ Controller.login_for_access_token env2 (User.username created) password w2
       = (Raise (ValueError "Invalid salt"), w2).
Proof.
  intros Hmode Hreg Hrows Hmode2.
  pose proof (register_inv env req w (Return resp) w1 Hreg) as Hinv.
  simpl in Hinv. destruct Hinv as [k [c0 [R0 [_ [_ [_ [Hfree0 _]]]]]]].
  apply register_success_inv in Hreg.
  destruct Hreg as [created [R [_ [_ [_ [_ Hm]]]]]].
  rewrite Hmode in Hm. destruct Hm as [Hp _].
  assert (c0 = created) as ->.
  { rewrite R in R0. apply app_inj_tail in R0 as [_ E]. symmetry. exact E. }
  exists created. split; [exact R |].
  unfold Controller.login_for_access_token. rewrite Hmode2.
  unfold Service.authenticate_user, bind, Db.select_where.
  rewrite Hrows, R, (filter_created_by_username created (rows w) Hfree0).
  simpl. unfold lift. rewrite Hp. reflexivity.
Qed.

Lemma keycloak_registration_has_no_local_login_witness :
  exists created,
    [Scenario2.ada; User.mk 2 "john.doe" "john@x.io" "" (Some "8d2f") (Some 0) None]
    = ([Scenario2.ada] ++ [created])%list
    /\ Controller.login_for_access_token (Scenario2.toy_legacy_env 0)
         (User.username created) ""
         (mkWorld [Scenario2.ada;
                   User.mk 2 "john.doe" "john@x.io" "" (Some "8d2f") (Some 0) None] 0)
       = (Raise (ValueError "Invalid salt"),
          mkWorld [Scenario2.ada;
                   User.mk 2 "john.doe" "john@x.io" "" (Some "8d2f") (Some 0) None] 0).
Proof.
  apply (keycloak_registration_has_no_local_login
           (Scenario.keycloak_env (Scenario.claims "8d2f" "john.doe" None)
                                  true 204 0)
           (Scenario.john "john@x.io" "pw") (mkWorld [Scenario2.ada] 0)
           (Controller.mkRegisterResponse
              "User created successfully in Keycloak" 2 (Some "8d2f"))
           (mkWorld [Scenario2.ada;
                     User.mk 2 "john.doe" "john@x.io" "" (Some "8d2f")
                              (Some 0) None] 1)
           (Scenario2.toy_legacy_env 0) ""
           (mkWorld [Scenario2.ada;
                     User.mk 2 "john.doe" "john@x.io" "" (Some "8d2f")
                              (Some 0) None] 0)).
  - reflexivity.
  - vm_compute. reflexivity.
  - reflexivity.
  - reflexivity.
Defined.

(* ================================================================== *)
(** * The feed: likes, comments and posts *)

(* ------------------------------------------------------------------ *)
(** ** Lists and filters *)

Lemma existsb_false_filter {A : Type} (p : A -> bool) (l : list A) :
  existsb p l = false <-> filter p l = [].
Proof.
  induction l as [| a l IH]; simpl; [tauto |].
  destruct (p a); simpl; [split; discriminate | exact IH].
Qed.

Lemma filter_none_id {A : Type} (p : A -> bool) (l : list A) :
  filter p l = [] -> filter (fun a => negb (p a)) l = l.
Proof.
  induction l as [| a l IH]; simpl; [reflexivity |].
  destruct (p a); simpl; [discriminate |].
  intros H. rewrite (IH H). reflexivity.
Qed.

Lemma filter_removed {A : Type} (p : A -> bool) (l : list A) :
  filter p (filter (fun a => negb (p a)) l) = [].
Proof.
  induction l as [| a l IH]; simpl; [reflexivity |].
  destruct (p a) eqn:E; simpl; [exact IH |].
  rewrite E. exact IH.
Qed.

(** Removing the rows of [r] does not change the selection of a [q]
    that shares no row with [r]. *)
Lemma filter_apart {A : Type} (q r : A -> bool) (l : list A) :
  (forall a, q a = true -> r a = false) ->
  filter q (filter (fun a => negb (r a)) l) = filter q l.
Proof.
  intros H. induction l as [| a l IH]; simpl; [reflexivity |].
  destruct (r a) eqn:Er; simpl.
  - destruct (q a) eqn:Eq; [| exact IH].
    rewrite (H a Eq) in Er. discriminate.
  - rewrite IH. reflexivity.
Qed.

(** Removing the rows of [r], all of them rows of [q], lowers the count
    of [q] by the count of [r]. *)
Lemma filter_within_length {A : Type} (q r : A -> bool) (l : list A) :
  (forall a, r a = true -> q a = true) ->
  (length (filter q (filter (fun a => negb (r a)) l)) + length (filter r l)
   = length (filter q l))%nat.
Proof.
  intros H. induction l as [| a l IH]; simpl; [reflexivity |].
  destruct (r a) eqn:Er; simpl.
  - rewrite (H a Er). simpl. lia.
  - destruct (q a); simpl; lia.
Qed.

Lemma filter_snoc {A : Type} (p : A -> bool) (l : list A) (a : A) :
  filter p (l ++ [a])%list = (filter p l ++ (if p a then [a] else []))%list.
Proof. rewrite filter_app. reflexivity. Qed.

(** Under a key without repetition a selection that fixes the key finds
    at most one row. *)
Lemma filter_at_most_one {A K : Type} (key : A -> K) (p : A -> bool) (l : list A) :
  NoDup (map key l) ->
  (forall a b, p a = true -> p b = true -> key a = key b) ->
  filter p l = [] \/ exists a, filter p l = [a].
Proof.
  intros Hnd Hp. induction l as [| a l IH]; simpl; [left; reflexivity |].
  simpl in Hnd. inversion Hnd as [| x xs Hnin Hnd']; subst.
  destruct (p a) eqn:Ea.
  - right. exists a. f_equal.
    destruct (filter p l) as [| b r] eqn:Ef; [reflexivity | exfalso].
    assert (In b (filter p l)) as Hb by (rewrite Ef; left; reflexivity).
    apply filter_In in Hb as [Hin Hpb].
    apply Hnin. rewrite (Hp a b Ea Hpb). apply in_map. exact Hin.
  - exact (IH Hnd').
Qed.

Lemma NoDup_snoc {A : Type} (l : list A) (a : A) :
  NoDup l -> ~ In a l -> NoDup (l ++ [a])%list.
Proof.
  intros Hl Ha. apply NoDup_app; [exact Hl | repeat constructor; intros [] |].
  intros x Hx [<- | []]. exact (Ha Hx).
Qed.

(** Selecting rows keeps a key unique. *)
Lemma NoDup_map_filter {R K : Type} (key : R -> K) (keep : R -> bool)
    (table : list R) :
  NoDup (map key table) -> NoDup (map key (filter keep table)).
Proof.
  intros Hnd. induction table as [| row table IH]; simpl; [constructor |].
  simpl in Hnd. inversion Hnd as [| x xs Hnin Hnd']; subst.
  destruct (keep row); simpl; [| exact (IH Hnd')].
  constructor; [| exact (IH Hnd')].
  intros Hin. apply Hnin. apply in_map_iff in Hin as [y [Hy Hin]].
  apply filter_In in Hin as [Hin _]. rewrite <- Hy. apply in_map. exact Hin.
Qed.

Lemma next_id_above (ids : list Z) (i : Z) :
  In i ids -> i < Session.next_id ids.
Proof.
  unfold Session.next_id. induction ids as [| j ids IH];
    cbn [fold_right In]; [tauto |].
  intros [-> | H]; [lia |]. specialize (IH H). lia.
Qed.

Lemma next_id_fresh (ids : list Z) : ~ In (Session.next_id ids) ids.
Proof. intros H. apply next_id_above in H. lia. Qed.

(* ------------------------------------------------------------------ *)
(** ** Likes *)

Lemma or_zero_id (n : Z) : LikesService.or_zero n = n.
Proof.
  unfold LikesService.or_zero. destruct (n =? 0)%Z eqn:E; [| reflexivity].
  apply Z.eqb_eq in E. symmetry. exact E.
Qed.

Lemma likes_unique_filter post_id user_id s :
  likes_unique s ->
  filter (LikesService.on_post_by post_id user_id) (likes s) = []
  \/ exists l, filter (LikesService.on_post_by post_id user_id) (likes s) = [l].
Proof.
  intros H.
  apply (filter_at_most_one (fun l => (Like.user_id l, Like.post_id l)));
    [exact H |].
  unfold LikesService.on_post_by. intros a b Ha Hb.
  apply andb_true_iff in Ha as [Ha1 Ha2]. apply andb_true_iff in Hb as [Hb1 Hb2].
  apply Z.eqb_eq in Ha1, Ha2, Hb1, Hb2. congruence.
Qed.

Lemma no_like_no_clash post_id user_id (l : list Like.t) :
  filter (LikesService.on_post_by post_id user_id) l = [] ->
  existsb (fun l => (Like.user_id l =? user_id)%Z && (Like.post_id l =? post_id)%Z) l
  = false.
Proof.
  intros H. apply existsb_false_filter in H.
  rewrite <- H. clear H. unfold LikesService.on_post_by.
  induction l as [| a l IH]; simpl; [reflexivity |].
  rewrite IH. f_equal. apply andb_comm.
Qed.

(** [toggle_like], case by case *)
Lemma toggle_like_cases env fk post_id user_id s :
  LikesService.toggle_like env fk post_id user_id s =
  match filter (Session.post_by_id post_id) (posts s) with
  | [] => (Raise (Exceptions.PostNotFoundError (Some post_id)), s)
  | [_] =>
      match filter (LikesService.on_post_by post_id user_id) (likes s) with
      | [] =>
          let s1 := set_world (mkWorld (rows (world s)) (S (ticks (world s)))) s in
          if fk && negb (Session.has_post post_id s && Session.has_user user_id s)
          then (Raise IntegrityError, s1)
          else
            let like := Like.mk (Session.next_id (map Like.id (likes s))) user_id
                                post_id (Some (utcnow env (ticks (world s)))) in
            (Return (true,
                     Z.of_nat (length (filter (LikesService.on_post post_id)
                                              (likes s ++ [like])%list))),
             set_likes (likes s ++ [like])%list s1)
      | [_] =>
          let kept := filter (fun l => negb (LikesService.on_post_by post_id user_id l))
                             (likes s) in
          (Return (false,
                   Z.of_nat (length (filter (LikesService.on_post post_id) kept))),
           set_likes kept s)
      | _ :: _ :: _ => (Raise MultipleResultsFound, s)
      end
  | _ :: _ :: _ => (Raise MultipleResultsFound, s)
  end.
Proof.
  unfold LikesService.toggle_like, sbind, Session.select_posts,
    Session.select_likes.
  destruct (filter (Session.post_by_id post_id) (posts s)) as [| p [| p' r]];
    cbn [Session.one_or_none sret sraise]; [reflexivity | | reflexivity].
  destruct (filter (LikesService.on_post_by post_id user_id) (likes s))
    as [| l [| l' r]] eqn:El; cbn [Session.one_or_none sret sraise];
    [| | reflexivity].
  - unfold Session.insert_like, sbind, Session.utcnow_default,
      Session.count_likes, sret.
    cbn [world likes set_world rows ticks posts].
    change (Session.has_post post_id
              (set_world (mkWorld (rows (world s)) (S (ticks (world s)))) s))
      with (Session.has_post post_id s).
    change (Session.has_user user_id
              (set_world (mkWorld (rows (world s)) (S (ticks (world s)))) s))
      with (Session.has_user user_id s).
    destruct (fk && negb (Session.has_post post_id s && Session.has_user user_id s));
      [reflexivity |].
    rewrite (no_like_no_clash post_id user_id (likes s) El).
    cbn [set_likes likes]. rewrite or_zero_id. reflexivity.
  - unfold Session.delete_likes, Session.count_likes, sret.
    cbn [set_likes likes]. rewrite or_zero_id. reflexivity.
Qed.

Lemma is_post_liked_cases post_id user_id s :
  LikesService.is_post_liked_by_user post_id user_id s =
  match filter (LikesService.on_post_by post_id user_id) (likes s) with
  | [] => (Return false, s)
  | [_] => (Return true, s)
  | _ :: _ :: _ => (Raise MultipleResultsFound, s)
  end.
Proof.
  unfold LikesService.is_post_liked_by_user, sbind, Session.select_likes.
  destruct (filter (LikesService.on_post_by post_id user_id) (likes s))
    as [| l [| l' r]]; reflexivity.
Qed.

Lemma get_like_count_run post_id s :
  LikesService.get_like_count post_id s
  = (Return (Z.of_nat (length (filter (LikesService.on_post post_id) (likes s)))), s).
Proof.
  unfold LikesService.get_like_count, sbind, Session.count_likes, sret.
  rewrite or_zero_id. reflexivity.
Qed.

Lemma has_post_of_filter post_id s p r :
  filter (Session.post_by_id post_id) (posts s) = p :: r ->
  Session.has_post post_id s = true.
Proof.
  intros H. unfold Session.has_post.
  destruct (existsb (fun p0 => (Post.id p0 =? post_id)%Z) (posts s)) eqn:E;
    [reflexivity |].
  apply existsb_false_filter in E. unfold Session.post_by_id in H.
  rewrite E in H. discriminate.
Qed.

Lemma on_post_by_within post_id user_id l :
  LikesService.on_post_by post_id user_id l = true ->
  LikesService.on_post post_id l = true.
Proof.
  unfold LikesService.on_post_by, LikesService.on_post.
  intros H. apply andb_true_iff in H as [H _]. exact H.
Qed.

Lemma on_post_by_apart post_id user_id p u l :
  (p, u) <> (post_id, user_id) ->
  LikesService.on_post_by p u l = true ->
  LikesService.on_post_by post_id user_id l = false.
Proof.
  unfold LikesService.on_post_by. intros Hne H.
  apply andb_true_iff in H as [H1 H2]. apply Z.eqb_eq in H1, H2.
  apply andb_false_iff.
  destruct (Like.post_id l =? post_id)%Z eqn:E1; [| left; reflexivity].
  destruct (Like.user_id l =? user_id)%Z eqn:E2; [| right; reflexivity].
  apply Z.eqb_eq in E1, E2. exfalso. apply Hne. congruence.
Qed.

(** X22. How [toggle_like] fails, for ids in the range of the integer
    columns.  For a post that is not in the table it raises HTTP 404
    "Post with id N not found" and changes nothing.  Whenever it raises,
    the tables it was given and the bucket are as before, and the
    exception is that 404, [MultipleResultsFound] from one of the two
    lookups, or the [IntegrityError] of the INSERT, which needs enforced
    foreign keys and a user id that is not in [users]: the INSERT never
    trips over [unique_user_post_like], because it is only sent when the
    lookup found no like. *)
Theorem toggle_like_failures env fk post_id user_id s :
  Session.INTEGER post_id ->
  Session.INTEGER user_id ->
  (Session.has_post post_id s = false ->
   LikesService.toggle_like env fk post_id user_id s
   = (Raise (HTTPException 404
               ("Post with id " ++ Exceptions.str_of_int post_id ++ " not found")),
      s))
  /\ (forall e s',
        LikesService.toggle_like env fk post_id user_id s = (Raise e, s') ->
        same_tables s s'
        /\ removed_objects s' = removed_objects s
        /\ (e = HTTPException 404
                  ("Post with id " ++ Exceptions.str_of_int post_id ++ " not found")
            /\ Session.has_post post_id s = false
            \/ e = MultipleResultsFound
            \/ e = IntegrityError /\ fk = true
               /\ Session.has_user user_id s = false)).
Proof.
  intros _ _. split.
  - intros H. rewrite toggle_like_cases.
    apply existsb_false_filter in H. unfold Session.post_by_id. rewrite H.
    reflexivity.
  - intros e s'. rewrite toggle_like_cases.
    destruct (filter (Session.post_by_id post_id) (posts s)) as [| p [| p' r]] eqn:Ep.
    + intros H. inversion H; subst. repeat split.
      left. split; [reflexivity |].
      apply existsb_false_filter. exact Ep.
    + pose proof (has_post_of_filter post_id s p [] Ep) as Hp.
      destruct (filter (LikesService.on_post_by post_id user_id) (likes s))
        as [| l [| l' r]].
      * cbv zeta. rewrite Hp.
        destruct fk; cbn [andb negb];
          [destruct (Session.has_user user_id s) eqn:Eu; cbn [negb] |];
          intros H; inversion H; subst.
        repeat split. right. right. repeat split.
      * cbv zeta. intros H. inversion H.
      * intros H. inversion H; subst. repeat split. right. left. reflexivity.
    + intros H. inversion H; subst. repeat split. right. left. reflexivity.
Qed.

Lemma toggle_like_failures_witness :
  LikesService.toggle_like Scenario3.env true 12 2 Scenario3.feed
  = (Raise (HTTPException 404 "Post with id 12 not found"), Scenario3.feed).
Proof.
  apply (toggle_like_failures Scenario3.env true 12 2 Scenario3.feed).
  - unfold Session.INTEGER. lia.
  - unfold Session.INTEGER. lia.
  - reflexivity.
Defined.

(** [toggle_like] on the tables its session sees. *)
Lemma toggle_like_effect env fk post_id user_id s is_liked n s' :
  LikesService.toggle_like env fk post_id user_id s = (Return (is_liked, n), s') ->
  LikesService.is_post_liked_by_user post_id user_id s = (Return (negb is_liked), s)
  /\ LikesService.is_post_liked_by_user post_id user_id s' = (Return is_liked, s')
  /\ LikesService.get_like_count post_id s' = (Return n, s')
  /\ LikesService.get_like_count post_id s
     = (Return (if is_liked then n - 1 else n + 1), s)
  /\ (forall p u, (p, u) <> (post_id, user_id) ->
        filter (LikesService.on_post_by p u) (likes s')
        = filter (LikesService.on_post_by p u) (likes s))
  /\ rows (world s') = rows (world s)
  /\ posts s' = posts s
  /\ comments s' = comments s
  /\ (likes_unique s -> likes_unique s').
Proof.
  rewrite toggle_like_cases.
  destruct (filter (Session.post_by_id post_id) (posts s)) as [| p [| p' r]];
    [discriminate | | discriminate].
  rewrite !is_post_liked_cases, !get_like_count_run.
  destruct (filter (LikesService.on_post_by post_id user_id) (likes s))
    as [| l [| l' r]] eqn:El; [| | discriminate].
  - cbv zeta.
    destruct (fk && negb (Session.has_post post_id s && Session.has_user user_id s));
      [discriminate |].
    intros H. inversion H; subst. clear H.
    cbn [set_likes set_world likes world posts comments rows].
    set (like := Like.mk (Session.next_id (map Like.id (likes s))) user_id post_id
                         (Some (utcnow env (ticks (world s))))).
    assert (LikesService.on_post_by post_id user_id like = true) as Hby.
    { unfold LikesService.on_post_by, like. cbn [Like.post_id Like.user_id].
      rewrite !Z.eqb_refl. reflexivity. }
    assert (LikesService.on_post post_id like = true) as Hon
      by (apply (on_post_by_within post_id user_id); exact Hby).
    rewrite !filter_snoc, El, Hby, Hon. cbn [app negb].
    rewrite length_app. cbn [length].
    repeat split.
    + do 2 f_equal. lia.
    + intros p0 u Hne. rewrite filter_snoc.
      destruct (LikesService.on_post_by p0 u like) eqn:E.
      * rewrite (on_post_by_apart post_id user_id p0 u like Hne E) in Hby.
        discriminate.
      * apply app_nil_r.
    + unfold likes_unique. cbn [likes set_likes]. intros Hu.
      rewrite map_app. cbn [map]. apply NoDup_snoc.
      * exact Hu.
      * intros Hin. apply in_map_iff in Hin as [x [Hx Hin]].
        assert (In x (filter (LikesService.on_post_by post_id user_id) (likes s))) as Hf.
        { apply filter_In. split; [exact Hin |].
          unfold LikesService.on_post_by. unfold like in Hx.
          cbn [Like.user_id Like.post_id] in Hx. inversion Hx as [[E1 E2]].
          rewrite !Z.eqb_refl. reflexivity. }
        rewrite El in Hf. exact Hf.
  - cbv zeta. intros H. inversion H; subst. clear H.
    cbn [set_likes likes world posts comments negb].
    rewrite filter_removed.
    pose proof (filter_within_length (LikesService.on_post post_id)
                  (LikesService.on_post_by post_id user_id) (likes s)
                  (on_post_by_within post_id user_id)) as Hlen.
    rewrite El in Hlen. cbn [length] in Hlen.
    repeat split.
    + do 2 f_equal. lia.
    + intros p0 u Hne. apply filter_apart.
      intros a. apply on_post_by_apart. exact Hne.
    + unfold likes_unique. cbn [likes set_likes]. intros Hu.
      apply NoDup_map_filter. exact Hu.
Qed.

(** What a request leaves of the users table when its handler returned:
    the rows the resolution committed, the row of the current user as
    the session held it. *)
Lemma served_feed_return {A B : Type} env token (handler : User.t -> St A)
    (after : User.t -> A -> St B) s user w1 b s' :
  Service.get_current_user env token (world s) = (Return user, w1) ->
  served_feed env token handler after s = (Return b, s') ->
  exists a s2,
    handler user (set_world (session_view user w1) s) = (Return a, s2)
    /\ after user a s2 = (Return b, s').
Proof.
  intros Hres H. unfold served_feed in H. rewrite Hres in H.
  destruct (handler user (set_world (session_view user w1) s)) as [[a | e] s2];
    [| discriminate].
  exists a, s2. split; [reflexivity | exact H].
Qed.

Lemma sret_inv {A : Type} (a b : A) (s s' : Store) :
  sret a s = (Return b, s') -> a = b /\ s' = s.
Proof. unfold sret. intros H. inversion H. split; reflexivity. Qed.

(** X23. What a like request that returns has done.  The endpoint runs
    [toggle_like] for the current user on the session of the request.
    The flag it returns is the opposite of what [is_post_liked_by_user]
    answered before and is what it answers afterwards; the count it
    returns is what [get_like_count] answers afterwards, one more than
    before when the post is now liked and one less when it is not.  The
    likes of every other (post, user) pair are the same rows as before,
    posts and comments are untouched, [unique_user_post_like] still
    holds if it held, and the users table is what the resolution
    committed, with the current user's row as the session held it: a
    Keycloak id that the resolution assigned and left pending is written
    by the commit of the like. *)
Theorem toggle_like_result env fk token post_id s user w1 is_liked n s' :
  Service.get_current_user env token (world s) = (Return user, w1) ->
  served_feed env token
    (fun u => LikesService.toggle_like env fk post_id (User.id u))
    (fun _ r => sret r) s
  = (Return (is_liked, n), s') ->
  LikesService.is_post_liked_by_user post_id (User.id user) s
  = (Return (negb is_liked), s)
  /\ LikesService.is_post_liked_by_user post_id (User.id user) s'
     = (Return is_liked, s')
  /\ LikesService.get_like_count post_id s' = (Return n, s')
  /\ LikesService.get_like_count post_id s
     = (Return (if is_liked then n - 1 else n + 1), s)
  /\ (forall p u, (p, u) <> (post_id, User.id user) ->
        filter (LikesService.on_post_by p u) (likes s')
        = filter (LikesService.on_post_by p u) (likes s))
  /\ rows (world s') = replace_row user (rows w1)
  /\ posts s' = posts s
  /\ comments s' = comments s
  /\ (likes_unique s -> likes_unique s').
Proof.
  intros Hres H.
  destruct (served_feed_return _ _ _ _ _ _ _ _ _ Hres H) as [a [s2 [Hh Ha]]].
  apply sret_inv in Ha as [-> ->].
  set (sv := set_world (session_view user w1) s) in *.
  apply toggle_like_effect in Hh.
  destruct Hh as [H1 [H2 [H3 [H4 [H5 [H6 [H7 [H8 H9]]]]]]]].
  split.
  { rewrite is_post_liked_cases in *. change (likes sv) with (likes s) in H1.
    destruct (filter (LikesService.on_post_by post_id (User.id user)) (likes s))
      as [| x [| y r]]; inversion H1; reflexivity. }
  split; [exact H2 |]. split; [exact H3 |].
  split.
  { rewrite get_like_count_run in *. change (likes sv) with (likes s) in H4.
    inversion H4. reflexivity. }
  split; [exact H5 |]. split; [exact H6 |]. split; [exact H7 |].
  split; [exact H8 | exact H9].
Qed.

Lemma toggle_like_result_witness :
  rows (world (snd (served_feed Scenario3.grace_env "t"
                      (fun u => LikesService.toggle_like Scenario3.grace_env true 11
                                  (User.id u))
                      (fun _ r => sret r) Scenario3.grace_feed)))
  = replace_row Scenario3.linked
      (rows (mkWorld [Scenario3.unlinked; Scenario2.bob] 1)).
Proof.
  destruct (toggle_like_result Scenario3.grace_env true "t" 11 Scenario3.grace_feed
              Scenario3.linked (mkWorld [Scenario3.unlinked; Scenario2.bob] 1)
              true 1
              (snd (served_feed Scenario3.grace_env "t"
                      (fun u => LikesService.toggle_like Scenario3.grace_env true 11
                                  (User.id u))
                      (fun _ r => sret r) Scenario3.grace_feed)))
    as [_ [_ [_ [_ [_ [H _]]]]]];
    [vm_compute; reflexivity | vm_compute; reflexivity | exact H].
Defined.

Lemma keyed_post_filter post_id s :
  posts_keyed s -> Session.has_post post_id s = true ->
  exists p, filter (Session.post_by_id post_id) (posts s) = [p].
Proof.
  intros Hk Hp.
  destruct (filter_at_most_one Post.id (Session.post_by_id post_id) (posts s) Hk)
    as [E | E].
  - unfold Session.post_by_id. intros a b Ha Hb.
    apply Z.eqb_eq in Ha, Hb. congruence.
  - apply existsb_false_filter in E. unfold Session.has_post in Hp.
    unfold Session.post_by_id in E. rewrite E in Hp. discriminate.
  - exact E.
Qed.

Lemma on_post_other post_id user_id p a :
  p <> post_id ->
  LikesService.on_post p a = true ->
  LikesService.on_post_by post_id user_id a = false.
Proof.
  unfold LikesService.on_post, LikesService.on_post_by. intros Hne H.
  apply Z.eqb_eq in H.
  destruct (Like.post_id a =? post_id)%Z eqn:E; [| reflexivity].
  apply Z.eqb_eq in E. exfalso. apply Hne. congruence.
Qed.

(** X24. Toggling twice is the identity on what the feed shows.  On a
    store with unique post ids and [unique_user_post_like], for a post
    in the table (and, with enforced foreign keys, a user in [users]),
    two successive [toggle_like] calls both return, with opposite flags,
    the second count being the count before the first call; afterwards
    [is_post_liked_by_user] and [get_like_count] answer for every post
    and user what they answered at the start. *)
Theorem toggle_like_twice env fk post_id user_id s :
  posts_keyed s ->
  likes_unique s ->
  Session.has_post post_id s = true ->
  (fk = true -> Session.has_user user_id s = true) ->
  exists b n s1 s2,
    LikesService.toggle_like env fk post_id user_id s = (Return (b, n), s1)
    /\ LikesService.toggle_like env fk post_id user_id s1
       = (Return (negb b, if b then n - 1 else n + 1), s2)
    /\ (forall p u,
          fst (LikesService.is_post_liked_by_user p u s2)
          = fst (LikesService.is_post_liked_by_user p u s))
    /\ (forall p,
          fst (LikesService.get_like_count p s2)
          = fst (LikesService.get_like_count p s)).
Proof.
  intros Hk Hu Hp Hfk.
  destruct (keyed_post_filter post_id s Hk Hp) as [p Ep].
  assert (fk && negb (Session.has_post post_id s && Session.has_user user_id s)
          = false) as Hcheck.
  { destruct fk; [| reflexivity]. rewrite Hp, (Hfk eq_refl). reflexivity. }
  destruct (likes_unique_filter post_id user_id s Hu) as [El | [l El]].
  - (* like, then unlike *)
    set (like := Like.mk (Session.next_id (map Like.id (likes s))) user_id post_id
                         (Some (utcnow env (ticks (world s))))).
    assert (LikesService.on_post_by post_id user_id like = true) as Hby.
    { unfold LikesService.on_post_by, like. cbn [Like.post_id Like.user_id].
      rewrite !Z.eqb_refl. reflexivity. }
    assert (LikesService.on_post post_id like = true) as Hon
      by (apply (on_post_by_within post_id user_id); exact Hby).
    set (s1 := set_likes (likes s ++ [like])%list
                 (set_world (mkWorld (rows (world s)) (S (ticks (world s)))) s)).
    exists true, (Z.of_nat (length (filter (LikesService.on_post post_id) (likes s))) + 1),
      s1, (set_likes (likes s) s1).
    split; [| split; [| split]].
    + rewrite toggle_like_cases, Ep, El. cbv zeta. rewrite Hcheck.
      fold like. fold s1. rewrite filter_snoc, Hon, length_app. cbn [length].
      do 3 f_equal. lia.
    + rewrite toggle_like_cases.
      change (posts s1) with (posts s). rewrite Ep.
      change (likes s1) with (likes s ++ [like])%list.
      rewrite (filter_snoc (LikesService.on_post_by post_id user_id)), El, Hby.
      cbn [app]. cbv zeta.
      rewrite (filter_snoc (fun l => negb (LikesService.on_post_by post_id user_id l))),
        Hby. cbn [negb]. rewrite app_nil_r, (filter_none_id _ _ El).
      cbn [negb]. do 3 f_equal. lia.
    + intros p0 u. rewrite !is_post_liked_cases. cbn [set_likes likes].
      destruct (filter (LikesService.on_post_by p0 u) (likes s)) as [| a [| a' r]];
        reflexivity.
    + intros p0. rewrite !get_like_count_run. reflexivity.
  - (* unlike, then like again *)
    set (kept := filter (fun l => negb (LikesService.on_post_by post_id user_id l))
                        (likes s)).
    set (s1 := set_likes kept s).
    set (like := Like.mk (Session.next_id (map Like.id kept)) user_id post_id
                         (Some (utcnow env (ticks (world s))))).
    assert (LikesService.on_post_by post_id user_id like = true) as Hby.
    { unfold LikesService.on_post_by, like. cbn [Like.post_id Like.user_id].
      rewrite !Z.eqb_refl. reflexivity. }
    assert (LikesService.on_post post_id like = true) as Hon
      by (apply (on_post_by_within post_id user_id); exact Hby).
    pose proof (filter_within_length (LikesService.on_post post_id)
                  (LikesService.on_post_by post_id user_id) (likes s)
                  (on_post_by_within post_id user_id)) as Hlen.
    rewrite El in Hlen. cbn [length] in Hlen. fold kept in Hlen.
    exists false, (Z.of_nat (length (filter (LikesService.on_post post_id) kept))),
      s1, (set_likes (kept ++ [like])%list
             (set_world (mkWorld (rows (world s)) (S (ticks (world s)))) s1)).
    split; [| split; [| split]].
    + rewrite toggle_like_cases, Ep, El. reflexivity.
    + rewrite toggle_like_cases.
      change (posts s1) with (posts s). rewrite Ep.
      change (likes s1) with kept. unfold kept at 1. rewrite filter_removed.
      cbv zeta.
      change (Session.has_post post_id s1) with (Session.has_post post_id s).
      change (Session.has_user user_id s1) with (Session.has_user user_id s).
      rewrite Hcheck. change (world s1) with (world s). fold like.
      rewrite filter_snoc, Hon, length_app. cbn [length negb].
      do 3 f_equal. lia.
    + intros p0 u. rewrite !is_post_liked_cases. cbn [set_likes likes].
      rewrite filter_snoc.
      destruct (LikesService.on_post_by p0 u like) eqn:E.
      * unfold LikesService.on_post_by, like in E.
        cbn [Like.post_id Like.user_id] in E.
        apply andb_true_iff in E as [E1 E2]. apply Z.eqb_eq in E1, E2. subst p0 u.
        unfold kept. rewrite filter_removed, El. reflexivity.
      * rewrite app_nil_r. unfold kept. rewrite filter_apart;
          [destruct (filter (LikesService.on_post_by p0 u) (likes s))
             as [| a [| a' r]]; reflexivity |].
        intros a Ha.
        destruct (LikesService.on_post_by post_id user_id a) eqn:Eb; [| reflexivity].
        exfalso. unfold LikesService.on_post_by in *.
        apply andb_true_iff in Ha as [Ha1 Ha2], Eb as [Eb1 Eb2].
        apply Z.eqb_eq in Ha1, Ha2, Eb1, Eb2.
        unfold like in E. cbn [Like.post_id Like.user_id] in E.
        rewrite <- Ha1, <- Ha2, Eb1, Eb2, !Z.eqb_refl in E. discriminate.
    + intros p0. rewrite !get_like_count_run. cbn [set_likes likes fst].
      rewrite filter_snoc, length_app.
      destruct (Z.eq_dec p0 post_id) as [-> | Hne].
      * rewrite Hon. cbn [length]. f_equal. lia.
      * assert (LikesService.on_post p0 like = false) as ->.
        { unfold LikesService.on_post, like. cbn [Like.post_id].
          apply Z.eqb_neq. intros E. apply Hne. symmetry. exact E. }
        cbn [length]. unfold kept. rewrite filter_apart;
          [f_equal; lia | intros a; apply on_post_other; exact Hne].
Qed.

Lemma toggle_like_twice_witness :
  exists b n s1 s2,
    LikesService.toggle_like Scenario3.env true 10 2 Scenario3.feed
    = (Return (b, n), s1)
    /\ LikesService.toggle_like Scenario3.env true 10 2 s1
       = (Return (negb b, if b then n - 1 else n + 1), s2)
    /\ (forall p u,
          fst (LikesService.is_post_liked_by_user p u s2)
          = fst (LikesService.is_post_liked_by_user p u Scenario3.feed))
    /\ (forall p,
          fst (LikesService.get_like_count p s2)
          = fst (LikesService.get_like_count p Scenario3.feed)).
Proof.
  apply (toggle_like_twice Scenario3.env true 10 2 Scenario3.feed).
  - unfold posts_keyed. cbn. repeat constructor; cbn; intuition discriminate.
  - unfold likes_unique. cbn. repeat constructor; cbn; intuition discriminate.
  - reflexivity.
  - intros _. reflexivity.
Defined.

(* ------------------------------------------------------------------ *)
(** ** The like flags of a page of posts *)

Lemma dict_get_set_same {V : Type} (k : Z) (v : V) (d : list (Z * V)) :
  PyDict.get k (PyDict.set k v d) = Some v.
Proof.
  induction d as [| [k' v'] d IH]; simpl.
  - rewrite Z.eqb_refl. reflexivity.
  - destruct (k' =? k)%Z eqn:E; simpl; rewrite E; [reflexivity | exact IH].
Qed.

Lemma dict_get_set_other {V : Type} (k k0 : Z) (v : V) (d : list (Z * V)) :
  k <> k0 -> PyDict.get k (PyDict.set k0 v d) = PyDict.get k d.
Proof.
  intros Hne. induction d as [| [k' v'] d IH]; simpl.
  - destruct (k0 =? k)%Z eqn:E; [| reflexivity].
    apply Z.eqb_eq in E. exfalso. apply Hne. symmetry. exact E.
  - destruct (k' =? k0)%Z eqn:E0; simpl.
    + destruct (k' =? k)%Z eqn:E; [| reflexivity].
      apply Z.eqb_eq in E0, E. exfalso. apply Hne. congruence.
    + rewrite IH. reflexivity.
Qed.

Lemma dict_keys_set {V : Type} (k : Z) (v : V) (d : list (Z * V)) :
  map fst (PyDict.set k v d)
  = (if existsb (Z.eqb k) (map fst d) then map fst d else map fst d ++ [k])%list.
Proof.
  induction d as [| [k' v'] d IH]; simpl; [reflexivity |].
  rewrite (Z.eqb_sym k k').
  destruct (k' =? k)%Z; simpl; [reflexivity |].
  rewrite IH. destruct (existsb (Z.eqb k) (map fst d)); reflexivity.
Qed.

Lemma dict_get_comprehension {V : Type} (f : Z -> V) (keys : list Z) (k : Z) :
  PyDict.get k (PyDict.comprehension f keys)
  = if existsb (Z.eqb k) keys then Some (f k) else None.
Proof.
  unfold PyDict.comprehension.
  change (@None V) with (PyDict.get k (@nil (Z * V))).
  generalize (@nil (Z * V)) as d.
  induction keys as [| k0 keys IH]; intros d; simpl; [reflexivity |].
  rewrite IH.
  destruct (existsb (Z.eqb k) keys); [rewrite orb_true_r; reflexivity |].
  rewrite orb_false_r.
  destruct (k =? k0)%Z eqn:E.
  - apply Z.eqb_eq in E. subst k0. apply dict_get_set_same.
  - apply Z.eqb_neq in E. apply dict_get_set_other. exact E.
Qed.

Lemma dict_keys_comprehension {V : Type} (f : Z -> V) (keys : list Z) :
  NoDup (map fst (PyDict.comprehension f keys)).
Proof.
  unfold PyDict.comprehension.
  assert (NoDup (map fst (@nil (Z * V)))) as H by constructor.
  revert H. generalize (@nil (Z * V)) as d.
  induction keys as [| k0 keys IH]; intros d Hd; simpl; [exact Hd |].
  apply IH. rewrite dict_keys_set.
  destruct (existsb (Z.eqb k0) (map fst d)) eqn:E; [exact Hd |].
  apply NoDup_snoc; [exact Hd |].
  intros Hin. assert (existsb (Z.eqb k0) (map fst d) = true) as E'.
  { apply existsb_exists. exists k0. split; [exact Hin | apply Z.eqb_refl]. }
  rewrite E in E'. discriminate.
Qed.

Lemma existsb_In_Z (k : Z) (l : list Z) :
  existsb (Z.eqb k) l = true <-> In k l.
Proof.
  rewrite existsb_exists. split.
  - intros [x [Hx E]]. apply Z.eqb_eq in E. subst x. exact Hx.
  - intros H. exists k. split; [exact H | apply Z.eqb_refl].
Qed.

(** The set built from the one query holds a post of the page exactly
    when the user has a like on it. *)
Lemma liked_post_ids_spec (post_ids : list Z) (user_id p : Z) (l : list Like.t) :
  In p post_ids ->
  existsb (Z.eqb p)
    (map Like.post_id
       (filter (fun l => existsb (Z.eqb (Like.post_id l)) post_ids
                         && (Like.user_id l =? user_id)%Z) l))
  = existsb (LikesService.on_post_by p user_id) l.
Proof.
  intros Hin. induction l as [| a l IH]; simpl; [reflexivity |].
  unfold LikesService.on_post_by at 1.
  destruct (Like.post_id a =? p)%Z eqn:Ep.
  - apply Z.eqb_eq in Ep.
    assert (existsb (Z.eqb (Like.post_id a)) post_ids = true) as ->
      by (apply existsb_In_Z; rewrite Ep; exact Hin).
    cbn [andb]. destruct (Like.user_id a =? user_id)%Z; simpl; [| exact IH].
    rewrite Ep, Z.eqb_refl. reflexivity.
  - cbn [andb orb].
    destruct (existsb (Z.eqb (Like.post_id a)) post_ids
              && (Like.user_id a =? user_id)%Z); simpl; [| exact IH].
    rewrite Z.eqb_sym, Ep. exact IH.
Qed.

(** X25. The batched query agrees with the single one.  Under
    [unique_user_post_like], [get_likes_for_posts] returns a dict that
    has exactly the ids of the page as keys, each once, and maps every id
    to what [is_post_liked_by_user] answers for that post and user; it
    changes nothing. *)
Theorem likes_map_agrees post_ids user_id s :
  likes_unique s ->
  exists d,
    LikesService.get_likes_for_posts post_ids user_id s = (Return d, s)
    /\ NoDup (map fst d)
    /\ (forall p, In p post_ids ->
          exists b,
            LikesService.is_post_liked_by_user p user_id s = (Return b, s)
            /\ PyDict.get p d = Some b)
    /\ (forall p, ~ In p post_ids -> PyDict.get p d = None).
Proof.
  intros Hu.
  destruct post_ids as [| p1 rest] eqn:Eids.
  - exists []. repeat split; [constructor | intros p [] ].
  - rewrite <- Eids.
    exists (PyDict.comprehension
              (fun post_id =>
                 existsb (Z.eqb post_id)
                   (map Like.post_id
                      (filter (fun l => existsb (Z.eqb (Like.post_id l)) post_ids
                                        && (Like.user_id l =? user_id)%Z)
                              (likes s))))
              post_ids).
    split; [rewrite Eids; reflexivity |].
    split; [apply dict_keys_comprehension |].
    split.
    + intros p Hp. rewrite dict_get_comprehension.
      rewrite (proj2 (existsb_In_Z p post_ids) Hp).
      rewrite (liked_post_ids_spec post_ids user_id p (likes s) Hp).
      rewrite is_post_liked_cases.
      destruct (likes_unique_filter p user_id s Hu) as [El | [l El]].
      * exists false. rewrite El. split; [reflexivity |].
        apply existsb_false_filter in El. rewrite El. reflexivity.
      * exists true. rewrite El. split; [reflexivity |]. f_equal.
        apply existsb_exists. exists l.
        assert (In l (filter (LikesService.on_post_by p user_id) (likes s))) as Hl
          by (rewrite El; left; reflexivity).
        apply filter_In in Hl. exact Hl.
    + intros p Hp. rewrite dict_get_comprehension.
      destruct (existsb (Z.eqb p) post_ids) eqn:E; [| reflexivity].
      apply existsb_In_Z in E. contradiction.
Qed.

Lemma likes_map_agrees_witness :
  exists d,
    LikesService.get_likes_for_posts [10; 11; 10] 2 Scenario3.feed
    = (Return d, Scenario3.feed)
    /\ NoDup (map fst d)
    /\ (forall p, In p [10; 11; 10] ->
          exists b,
            LikesService.is_post_liked_by_user p 2 Scenario3.feed
            = (Return b, Scenario3.feed)
            /\ PyDict.get p d = Some b)
    /\ (forall p, ~ In p [10; 11; 10] -> PyDict.get p d = None).
Proof.
  apply (likes_map_agrees [10; 11; 10] 2 Scenario3.feed).
  unfold likes_unique. cbn. repeat constructor; cbn; intuition discriminate.
Defined.

(* ------------------------------------------------------------------ *)
(** ** Posts and comments: who may change them *)

Lemma NoDup_map_inj {A B : Type} (f : A -> B) (l : list A) (a b : A) :
  NoDup (map f l) -> In a l -> In b l -> f a = f b -> a = b.
Proof.
  induction l as [| x l IH]; simpl; [tauto |].
  intros Hnd Ha Hb E. inversion Hnd as [| y ys Hnin Hnd']; subst.
  destruct Ha as [-> | Ha], Hb as [-> | Hb].
  - reflexivity.
  - exfalso. apply Hnin. rewrite E. apply in_map. exact Hb.
  - exfalso. apply Hnin. rewrite <- E. apply in_map. exact Ha.
  - exact (IH Hnd' Ha Hb E).
Qed.

Lemma keyed_post_lookup s p :
  posts_keyed s -> In p (posts s) ->
  filter (Session.post_by_id (Post.id p)) (posts s) = [p].
Proof.
  intros Hk Hin.
  destruct (filter_at_most_one Post.id (Session.post_by_id (Post.id p)) (posts s) Hk)
    as [E | [q E]].
  - unfold Session.post_by_id. intros a b Ha Hb.
    apply Z.eqb_eq in Ha, Hb. congruence.
  - assert (In p (filter (Session.post_by_id (Post.id p)) (posts s))) as H.
    { apply filter_In. split; [exact Hin | apply Z.eqb_refl]. }
    rewrite E in H. destruct H.
  - rewrite E. f_equal.
    assert (In q (filter (Session.post_by_id (Post.id p)) (posts s))) as H
      by (rewrite E; left; reflexivity).
    apply filter_In in H as [Hq Hid]. apply Z.eqb_eq in Hid.
    exact (NoDup_map_inj Post.id (posts s) q p Hk Hq Hin Hid).
Qed.


Lemma filter_singleton_member {A : Type} (p : A -> bool) (l : list A) (a : A) :
  filter p l = [a] -> In a l /\ p a = true.
Proof.
  intros E. apply filter_In. rewrite E. left. reflexivity.
Qed.

Lemma get_post_cases post_id s :
  PostService.get_post post_id s =
  match filter (Session.post_by_id post_id) (posts s) with
  | [] => (Raise (Exceptions.PostNotFoundError (Some post_id)), s)
  | [p] => (Return p, s)
  | _ :: _ :: _ => (Raise MultipleResultsFound, s)
  end.
Proof.
  unfold PostService.get_post, sbind, Session.select_posts.
  destruct (filter (Session.post_by_id post_id) (posts s)) as [| p [| p' r]];
    reflexivity.
Qed.


Lemma delete_post_cases fk post_id user_id s :
  PostService.delete_post fk post_id user_id s =
  match filter (Session.post_by_id post_id) (posts s) with
  | [] => (Raise (Exceptions.PostNotFoundError (Some post_id)), s)
  | [p] =>
      if negb (Post.user_id p =? user_id)%Z
      then (Raise (Exceptions.ForbiddenException "You can only delete your own posts"), s)
      else Session.delete_posts fk post_id s
  | _ :: _ :: _ => (Raise MultipleResultsFound, s)
  end.
Proof.
  unfold PostService.delete_post, sbind, Session.select_posts.
  destruct (filter (Session.post_by_id post_id) (posts s)) as [| p [| p' r]];
    cbn [Session.one_or_none sret sraise]; [reflexivity | | reflexivity].
  destruct (negb (Post.user_id p =? user_id)%Z); reflexivity.
Qed.

Lemma create_comment_cases env fk post_id user_id content s :
  CommentsService.create_comment env fk post_id user_id content s =
  match filter (Session.post_by_id post_id) (posts s) with
  | [] => (Raise (Exceptions.PostNotFoundError (Some post_id)), s)
  | [_] => Session.insert_comment env fk content post_id user_id s
  | _ :: _ :: _ => (Raise MultipleResultsFound, s)
  end.
Proof.
  unfold CommentsService.create_comment, sbind at 1 2, Session.select_posts.
  destruct (filter (Session.post_by_id post_id) (posts s)) as [| p [| p' r]];
    reflexivity.
Qed.

Lemma update_comment_cases env comment_id user_id content s :
  CommentsService.update_comment env comment_id user_id content s =
  match filter (Session.comment_by_id comment_id) (comments s) with
  | [] => (Raise (Exceptions.CommentNotFoundError (Some comment_id)), s)
  | [c] =>
      if negb (Comment.user_id c =? user_id)%Z
      then (Raise (Exceptions.ForbiddenException
                     "You can only update your own comments"), s)
      else Session.update_comment env c content s
  | _ :: _ :: _ => (Raise MultipleResultsFound, s)
  end.
Proof.
  unfold CommentsService.update_comment, sbind, Session.select_comments.
  destruct (filter (Session.comment_by_id comment_id) (comments s)) as [| c [| c' r]];
    cbn [Session.one_or_none sret sraise]; [reflexivity | | reflexivity].
  destruct (negb (Comment.user_id c =? user_id)%Z); reflexivity.
Qed.

Lemma delete_comment_cases comment_id user_id s :
  CommentsService.delete_comment comment_id user_id s =
  match filter (Session.comment_by_id comment_id) (comments s) with
  | [] => (Raise (Exceptions.CommentNotFoundError (Some comment_id)), s)
  | [c] =>
      if negb (Comment.user_id c =? user_id)%Z
      then (Raise (Exceptions.ForbiddenException
                     "You can only delete your own comments"), s)
      else (Return tt,
            set_comments
              (filter (fun c => negb (Session.comment_by_id comment_id c)) (comments s)) s)
  | _ :: _ :: _ => (Raise MultipleResultsFound, s)
  end.
Proof.
  unfold CommentsService.delete_comment, sbind, Session.select_comments.
  destruct (filter (Session.comment_by_id comment_id) (comments s)) as [| c [| c' r]];
    cbn [Session.one_or_none sret sraise]; [reflexivity | | reflexivity].
  destruct (negb (Comment.user_id c =? user_id)%Z); reflexivity.
Qed.

Lemma not_owner (a b : Z) : a <> b -> negb (a =? b)%Z = true.
Proof. intros H. apply Z.eqb_neq in H. rewrite H. reflexivity. Qed.

Lemma owner_of_check (a b : Z) : negb (a =? b)%Z = false -> a = b.
Proof.
  intros H. apply negb_false_iff in H. apply Z.eqb_eq. exact H.
Qed.


Lemma session_update_comment_inv env c content s o s' :
  Session.update_comment env c content s = (o, s') ->
  exists r,
    o = Return r
    /\ Comment.id r = Comment.id c /\ Comment.user_id r = Comment.user_id c
    /\ Comment.post_id r = Comment.post_id c
    /\ Comment.created_at r = Comment.created_at c
    /\ Comment.content r = content
    /\ rows (world s') = rows (world s)
    /\ posts s' = posts s /\ likes s' = likes s
    /\ removed_objects s' = removed_objects s
    /\ (comments s' = comments s /\ r = c
        \/ comments s'
           = map (fun q => if (Comment.id q =? Comment.id c)%Z then r else q) (comments s)).
Proof.
  unfold Session.update_comment.
  destruct (String.eqb content (Comment.content c)) eqn:E.
  - apply String.eqb_eq in E.
    intros H. inversion H; subst. exists c. repeat split; auto.
  - unfold sbind, Session.utcnow_default. intros H. inversion H; subst. clear H.
    eexists. split; [reflexivity |]. cbn. repeat split. right. reflexivity.
Qed.



(* ------------------------------------------------------------------ *)
(** ** Comments: what the three writers do *)

Lemma filter_apart_in {A : Type} (q r : A -> bool) (l : list A) :
  (forall a, In a l -> q a = true -> r a = false) ->
  filter q (filter (fun a => negb (r a)) l) = filter q l.
Proof.
  induction l as [| a l IH]; intros H; simpl; [reflexivity |].
  assert (filter q (filter (fun a => negb (r a)) l) = filter q l) as IH'.
  { apply IH. intros b Hb. apply H. right. exact Hb. }
  destruct (r a) eqn:Er; simpl.
  - destruct (q a) eqn:Eq; [| exact IH'].
    rewrite (H a (or_introl eq_refl) Eq) in Er. discriminate.
  - rewrite IH'. reflexivity.
Qed.

Lemma filter_within_length_in {A : Type} (q r : A -> bool) (l : list A) :
  (forall a, In a l -> r a = true -> q a = true) ->
  (length (filter q (filter (fun a => negb (r a)) l)) + length (filter r l)
   = length (filter q l))%nat.
Proof.
  induction l as [| a l IH]; intros H; simpl; [reflexivity |].
  assert (length (filter q (filter (fun a => negb (r a)) l)) + length (filter r l)
          = length (filter q l))%nat as IH'.
  { apply IH. intros b Hb. apply H. right. exact Hb. }
  destruct (r a) eqn:Er; simpl.
  - rewrite (H a (or_introl eq_refl) Er). simpl. lia.
  - destruct (q a); simpl; lia.
Qed.

Lemma filter_map_length_in {A : Type} (q : A -> bool) (f : A -> A) (l : list A) :
  (forall a, In a l -> q (f a) = q a) ->
  length (filter q (map f l)) = length (filter q l).
Proof.
  induction l as [| a l IH]; intros H; simpl; [reflexivity |].
  rewrite (H a (or_introl eq_refl)).
  assert (length (filter q (map f l)) = length (filter q l)) as IH'.
  { apply IH. intros b Hb. apply H. right. exact Hb. }
  destruct (q a); simpl; rewrite IH'; reflexivity.
Qed.

Lemma insert_comment_inv env fk content post_id user_id s o s' :
  Session.insert_comment env fk content post_id user_id s = (o, s') ->
  rows (world s') = rows (world s) /\ posts s' = posts s /\ likes s' = likes s
  /\ removed_objects s' = removed_objects s
  /\ (o = Raise IntegrityError /\ comments s' = comments s /\ fk = true
      /\ Session.has_post post_id s && Session.has_user user_id s = false
      \/ exists c,
           o = Return c
           /\ comments s' = (comments s ++ [c])%list
           /\ c = Comment.mk (Session.next_id (map Comment.id (comments s))) content
                             post_id user_id
                             (Some (utcnow env (ticks (world s))))
                             (Some (utcnow env (S (ticks (world s)))))
           /\ (fk = true ->
               Session.has_post post_id s = true /\ Session.has_user user_id s = true)).
Proof.
  unfold Session.insert_comment, sbind, Session.utcnow_default.
  cbn [world set_world rows ticks comments posts].
  match goal with
  | |- context [Session.has_post post_id ?x] =>
      change (Session.has_post post_id x) with (Session.has_post post_id s);
      change (Session.has_user user_id x) with (Session.has_user user_id s)
  end.
  destruct fk; cbn [andb].
  - destruct (Session.has_post post_id s && Session.has_user user_id s) eqn:E;
      cbn [negb]; intros H; inversion H; subst; clear H; cbn; repeat split.
    + right. eexists. repeat split.
      * apply andb_true_iff in E as [E _]. exact E.
      * apply andb_true_iff in E as [_ E]. exact E.
    + left. repeat split.
  - intros H; inversion H; subst; clear H; cbn; repeat split.
    right. eexists. repeat split; discriminate.
Qed.

Lemma get_comment_count_run post_id s :
  CommentsService.get_comment_count post_id s
  = (Return (Z.of_nat (length (filter (CommentsService.on_post post_id) (comments s)))),
     s).
Proof. reflexivity. Qed.

(** The writers of comments/service.py on the tables their session
    sees. *)
Lemma comment_writers_effect env fk s :
  comments_keyed s ->
  (forall post_id user_id content c s',
     CommentsService.create_comment env fk post_id user_id content s = (Return c, s') ->
     Comment.content c = content /\ Comment.post_id c = post_id
     /\ Comment.user_id c = user_id
     /\ ~ In (Comment.id c) (map Comment.id (comments s))
     /\ Session.has_post post_id s = true
     /\ comments s' = (comments s ++ [c])%list
     /\ posts s' = posts s /\ likes s' = likes s /\ rows (world s') = rows (world s)
     /\ (forall p k,
           CommentsService.get_comment_count p s = (Return k, s) ->
           CommentsService.get_comment_count p s'
           = (Return (k + (if (p =? post_id)%Z then 1 else 0)), s')))
  /\ (forall comment_id user_id s',
        CommentsService.delete_comment comment_id user_id s = (Return tt, s') ->
        exists c,
          In c (comments s) /\ Comment.id c = comment_id
          /\ (forall c', In c' (comments s') <-> In c' (comments s) /\ c' <> c)
          /\ posts s' = posts s /\ likes s' = likes s
          /\ rows (world s') = rows (world s)
          /\ (forall p k,
                CommentsService.get_comment_count p s = (Return k, s) ->
                CommentsService.get_comment_count p s'
                = (Return (k - (if (p =? Comment.post_id c)%Z then 1 else 0)), s')))
  /\ (forall comment_id user_id content r s',
        CommentsService.update_comment env comment_id user_id content s
        = (Return r, s') ->
        exists c,
          In c (comments s) /\ Comment.id c = comment_id
          /\ Comment.id r = comment_id /\ Comment.post_id r = Comment.post_id c
          /\ Comment.user_id r = Comment.user_id c
          /\ Comment.created_at r = Comment.created_at c
          /\ Comment.content r = content
          /\ In r (comments s')
          /\ (forall c', In c' (comments s) -> c' <> c -> In c' (comments s'))
          /\ posts s' = posts s /\ likes s' = likes s
          /\ rows (world s') = rows (world s)
          /\ (forall p,
                fst (CommentsService.get_comment_count p s')
                = fst (CommentsService.get_comment_count p s))).
Proof.
  intros Hk. split; [| split].
  - intros post_id user_id content c s' H.
    rewrite create_comment_cases in H.
    destruct (filter (Session.post_by_id post_id) (posts s)) as [| p [| p' l]] eqn:Ep;
      [discriminate | | discriminate].
    apply insert_comment_inv in H.
    destruct H as [Hr [Hp [Hl [_ [[E _] | [c0 [E [Hc [Hc0 _]]]]]]]]];
      [discriminate |].
    injection E as <-.
    rewrite Hc0 at 1 2 3 4. cbn [Comment.content Comment.post_id Comment.user_id
                                   Comment.id].
    repeat split; auto.
    + apply next_id_fresh.
    + exact (has_post_of_filter post_id s p [] Ep).
    + intros p0 k Hcount. rewrite get_comment_count_run in *.
      inversion Hcount; subst k. rewrite Hc, filter_snoc, length_app.
      do 2 f_equal. rewrite Nat2Z.inj_add. f_equal.
      unfold CommentsService.on_post. rewrite Hc0. cbn [Comment.post_id].
      rewrite (Z.eqb_sym post_id p0).
      destruct (p0 =? post_id)%Z; reflexivity.
  - intros comment_id user_id s' H.
    rewrite delete_comment_cases in H.
    destruct (filter (Session.comment_by_id comment_id) (comments s))
      as [| c [| c' l]] eqn:Ec; [discriminate | | discriminate].
    destruct (negb (Comment.user_id c =? user_id)%Z); [discriminate |].
    inversion H; subst s'. clear H.
    pose proof (filter_singleton_member _ _ _ Ec) as [Hin Hid].
    apply Z.eqb_eq in Hid.
    assert (forall a, In a (comments s) ->
                      Session.comment_by_id comment_id a = true -> a = c) as Hsame.
    { intros a Ha E. apply Z.eqb_eq in E.
      apply (NoDup_map_inj Comment.id (comments s) a c Hk Ha Hin). congruence. }
    exists c. cbn [set_comments comments posts likes world].
    split; [exact Hin |]. split; [exact Hid |].
    split; [| split; [reflexivity | split; [reflexivity | split; [reflexivity |]]]].
    + intros x. rewrite filter_In. split.
      * intros [Ha E]. split; [exact Ha |]. intros ->.
        unfold Session.comment_by_id in E. rewrite Hid, Z.eqb_refl in E.
        discriminate.
      * intros [Ha Hne]. split; [exact Ha |].
        destruct (Session.comment_by_id comment_id x) eqn:E; [| reflexivity].
        exfalso. apply Hne. exact (Hsame x Ha E).
    + intros p0 k Hcount. rewrite get_comment_count_run in *.
      inversion Hcount; subst k. cbn [set_comments comments]. do 2 f_equal.
      destruct (p0 =? Comment.post_id c)%Z eqn:Ep.
      * apply Z.eqb_eq in Ep. subst p0.
        pose proof (filter_within_length_in
                      (CommentsService.on_post (Comment.post_id c))
                      (Session.comment_by_id comment_id) (comments s)) as Hlen.
        rewrite Ec in Hlen. cbn [length] in Hlen.
        rewrite <- Hlen; [lia |].
        intros a Ha E. rewrite (Hsame a Ha E).
        unfold CommentsService.on_post. apply Z.eqb_refl.
      * rewrite Z.sub_0_r. f_equal. f_equal. apply filter_apart_in.
        intros a Ha Hq.
        destruct (Session.comment_by_id comment_id a) eqn:E; [| reflexivity].
        rewrite (Hsame a Ha E) in Hq. unfold CommentsService.on_post in Hq.
        rewrite Z.eqb_sym, Ep in Hq. discriminate.
  - intros comment_id user_id content r s' H.
    rewrite update_comment_cases in H.
    destruct (filter (Session.comment_by_id comment_id) (comments s))
      as [| c [| c' l]] eqn:Ec; [discriminate | | discriminate].
    destruct (negb (Comment.user_id c =? user_id)%Z); [discriminate |].
    pose proof (filter_singleton_member _ _ _ Ec) as [Hin Hid].
    apply Z.eqb_eq in Hid.
    apply session_update_comment_inv in H.
    destruct H as [r0 [E [Hi [Hu [Hp [Hca [Hco [Hr [Hps [Hl [_ Hcs]]]]]]]]]]].
    injection E as <-.
    exists c. split; [exact Hin |]. split; [exact Hid |].
    split; [congruence |]. split; [exact Hp |]. split; [exact Hu |].
    split; [exact Hca |]. split; [exact Hco |].
    destruct Hcs as [[Hcs ->] | Hcs].
    + rewrite Hcs. repeat split; auto.
      intros p0. rewrite !get_comment_count_run, Hcs. reflexivity.
    + rewrite Hcs. split; [| split; [| repeat split; auto]].
      * apply in_map_iff. exists c. split; [| exact Hin].
        rewrite Z.eqb_refl. reflexivity.
      * intros x Ha Hne. apply in_map_iff. exists x. split; [| exact Ha].
        destruct (Comment.id x =? Comment.id c)%Z eqn:E; [| reflexivity].
        apply Z.eqb_eq in E. exfalso. apply Hne.
        exact (NoDup_map_inj Comment.id (comments s) x c Hk Ha Hin E).
      * intros p0. rewrite !get_comment_count_run, Hcs. cbn [fst].
        do 2 f_equal. apply filter_map_length_in.
        intros a Ha.
        destruct (Comment.id a =? Comment.id c)%Z eqn:E; [| reflexivity].
        apply Z.eqb_eq in E.
        rewrite (NoDup_map_inj Comment.id (comments s) a c Hk Ha Hin E).
        unfold CommentsService.on_post. rewrite Hp. reflexivity.
Qed.

Lemma comment_count_same p s sv k :
  comments sv = comments s ->
  CommentsService.get_comment_count p s = (Return k, s) ->
  CommentsService.get_comment_count p sv = (Return k, sv).
Proof.
  intros E H. rewrite get_comment_count_run in *. rewrite E.
  inversion H. reflexivity.
Qed.

(** X27. What the comment requests do when they return, on a table with
    unique comment ids.  Each endpoint runs its writer for the current
    user on the session of the request.  Creating needs the post to exist
    and appends one comment with the given content and post, written by
    the current user, under an id no comment had; deleting removes the
    comment with that id and no other; updating keeps id, post, author
    and creation time of the comment and sets its content.
    [get_comment_count] rises by one for the commented post, falls by one
    for the post of the deleted comment, and is otherwise the same.  Posts
    and likes are untouched, and the users table is what the resolution
    committed, with the current user's row as the session held it. *)
Theorem comment_effects env fk token s user w1 :
  comments_keyed s ->
  Service.get_current_user env token (world s) = (Return user, w1) ->
  (forall post_id content c s',
     served_feed env token
       (fun u => CommentsService.create_comment env fk post_id (User.id u) content)
       (fun _ r => sret r) s
     = (Return c, s') ->
     Comment.content c = content /\ Comment.post_id c = post_id
     /\ Comment.user_id c = User.id user
     /\ ~ In (Comment.id c) (map Comment.id (comments s))
     /\ Session.has_post post_id s = true
     /\ comments s' = (comments s ++ [c])%list
     /\ posts s' = posts s /\ likes s' = likes s
     /\ rows (world s') = replace_row user (rows w1)
     /\ (forall p k,
           CommentsService.get_comment_count p s = (Return k, s) ->
           CommentsService.get_comment_count p s'
           = (Return (k + (if (p =? post_id)%Z then 1 else 0)), s')))
  /\ (forall comment_id s',
        served_feed env token
          (fun u => CommentsService.delete_comment comment_id (User.id u))
          (fun _ r => sret r) s
        = (Return tt, s') ->
        exists c,
          In c (comments s) /\ Comment.id c = comment_id
          /\ Comment.user_id c = User.id user
          /\ (forall c', In c' (comments s') <-> In c' (comments s) /\ c' <> c)
          /\ posts s' = posts s /\ likes s' = likes s
          /\ rows (world s') = replace_row user (rows w1)
          /\ (forall p k,
                CommentsService.get_comment_count p s = (Return k, s) ->
                CommentsService.get_comment_count p s'
                = (Return (k - (if (p =? Comment.post_id c)%Z then 1 else 0)), s')))
  /\ (forall comment_id content r s',
        served_feed env token
          (fun u => CommentsService.update_comment env comment_id (User.id u) content)
          (fun _ r => sret r) s
        = (Return r, s') ->
        exists c,
          In c (comments s) /\ Comment.id c = comment_id
          /\ Comment.user_id c = User.id user
          /\ Comment.id r = comment_id /\ Comment.post_id r = Comment.post_id c
          /\ Comment.user_id r = Comment.user_id c
          /\ Comment.created_at r = Comment.created_at c
          /\ Comment.content r = content
          /\ In r (comments s')
          /\ (forall c', In c' (comments s) -> c' <> c -> In c' (comments s'))
          /\ posts s' = posts s /\ likes s' = likes s
          /\ rows (world s') = replace_row user (rows w1)
          /\ (forall p,
                fst (CommentsService.get_comment_count p s')
                = fst (CommentsService.get_comment_count p s))).
Proof.
  intros Hk Hres.
  set (sv := set_world (session_view user w1) s).
  assert (comments_keyed sv) as Hkv by exact Hk.
  destruct (comment_writers_effect env fk sv Hkv) as [Hcreate [Hdelete Hupdate]].
  split; [| split].
  - intros post_id content c s' H.
    destruct (served_feed_return _ _ _ _ _ _ _ _ _ Hres H) as [a [s2 [Hh Ha]]].
    apply sret_inv in Ha as [-> ->]. fold sv in Hh.
    destruct (Hcreate _ _ _ _ _ Hh)
      as [H1 [H2 [H3 [H4 [H5 [H6 [H7 [H8 [H9 H10]]]]]]]]].
    repeat (split; [assumption |]).
    intros p k Hc. apply H10. apply (comment_count_same p s sv k); [reflexivity |].
    exact Hc.
  - intros comment_id s' H.
    destruct (served_feed_return _ _ _ _ _ _ _ _ _ Hres H) as [a [s2 [Hh Ha]]].
    apply sret_inv in Ha as [E ->]. fold sv in Hh. destruct a.
    destruct (Hdelete _ _ _ Hh) as [c [H1 [H2 [H3 [H4 [H5 [H6 H7]]]]]]].
    exists c. split; [exact H1 |]. split; [exact H2 |].
    split.
    { rewrite delete_comment_cases in Hh.
      destruct (filter (Session.comment_by_id comment_id) (comments sv))
        as [| x [| y l]] eqn:Ef; [discriminate | | discriminate].
      destruct (negb (Comment.user_id x =? User.id user)%Z) eqn:Eo;
        [discriminate |].
      apply filter_singleton_member in Ef as [Hx Hidx].
      apply Z.eqb_eq in Hidx.
      assert (x = c) as <-
        by (apply (NoDup_map_inj Comment.id (comments sv) x c Hkv Hx H1);
            congruence).
      apply owner_of_check. exact Eo. }
    repeat (split; [assumption |]).
    intros p k Hc. apply H7. apply (comment_count_same p s sv k); [reflexivity |].
    exact Hc.
  - intros comment_id content r s' H.
    destruct (served_feed_return _ _ _ _ _ _ _ _ _ Hres H) as [a [s2 [Hh Ha]]].
    apply sret_inv in Ha as [-> ->]. fold sv in Hh.
    destruct (Hupdate _ _ _ _ _ Hh)
      as [c [H1 [H2 [H3 [H4 [H5 [H6 [H7 [H8 [H9 [H10 [H11 [H12 H13]]]]]]]]]]]]].
    exists c. split; [exact H1 |]. split; [exact H2 |].
    split.
    { rewrite update_comment_cases in Hh.
      destruct (filter (Session.comment_by_id comment_id) (comments sv))
        as [| x [| y l]] eqn:Ef; [discriminate | | discriminate].
      destruct (negb (Comment.user_id x =? User.id user)%Z) eqn:Eo;
        [discriminate |].
      apply filter_singleton_member in Ef as [Hx Hidx].
      apply Z.eqb_eq in Hidx.
      assert (x = c) as <-
        by (apply (NoDup_map_inj Comment.id (comments sv) x c Hkv Hx H1);
            congruence).
      apply owner_of_check. exact Eo. }
    repeat (split; [assumption |]).
    intros p. rewrite H13, !get_comment_count_run. reflexivity.
Qed.

Lemma comment_effects_witness :
  rows (world (snd (served_feed Scenario3.grace_env "t"
                      (fun u => CommentsService.create_comment Scenario3.grace_env
                                  true 10 (User.id u) "Thanks")
                      (fun _ r => sret r) Scenario3.grace_feed)))
  = replace_row Scenario3.linked
      (rows (mkWorld [Scenario3.unlinked; Scenario2.bob] 1)).
Proof.
  destruct (comment_effects Scenario3.grace_env true "t" Scenario3.grace_feed
              Scenario3.linked (mkWorld [Scenario3.unlinked; Scenario2.bob] 1))
    as [H _].
  - unfold comments_keyed. cbn. repeat constructor; cbn; intuition discriminate.
  - vm_compute. reflexivity.
  - destruct (H 10 "Thanks"
                (Comment.mk 101 "Thanks" 10 1 (Some 5001) (Some 5002))
                (snd (served_feed Scenario3.grace_env "t"
                        (fun u => CommentsService.create_comment
                                    Scenario3.grace_env true 10 (User.id u) "Thanks")
                        (fun _ r => sret r) Scenario3.grace_feed)))
      as [_ [_ [_ [_ [_ [_ [_ [_ [Hrows _]]]]]]]]].
    + vm_compute. reflexivity.
    + exact Hrows.
Defined.

(* ------------------------------------------------------------------ *)
(** ** Deleting a post *)

Lemma existsb_witness {A : Type} (p : A -> bool) (l : list A) (a : A) :
  In a l -> p a = true -> existsb p l = true.
Proof. intros Hin Hp. apply existsb_exists. exists a. split; assumption. Qed.

Lemma existsb_none {A : Type} (p : A -> bool) (l : list A) (a : A) :
  existsb p l = false -> In a l -> p a = false.
Proof.
  intros H Hin. destruct (p a) eqn:E; [| reflexivity].
  rewrite (existsb_witness p l a Hin E) in H. discriminate.
Qed.

(** X28. [delete_post] never cascades.  Whatever it answers, the
    comments and the likes are the rows they were.  When it returns, the
    post is gone from the table and, if the database enforces the foreign
    keys, no comment and no like pointed at it; when it does not return,
    nothing has changed.  So with enforced foreign keys a post that has a
    comment or a like cannot be deleted, not even by its owner, whose
    request ends in the [IntegrityError] of the DELETE; without them the
    comments and likes of a deleted post stay behind. *)
Theorem delete_post_never_cascades fk post_id user_id s o s' :
  PostService.delete_post fk post_id user_id s = (o, s') ->
  comments s' = comments s /\ likes s' = likes s
  /\ rows (world s') = rows (world s)
  /\ (o = Return tt ->
      posts s' = filter (fun p => negb (Session.post_by_id post_id p)) (posts s)
      /\ Session.has_post post_id s' = false
      /\ (fk = true ->
          (forall c, In c (comments s) -> Comment.post_id c <> post_id)
          /\ (forall l, In l (likes s) -> Like.post_id l <> post_id)))
  /\ (o <> Return tt -> s' = s)
  /\ (fk = true ->
      (exists c, In c (comments s) /\ Comment.post_id c = post_id)
      \/ (exists l, In l (likes s) /\ Like.post_id l = post_id) ->
      s' = s
      /\ (forall p, filter (Session.post_by_id post_id) (posts s) = [p] ->
                    Post.user_id p = user_id -> o = Raise IntegrityError)).
Proof.
  rewrite delete_post_cases.
  assert (forall e, (Raise e, s) = (o, s') ->
            comments s' = comments s /\ likes s' = likes s
            /\ rows (world s') = rows (world s)
            /\ (o = Return tt ->
                posts s' = filter (fun p => negb (Session.post_by_id post_id p)) (posts s)
                /\ Session.has_post post_id s' = false
                /\ (fk = true ->
                    (forall c, In c (comments s) -> Comment.post_id c <> post_id)
                    /\ (forall l, In l (likes s) -> Like.post_id l <> post_id)))
            /\ (o <> Return tt -> s' = s)
            /\ s' = s) as Hraise.
  { intros e H. inversion H; subst. repeat split; try reflexivity; discriminate. }
  destruct (filter (Session.post_by_id post_id) (posts s)) as [| p [| p' r]] eqn:Ep.
  - intros H. destruct (Hraise _ H) as [H1 [H2 [H3 [H4 [H5 H6]]]]].
    do 5 (split; [assumption |]). intros _ _. split; [assumption |].
    intros q Hq. discriminate.
  - destruct (negb (Post.user_id p =? user_id)%Z) eqn:Eo.
    + intros H. destruct (Hraise _ H) as [H1 [H2 [H3 [H4 [H5 H6]]]]].
      do 5 (split; [assumption |]). intros _ _. split; [assumption |].
      intros q Hq Hown. injection Hq as <-.
      rewrite Hown, Z.eqb_refl in Eo. discriminate.
    + unfold Session.delete_posts.
      destruct (fk && (existsb (fun c => (Comment.post_id c =? post_id)%Z) (comments s)
                       || existsb (fun l => (Like.post_id l =? post_id)%Z) (likes s)))
        eqn:Eref.
      * intros H. destruct (Hraise _ H) as [H1 [H2 [H3 [H4 [H5 H6]]]]].
        do 5 (split; [assumption |]). intros _ _. split; [assumption |].
        intros q Hq Hown. inversion H. reflexivity.
      * intros H. inversion H; subst. clear H.
        cbn [set_posts comments likes world posts].
        split; [reflexivity |]. split; [reflexivity |]. split; [reflexivity |].
        split; [| split].
        -- intros _. split; [reflexivity |]. split.
           ++ unfold Session.has_post. cbn [set_posts posts].
              apply existsb_false_filter.
              apply (filter_removed (Session.post_by_id post_id)).
           ++ intros ->. cbn [andb] in Eref. apply orb_false_iff in Eref as [Ec El].
              split.
              ** intros c Hc E.
                 pose proof (existsb_none _ _ c Ec Hc) as Hn. cbv beta in Hn.
                 rewrite E, Z.eqb_refl in Hn. discriminate.
              ** intros l Hl E.
                 pose proof (existsb_none _ _ l El Hl) as Hn. cbv beta in Hn.
                 rewrite E, Z.eqb_refl in Hn. discriminate.
        -- intros Hne. exfalso. apply Hne. reflexivity.
        -- intros -> Href. exfalso. cbn [andb] in Eref.
           apply orb_false_iff in Eref as [Ec El].
           destruct Href as [[c [Hc E]] | [l [Hl E]]].
           ++ pose proof (existsb_none _ _ c Ec Hc) as Hn. cbv beta in Hn.
              rewrite E, Z.eqb_refl in Hn. discriminate.
           ++ pose proof (existsb_none _ _ l El Hl) as Hn. cbv beta in Hn.
              rewrite E, Z.eqb_refl in Hn. discriminate.
  - intros H. destruct (Hraise _ H) as [H1 [H2 [H3 [H4 [H5 H6]]]]].
    do 5 (split; [assumption |]). intros _ _. split; [assumption |].
    intros q Hq. discriminate.
Qed.

Lemma delete_post_never_cascades_witness :
  Scenario3.feed = Scenario3.feed
  /\ (forall p, filter (Session.post_by_id 10) (posts Scenario3.feed) = [p] ->
                Post.user_id p = 1 ->
                @Raise unit IntegrityError = Raise IntegrityError).
Proof.
  destruct (delete_post_never_cascades true 10 1 Scenario3.feed
              (Raise IntegrityError) Scenario3.feed) as [_ [_ [_ [_ [_ H]]]]].
  - vm_compute. reflexivity.
  - apply H; [reflexivity |].
    left. exists Scenario3.nice. split; [left; reflexivity | reflexivity].
Defined.

(* ------------------------------------------------------------------ *)
(** ** The deletion endpoint and the image of the post *)

(** X29. The endpoint removes the image before anyone checks the owner.
    For a post with an image: when the storage removes the object, the
    endpoint goes on with [PostService.delete_post] on a store where the
    object is already gone, so a request by a user who does not own the
    post ends in HTTP 403 with the post still in the table, still pointing
    at the image, and the image removed from the bucket.  When the
    storage answers anything else, refusal or exception, the endpoint
    behaves as [PostService.delete_post] alone. *)
Theorem image_removed_before_ownership_check storage_delete fk s p name user_id :
  posts_keyed s ->
  In p (posts s) ->
  Post.image_url p = Some name ->
  name <> "" ->
  let gone := mkStore (world s) (posts s) (comments s) (likes s)
                      (name :: removed_objects s) in
  (storage_delete name = Return true ->
   PostsController.delete_post storage_delete fk (Post.id p) user_id s
   = PostService.delete_post fk (Post.id p) user_id gone
   /\ (Post.user_id p <> user_id ->
       PostsController.delete_post storage_delete fk (Post.id p) user_id s
       = (Raise (HTTPException 403 "You can only delete your own posts"), gone)
       /\ In p (posts gone)))
  /\ (storage_delete name <> Return true ->
      PostsController.delete_post storage_delete fk (Post.id p) user_id s
      = PostService.delete_post fk (Post.id p) user_id s).
Proof.
  intros Hk Hin Himg Hname gone.
  pose proof (keyed_post_lookup s p Hk Hin) as Ep.
  assert (Py.truthy (Post.image_url p) = true
          /\ Py.str_or (Post.image_url p) "" = name) as [Ht Hs].
  { rewrite Himg. destruct name as [| c r]; [contradiction |]. split; reflexivity. }
  assert (PostsController.delete_post storage_delete fk (Post.id p) user_id s
                     = match (if Py.truthy (Post.image_url p) then
                                stry
                                  (_ <~ PostsController.delete_post_image storage_delete
                                          (Py.str_or (Post.image_url p) "") ;;
                                   sret tt)
                                  (fun _ => sret tt)
                              else sret tt) s with
                       | (Return _, s1) => PostService.delete_post fk (Post.id p) user_id s1
                       | (Raise e, s1) => (Raise e, s1)
                       end) as Hrun.
  { unfold PostsController.delete_post, sbind at 1.
    rewrite get_post_cases, Ep. reflexivity. }
  rewrite Ht, Hs in Hrun.
  unfold stry, sbind, PostsController.delete_post_image in Hrun.
  split.
  - intros Hok. rewrite Hok in Hrun. cbn [sret] in Hrun. fold gone in Hrun.
    split; [exact Hrun |].
    intros Hne. split; [| exact Hin].
    rewrite Hrun, delete_post_cases. change (posts gone) with (posts s).
    rewrite Ep, (not_owner _ _ Hne). reflexivity.
  - intros Hko. rewrite Hrun.
    destruct (storage_delete name) as [[|] | e]; [contradiction | |]; reflexivity.
Qed.

Lemma image_removed_before_ownership_check_witness :
  PostsController.delete_post Scenario3.storage_ok true 10 2 Scenario3.feed
  = (Raise (HTTPException 403 "You can only delete your own posts"),
     mkStore (world Scenario3.feed) (posts Scenario3.feed) (comments Scenario3.feed)
             (likes Scenario3.feed) ["posts/10/a.png"]).
Proof.
  destruct (image_removed_before_ownership_check Scenario3.storage_ok true
              Scenario3.feed Scenario3.hello "posts/10/a.png" 2) as [H _].
  - unfold posts_keyed. cbn. repeat constructor; cbn; intuition discriminate.
  - left. reflexivity.
  - reflexivity.
  - discriminate.
  - destruct (H eq_refl) as [_ H2]. destruct H2 as [H2 _]; [discriminate | exact H2].
Defined.

(* ------------------------------------------------------------------ *)
(** ** The constraints of the tables over a sequence of requests *)


























